(** * Document synchronisation and autosave engine

    A shallow embedding of the hooks behind the dual-canvas document editor
    and of the page code around them:

    - [use-document-scene.ts]  : the session controller ([useDocumentScene])
      with its camera signature, its scheduler callbacks, its change intake,
      its window-event handlers, and the 50 ms throttle in front of the
      intake with the unmount cleanup;
    - [use-dual-canvas.ts]     : the editor-to-viewer mirror ([useDualCanvas]),
      its load listeners and its viewer handler;
    - [use-document-unlock.ts] : the unlock gate ([useDocumentUnlock]);
    - [DocumentCanvas.tsx]     : the mount gate, the hand-over of the
      Excalidraw API, the pointer tracker and the effect that applies the
      [scene] prop;
    - [useFullscreen]          : the [fullscreenchange] listener;
    - [customer-persist.process.ts], [use-document-persist-events.ts],
      [useDocumentSelection] and the documents page: the debounced persist of
      the customer row and the guards of a switch of subject;
    - [shared/libs/api]        : [fetchCustomer] with its cache and its map of
      requests in flight.

    Hooks are stateful closures over React refs and state.  A hook instance is
    modelled as a record holding its props, its React state, its refs and the
    ambient [globalThis] flags it reads or writes; every callback and effect
    is a function from that record to that record.  Handlers that read the
    clock take the value of [Date.now()] as an argument: all reads made by one
    synchronous handler run return that one value.  Timeouts and animation
    frames are entries of a queue, each with what its callback closed over;
    that the browser runs one is an event that names its handle.

    What is left outside: the polling loop of the load effect (its two
    outcomes are events of their own), the refresh bursts and the listeners
    for scroll and resize of the canvas, the toast service and the backend
    (a save or a fetch is an effect that is recorded, its outcome an event),
    and the logging.  [startTransition] updates are taken as applied at
    once.  The session controller of the claims takes a change as it reaches
    the intake; [SceneThrottle] puts the throttle in front of it. *)

From Stdlib Require Import ZArith QArith Qround DecimalString.
From stdpp Require Import base option list strings gmap.

Local Open Scope string_scope.
Local Open Scope Z_scope.

(** ** JavaScript values used by the hooks *)

Module Js.

(** Identity of a JavaScript object (an array, a files record): two
    references are [===] exactly when they are the same identity. *)
Definition ObjRef := nat.

(** An array as a callee sees it: which object it is and how many entries it
    holds at the time of the call. *)
Record JsArray := { arr_ref : ObjRef; arr_length : nat }.

(** A finite JavaScript number.  The hooks only multiply by 1000 and round,
    which is modelled over exact rationals. *)
Definition number := Q.

(** [Math.round]: the nearest integer, ties towards positive infinity. *)
Definition Math_round (x : number) : Z := Qfloor (x + (1 # 2))%Q.

(** [x ?? d] for an optional number. *)
Definition nullish (x : option number) (d : number) : number :=
  match x with Some v => v | None => d end.

(** The double-quote character of JSON. *)
Definition dquote : string := String (Ascii.ascii_of_nat 34) EmptyString.

(** [JSON.stringify] of an integer-valued number. *)
Definition show_int (n : Z) : string := NilZero.string_of_int (Z.to_int n).

Definition digit (d : Z) : string := show_int (d mod 10).

(** [JSON.stringify] of the number [n / 1000]: the integer part, then the
    thousandths without trailing zeros. *)
Definition show_thousandths (n : Z) : string :=
  let a := Z.abs n in
  let frac := a mod 1000 in
  let d1 := frac / 100 in
  let d2 := (frac / 10) mod 10 in
  let d3 := frac mod 10 in
  let decimals :=
    if negb (d3 =? 0) then "." +:+ digit d1 +:+ digit d2 +:+ digit d3
    else if negb (d2 =? 0) then "." +:+ digit d1 +:+ digit d2
    else if negb (d1 =? 0) then "." +:+ digit d1
    else "" in
  (if n <? 0 then "-" else "") +:+ show_int (a / 1000) +:+ decimals.

(** A value a data-grid cell can hold. *)
Inductive JsVal :=
| VUndefined
| VNull
| VBool (b : bool)
| VNumber (x : number)
| VString (s : string)
| VObject (o : ObjRef).

(** White space removed by [String.prototype.trim], for characters read as
    code points below 256: TAB, LF, VT, FF, CR, SPACE and NBSP. *)
Definition is_space (c : Ascii.ascii) : bool :=
  let n := Ascii.nat_of_ascii c in
  ((9 <=? n)%nat && (n <=? 13)%nat) || (n =? 32)%nat || (n =? 160)%nat.

Fixpoint trimStart (s : string) : string :=
  match s with
  | String c r => if is_space c then trimStart r else s
  | EmptyString => EmptyString
  end.

(** Drops the white space at the end: a character is kept when it is not a
    space or when something is kept after it. *)
Fixpoint trimEnd (s : string) : string :=
  match s with
  | String c r =>
      match trimEnd r with
      | EmptyString => if is_space c then EmptyString else String c EmptyString
      | r' => String c r'
      end
  | EmptyString => EmptyString
  end.

Definition trim (s : string) : string := trimEnd (trimStart s).

(** [s.startsWith(p)] *)
Definition startsWith (s p : string) : bool := String.prefix p s.

(** An Excalidraw [appState] as the hooks read it: [zoom] stands for
    [appState.zoom?.value], and [otherKeys] lists the own keys besides
    [zoom], [scrollX] and [scrollY]. *)
Record AppState := {
  zoom : option number;
  scrollX : option number;
  scrollY : option number;
  otherKeys : list string
}.

(** The literal [{}]. *)
Definition emptyAppState : AppState :=
  {| zoom := None; scrollX := None; scrollY := None; otherKeys := [] |}.

(** [Object.keys(a).length] *)
Definition keys_length (a : AppState) : nat :=
  (length (option_list (zoom a)) + length (option_list (scrollX a))
   + length (option_list (scrollY a)) + length (otherKeys a))%nat.

(** A value that is either an existing object or a literal ([[]] or [{}])
    allocated on the spot, which is identical to no other object. *)
Inductive Handle :=
| Literal
| Obj (r : ObjRef).

(** [o || literal] for a nullable reference. *)
Definition orLiteral (o : option ObjRef) : Handle :=
  match o with Some r => Obj r | None => Literal end.

(** Function application written in the order the statements run. *)
Notation "s |> f" := (f s) (at level 45, left associativity, only parsing).

End Js.
Import Js.

(** ** The autosave schedulers *)

Module Scheduler.

(** What a scheduler hands to the persist operation. *)
Record Payload := {
  p_elements : Handle;
  p_appState : AppState;
  p_files : Handle;
  p_viewerAppState : AppState;
  p_editorAppState : AppState
}.

(** Modelled from the spec: [createIdleAutosaveController] is imported from
    [@processes/documents], which is not part of the sources at hand.  An idle
    controller is bound to one subject and holds at most one pending payload
    together with its timer; [idle_flushLastSavedSig] is the [lastSavedSig]
    property the session controller writes on its [flushImmediate]. *)
Record IdleController := {
  idle_waId : string;
  idle_pending : option Payload;
  idle_flushLastSavedSig : option string
}.

(** Modelled from the spec: the value returned by
    [createIdleAutosaveController] for a subject, nothing pending. *)
Definition createIdleAutosaveController (waId : string) : IdleController :=
  {| idle_waId := waId; idle_pending := None; idle_flushLastSavedSig := None |}.

(** Modelled from the spec: [schedule(payload)] records the payload as
    pending and (re)starts the timer. *)
Definition schedule (p : Payload) (c : IdleController) : IdleController :=
  {| idle_waId := idle_waId c; idle_pending := Some p;
     idle_flushLastSavedSig := idle_flushLastSavedSig c |}.

(** Modelled from the spec: [cancel()] clears any pending timer without
    firing. *)
Definition cancel (c : IdleController) : IdleController :=
  {| idle_waId := idle_waId c; idle_pending := None;
     idle_flushLastSavedSig := idle_flushLastSavedSig c |}.

(** [ctl.flushImmediate.lastSavedSig = sig] *)
Definition setFlushLastSavedSig (sig : string) (c : IdleController) : IdleController :=
  {| idle_waId := idle_waId c; idle_pending := idle_pending c;
     idle_flushLastSavedSig := Some sig |}.

(** Modelled from the spec: [createIntervalAutosaveController] is not part
    of the sources at hand either.  A heartbeat controller is bound to one
    subject and is either ticking or halted. *)
Record IntervalController := {
  int_waId : string;
  int_running : bool
}.

(** Modelled from the spec: the value returned by
    [createIntervalAutosaveController] for a subject, halted until
    [start]. *)
Definition createIntervalAutosaveController (waId : string) : IntervalController :=
  {| int_waId := waId; int_running := false |}.

(** Modelled from the spec: [start(getters)] begins the interval. *)
Definition start (c : IntervalController) : IntervalController :=
  {| int_waId := int_waId c; int_running := true |}.

(** Modelled from the spec: [stop()] halts the interval and clears it. *)
Definition stop (c : IntervalController) : IntervalController :=
  {| int_waId := int_waId c; int_running := false |}.

(** Modelled from the spec: the three ways a controller comes to call the
    persist operation. *)
Inductive Trigger := IdleTimer | Heartbeat | FlushImmediate.

(** Modelled from the spec: one call of the persist operation by a
    controller bound to [pr_waId]. *)
Record PersistRequest := {
  pr_waId : string;
  pr_trigger : Trigger;
  pr_payload : Payload
}.

End Scheduler.
Import Scheduler.

(** ** The session controller: use-document-scene.ts *)

Module UseDocumentScene.

(** A scene: [elements], [appState] and [files], with the two cameras when
    the document carries them. *)
Record Scene := {
  elements : Handle;
  appState : AppState;
  files : Handle;
  viewerAppState : option AppState;
  editorAppState : option AppState
}.

(** The helpers imported from [@processes/documents] and
    [@shared/libs/documents], which are not part of the sources at hand, are
    parameters of the development. *)
Class Externals := {
  Doc : Type;
  DEFAULT_DOCUMENT_WA_ID : string;
  toSceneFromDoc : option Doc -> Scene;
  computeDocumentSignature : Handle -> AppState -> Handle -> string
}.

(** [UseDocumentSceneOptions] together with the [waId] argument. *)
Record Props := {
  waId : string;
  enabled : bool;
  isUnlocked : bool;
  autoLoadOnMount : bool
}.

Inductive SaveState :=
| Idle
| Dirty
| Saving
| Saved (at_ : Z)
| Error (message : option string).

(** The state of one hook instance: props, React state ([loading],
    [saveState]), refs (named as in the source), the three [globalThis]
    flags, the controllers created so far (a controller ref holds an index
    into them) and the persist calls the controllers have issued. *)
Record Hook := {
  props : Props;
  loading : bool;
  saveState : SaveState;
  apiReady : bool;
  lastSavedSigRef : option string;
  ignoreChangesUntilRef : Z;
  isSavingRef : bool;
  hasLocalEditsSinceSavingRef : bool;
  initialSceneAppliedRef : bool;
  latestElementsRef : option ObjRef;
  latestAppStateRef : option AppState;
  latestFilesRef : option ObjRef;
  latestSigRef : option string;
  lastScheduledSigRef : option string;
  idleControllerRef : option nat;
  intervalControllerRef : option nat;
  lastLoadedWaIdRef : option string;
  viewerAppStateRef : AppState;
  lastSavedViewerSigRef : option string;
  editorAppStateRef : AppState;
  lastSavedEditorSigRef : option string;
  isDirtyRef : bool;
  docIsSaving : option bool;
  docHasLocalEditsDuringSave : option bool;
  docIgnoreChangesUntil : option Z;
  idleControllers : list IdleController;
  intervalControllers : list IntervalController;
  persistLog : list PersistRequest
}.

Definition set_props (v : Props) (s : Hook) : Hook :=
  Build_Hook v (loading s) (saveState s) (apiReady s) (lastSavedSigRef s)
    (ignoreChangesUntilRef s) (isSavingRef s)
    (hasLocalEditsSinceSavingRef s) (initialSceneAppliedRef s)
    (latestElementsRef s) (latestAppStateRef s) (latestFilesRef s)
    (latestSigRef s) (lastScheduledSigRef s) (idleControllerRef s)
    (intervalControllerRef s) (lastLoadedWaIdRef s) (viewerAppStateRef s)
    (lastSavedViewerSigRef s) (editorAppStateRef s)
    (lastSavedEditorSigRef s) (isDirtyRef s) (docIsSaving s)
    (docHasLocalEditsDuringSave s) (docIgnoreChangesUntil s)
    (idleControllers s) (intervalControllers s) (persistLog s).

Definition set_loading (v : bool) (s : Hook) : Hook :=
  Build_Hook (props s) v (saveState s) (apiReady s) (lastSavedSigRef s)
    (ignoreChangesUntilRef s) (isSavingRef s)
    (hasLocalEditsSinceSavingRef s) (initialSceneAppliedRef s)
    (latestElementsRef s) (latestAppStateRef s) (latestFilesRef s)
    (latestSigRef s) (lastScheduledSigRef s) (idleControllerRef s)
    (intervalControllerRef s) (lastLoadedWaIdRef s) (viewerAppStateRef s)
    (lastSavedViewerSigRef s) (editorAppStateRef s)
    (lastSavedEditorSigRef s) (isDirtyRef s) (docIsSaving s)
    (docHasLocalEditsDuringSave s) (docIgnoreChangesUntil s)
    (idleControllers s) (intervalControllers s) (persistLog s).

Definition set_saveState (v : SaveState) (s : Hook) : Hook :=
  Build_Hook (props s) (loading s) v (apiReady s) (lastSavedSigRef s)
    (ignoreChangesUntilRef s) (isSavingRef s)
    (hasLocalEditsSinceSavingRef s) (initialSceneAppliedRef s)
    (latestElementsRef s) (latestAppStateRef s) (latestFilesRef s)
    (latestSigRef s) (lastScheduledSigRef s) (idleControllerRef s)
    (intervalControllerRef s) (lastLoadedWaIdRef s) (viewerAppStateRef s)
    (lastSavedViewerSigRef s) (editorAppStateRef s)
    (lastSavedEditorSigRef s) (isDirtyRef s) (docIsSaving s)
    (docHasLocalEditsDuringSave s) (docIgnoreChangesUntil s)
    (idleControllers s) (intervalControllers s) (persistLog s).

Definition set_apiReady (v : bool) (s : Hook) : Hook :=
  Build_Hook (props s) (loading s) (saveState s) v (lastSavedSigRef s)
    (ignoreChangesUntilRef s) (isSavingRef s)
    (hasLocalEditsSinceSavingRef s) (initialSceneAppliedRef s)
    (latestElementsRef s) (latestAppStateRef s) (latestFilesRef s)
    (latestSigRef s) (lastScheduledSigRef s) (idleControllerRef s)
    (intervalControllerRef s) (lastLoadedWaIdRef s) (viewerAppStateRef s)
    (lastSavedViewerSigRef s) (editorAppStateRef s)
    (lastSavedEditorSigRef s) (isDirtyRef s) (docIsSaving s)
    (docHasLocalEditsDuringSave s) (docIgnoreChangesUntil s)
    (idleControllers s) (intervalControllers s) (persistLog s).

Definition set_lastSavedSigRef (v : option string) (s : Hook) : Hook :=
  Build_Hook (props s) (loading s) (saveState s) (apiReady s) v
    (ignoreChangesUntilRef s) (isSavingRef s)
    (hasLocalEditsSinceSavingRef s) (initialSceneAppliedRef s)
    (latestElementsRef s) (latestAppStateRef s) (latestFilesRef s)
    (latestSigRef s) (lastScheduledSigRef s) (idleControllerRef s)
    (intervalControllerRef s) (lastLoadedWaIdRef s) (viewerAppStateRef s)
    (lastSavedViewerSigRef s) (editorAppStateRef s)
    (lastSavedEditorSigRef s) (isDirtyRef s) (docIsSaving s)
    (docHasLocalEditsDuringSave s) (docIgnoreChangesUntil s)
    (idleControllers s) (intervalControllers s) (persistLog s).

Definition set_ignoreChangesUntilRef (v : Z) (s : Hook) : Hook :=
  Build_Hook (props s) (loading s) (saveState s) (apiReady s)
    (lastSavedSigRef s) v (isSavingRef s) (hasLocalEditsSinceSavingRef s)
    (initialSceneAppliedRef s) (latestElementsRef s) (latestAppStateRef s)
    (latestFilesRef s) (latestSigRef s) (lastScheduledSigRef s)
    (idleControllerRef s) (intervalControllerRef s) (lastLoadedWaIdRef s)
    (viewerAppStateRef s) (lastSavedViewerSigRef s) (editorAppStateRef s)
    (lastSavedEditorSigRef s) (isDirtyRef s) (docIsSaving s)
    (docHasLocalEditsDuringSave s) (docIgnoreChangesUntil s)
    (idleControllers s) (intervalControllers s) (persistLog s).

Definition set_isSavingRef (v : bool) (s : Hook) : Hook :=
  Build_Hook (props s) (loading s) (saveState s) (apiReady s)
    (lastSavedSigRef s) (ignoreChangesUntilRef s) v
    (hasLocalEditsSinceSavingRef s) (initialSceneAppliedRef s)
    (latestElementsRef s) (latestAppStateRef s) (latestFilesRef s)
    (latestSigRef s) (lastScheduledSigRef s) (idleControllerRef s)
    (intervalControllerRef s) (lastLoadedWaIdRef s) (viewerAppStateRef s)
    (lastSavedViewerSigRef s) (editorAppStateRef s)
    (lastSavedEditorSigRef s) (isDirtyRef s) (docIsSaving s)
    (docHasLocalEditsDuringSave s) (docIgnoreChangesUntil s)
    (idleControllers s) (intervalControllers s) (persistLog s).

Definition set_hasLocalEditsSinceSavingRef (v : bool) (s : Hook) : Hook :=
  Build_Hook (props s) (loading s) (saveState s) (apiReady s)
    (lastSavedSigRef s) (ignoreChangesUntilRef s) (isSavingRef s) v
    (initialSceneAppliedRef s) (latestElementsRef s) (latestAppStateRef s)
    (latestFilesRef s) (latestSigRef s) (lastScheduledSigRef s)
    (idleControllerRef s) (intervalControllerRef s) (lastLoadedWaIdRef s)
    (viewerAppStateRef s) (lastSavedViewerSigRef s) (editorAppStateRef s)
    (lastSavedEditorSigRef s) (isDirtyRef s) (docIsSaving s)
    (docHasLocalEditsDuringSave s) (docIgnoreChangesUntil s)
    (idleControllers s) (intervalControllers s) (persistLog s).

Definition set_initialSceneAppliedRef (v : bool) (s : Hook) : Hook :=
  Build_Hook (props s) (loading s) (saveState s) (apiReady s)
    (lastSavedSigRef s) (ignoreChangesUntilRef s) (isSavingRef s)
    (hasLocalEditsSinceSavingRef s) v (latestElementsRef s)
    (latestAppStateRef s) (latestFilesRef s) (latestSigRef s)
    (lastScheduledSigRef s) (idleControllerRef s) (intervalControllerRef s)
    (lastLoadedWaIdRef s) (viewerAppStateRef s) (lastSavedViewerSigRef s)
    (editorAppStateRef s) (lastSavedEditorSigRef s) (isDirtyRef s)
    (docIsSaving s) (docHasLocalEditsDuringSave s)
    (docIgnoreChangesUntil s) (idleControllers s) (intervalControllers s)
    (persistLog s).

Definition set_latestElementsRef (v : option ObjRef) (s : Hook) : Hook :=
  Build_Hook (props s) (loading s) (saveState s) (apiReady s)
    (lastSavedSigRef s) (ignoreChangesUntilRef s) (isSavingRef s)
    (hasLocalEditsSinceSavingRef s) (initialSceneAppliedRef s) v
    (latestAppStateRef s) (latestFilesRef s) (latestSigRef s)
    (lastScheduledSigRef s) (idleControllerRef s) (intervalControllerRef s)
    (lastLoadedWaIdRef s) (viewerAppStateRef s) (lastSavedViewerSigRef s)
    (editorAppStateRef s) (lastSavedEditorSigRef s) (isDirtyRef s)
    (docIsSaving s) (docHasLocalEditsDuringSave s)
    (docIgnoreChangesUntil s) (idleControllers s) (intervalControllers s)
    (persistLog s).

Definition set_latestAppStateRef (v : option AppState) (s : Hook) : Hook :=
  Build_Hook (props s) (loading s) (saveState s) (apiReady s)
    (lastSavedSigRef s) (ignoreChangesUntilRef s) (isSavingRef s)
    (hasLocalEditsSinceSavingRef s) (initialSceneAppliedRef s)
    (latestElementsRef s) v (latestFilesRef s) (latestSigRef s)
    (lastScheduledSigRef s) (idleControllerRef s) (intervalControllerRef s)
    (lastLoadedWaIdRef s) (viewerAppStateRef s) (lastSavedViewerSigRef s)
    (editorAppStateRef s) (lastSavedEditorSigRef s) (isDirtyRef s)
    (docIsSaving s) (docHasLocalEditsDuringSave s)
    (docIgnoreChangesUntil s) (idleControllers s) (intervalControllers s)
    (persistLog s).

Definition set_latestFilesRef (v : option ObjRef) (s : Hook) : Hook :=
  Build_Hook (props s) (loading s) (saveState s) (apiReady s)
    (lastSavedSigRef s) (ignoreChangesUntilRef s) (isSavingRef s)
    (hasLocalEditsSinceSavingRef s) (initialSceneAppliedRef s)
    (latestElementsRef s) (latestAppStateRef s) v (latestSigRef s)
    (lastScheduledSigRef s) (idleControllerRef s) (intervalControllerRef s)
    (lastLoadedWaIdRef s) (viewerAppStateRef s) (lastSavedViewerSigRef s)
    (editorAppStateRef s) (lastSavedEditorSigRef s) (isDirtyRef s)
    (docIsSaving s) (docHasLocalEditsDuringSave s)
    (docIgnoreChangesUntil s) (idleControllers s) (intervalControllers s)
    (persistLog s).

Definition set_latestSigRef (v : option string) (s : Hook) : Hook :=
  Build_Hook (props s) (loading s) (saveState s) (apiReady s)
    (lastSavedSigRef s) (ignoreChangesUntilRef s) (isSavingRef s)
    (hasLocalEditsSinceSavingRef s) (initialSceneAppliedRef s)
    (latestElementsRef s) (latestAppStateRef s) (latestFilesRef s) v
    (lastScheduledSigRef s) (idleControllerRef s) (intervalControllerRef s)
    (lastLoadedWaIdRef s) (viewerAppStateRef s) (lastSavedViewerSigRef s)
    (editorAppStateRef s) (lastSavedEditorSigRef s) (isDirtyRef s)
    (docIsSaving s) (docHasLocalEditsDuringSave s)
    (docIgnoreChangesUntil s) (idleControllers s) (intervalControllers s)
    (persistLog s).

Definition set_lastScheduledSigRef (v : option string) (s : Hook) : Hook :=
  Build_Hook (props s) (loading s) (saveState s) (apiReady s)
    (lastSavedSigRef s) (ignoreChangesUntilRef s) (isSavingRef s)
    (hasLocalEditsSinceSavingRef s) (initialSceneAppliedRef s)
    (latestElementsRef s) (latestAppStateRef s) (latestFilesRef s)
    (latestSigRef s) v (idleControllerRef s) (intervalControllerRef s)
    (lastLoadedWaIdRef s) (viewerAppStateRef s) (lastSavedViewerSigRef s)
    (editorAppStateRef s) (lastSavedEditorSigRef s) (isDirtyRef s)
    (docIsSaving s) (docHasLocalEditsDuringSave s)
    (docIgnoreChangesUntil s) (idleControllers s) (intervalControllers s)
    (persistLog s).

Definition set_idleControllerRef (v : option nat) (s : Hook) : Hook :=
  Build_Hook (props s) (loading s) (saveState s) (apiReady s)
    (lastSavedSigRef s) (ignoreChangesUntilRef s) (isSavingRef s)
    (hasLocalEditsSinceSavingRef s) (initialSceneAppliedRef s)
    (latestElementsRef s) (latestAppStateRef s) (latestFilesRef s)
    (latestSigRef s) (lastScheduledSigRef s) v (intervalControllerRef s)
    (lastLoadedWaIdRef s) (viewerAppStateRef s) (lastSavedViewerSigRef s)
    (editorAppStateRef s) (lastSavedEditorSigRef s) (isDirtyRef s)
    (docIsSaving s) (docHasLocalEditsDuringSave s)
    (docIgnoreChangesUntil s) (idleControllers s) (intervalControllers s)
    (persistLog s).

Definition set_intervalControllerRef (v : option nat) (s : Hook) : Hook :=
  Build_Hook (props s) (loading s) (saveState s) (apiReady s)
    (lastSavedSigRef s) (ignoreChangesUntilRef s) (isSavingRef s)
    (hasLocalEditsSinceSavingRef s) (initialSceneAppliedRef s)
    (latestElementsRef s) (latestAppStateRef s) (latestFilesRef s)
    (latestSigRef s) (lastScheduledSigRef s) (idleControllerRef s) v
    (lastLoadedWaIdRef s) (viewerAppStateRef s) (lastSavedViewerSigRef s)
    (editorAppStateRef s) (lastSavedEditorSigRef s) (isDirtyRef s)
    (docIsSaving s) (docHasLocalEditsDuringSave s)
    (docIgnoreChangesUntil s) (idleControllers s) (intervalControllers s)
    (persistLog s).

Definition set_lastLoadedWaIdRef (v : option string) (s : Hook) : Hook :=
  Build_Hook (props s) (loading s) (saveState s) (apiReady s)
    (lastSavedSigRef s) (ignoreChangesUntilRef s) (isSavingRef s)
    (hasLocalEditsSinceSavingRef s) (initialSceneAppliedRef s)
    (latestElementsRef s) (latestAppStateRef s) (latestFilesRef s)
    (latestSigRef s) (lastScheduledSigRef s) (idleControllerRef s)
    (intervalControllerRef s) v (viewerAppStateRef s)
    (lastSavedViewerSigRef s) (editorAppStateRef s)
    (lastSavedEditorSigRef s) (isDirtyRef s) (docIsSaving s)
    (docHasLocalEditsDuringSave s) (docIgnoreChangesUntil s)
    (idleControllers s) (intervalControllers s) (persistLog s).

Definition set_viewerAppStateRef (v : AppState) (s : Hook) : Hook :=
  Build_Hook (props s) (loading s) (saveState s) (apiReady s)
    (lastSavedSigRef s) (ignoreChangesUntilRef s) (isSavingRef s)
    (hasLocalEditsSinceSavingRef s) (initialSceneAppliedRef s)
    (latestElementsRef s) (latestAppStateRef s) (latestFilesRef s)
    (latestSigRef s) (lastScheduledSigRef s) (idleControllerRef s)
    (intervalControllerRef s) (lastLoadedWaIdRef s) v
    (lastSavedViewerSigRef s) (editorAppStateRef s)
    (lastSavedEditorSigRef s) (isDirtyRef s) (docIsSaving s)
    (docHasLocalEditsDuringSave s) (docIgnoreChangesUntil s)
    (idleControllers s) (intervalControllers s) (persistLog s).

Definition set_lastSavedViewerSigRef (v : option string) (s : Hook) : Hook :=
  Build_Hook (props s) (loading s) (saveState s) (apiReady s)
    (lastSavedSigRef s) (ignoreChangesUntilRef s) (isSavingRef s)
    (hasLocalEditsSinceSavingRef s) (initialSceneAppliedRef s)
    (latestElementsRef s) (latestAppStateRef s) (latestFilesRef s)
    (latestSigRef s) (lastScheduledSigRef s) (idleControllerRef s)
    (intervalControllerRef s) (lastLoadedWaIdRef s) (viewerAppStateRef s) v
    (editorAppStateRef s) (lastSavedEditorSigRef s) (isDirtyRef s)
    (docIsSaving s) (docHasLocalEditsDuringSave s)
    (docIgnoreChangesUntil s) (idleControllers s) (intervalControllers s)
    (persistLog s).

Definition set_editorAppStateRef (v : AppState) (s : Hook) : Hook :=
  Build_Hook (props s) (loading s) (saveState s) (apiReady s)
    (lastSavedSigRef s) (ignoreChangesUntilRef s) (isSavingRef s)
    (hasLocalEditsSinceSavingRef s) (initialSceneAppliedRef s)
    (latestElementsRef s) (latestAppStateRef s) (latestFilesRef s)
    (latestSigRef s) (lastScheduledSigRef s) (idleControllerRef s)
    (intervalControllerRef s) (lastLoadedWaIdRef s) (viewerAppStateRef s)
    (lastSavedViewerSigRef s) v (lastSavedEditorSigRef s) (isDirtyRef s)
    (docIsSaving s) (docHasLocalEditsDuringSave s)
    (docIgnoreChangesUntil s) (idleControllers s) (intervalControllers s)
    (persistLog s).

Definition set_lastSavedEditorSigRef (v : option string) (s : Hook) : Hook :=
  Build_Hook (props s) (loading s) (saveState s) (apiReady s)
    (lastSavedSigRef s) (ignoreChangesUntilRef s) (isSavingRef s)
    (hasLocalEditsSinceSavingRef s) (initialSceneAppliedRef s)
    (latestElementsRef s) (latestAppStateRef s) (latestFilesRef s)
    (latestSigRef s) (lastScheduledSigRef s) (idleControllerRef s)
    (intervalControllerRef s) (lastLoadedWaIdRef s) (viewerAppStateRef s)
    (lastSavedViewerSigRef s) (editorAppStateRef s) v (isDirtyRef s)
    (docIsSaving s) (docHasLocalEditsDuringSave s)
    (docIgnoreChangesUntil s) (idleControllers s) (intervalControllers s)
    (persistLog s).

Definition set_isDirtyRef (v : bool) (s : Hook) : Hook :=
  Build_Hook (props s) (loading s) (saveState s) (apiReady s)
    (lastSavedSigRef s) (ignoreChangesUntilRef s) (isSavingRef s)
    (hasLocalEditsSinceSavingRef s) (initialSceneAppliedRef s)
    (latestElementsRef s) (latestAppStateRef s) (latestFilesRef s)
    (latestSigRef s) (lastScheduledSigRef s) (idleControllerRef s)
    (intervalControllerRef s) (lastLoadedWaIdRef s) (viewerAppStateRef s)
    (lastSavedViewerSigRef s) (editorAppStateRef s)
    (lastSavedEditorSigRef s) v (docIsSaving s)
    (docHasLocalEditsDuringSave s) (docIgnoreChangesUntil s)
    (idleControllers s) (intervalControllers s) (persistLog s).

Definition set_docIsSaving (v : option bool) (s : Hook) : Hook :=
  Build_Hook (props s) (loading s) (saveState s) (apiReady s)
    (lastSavedSigRef s) (ignoreChangesUntilRef s) (isSavingRef s)
    (hasLocalEditsSinceSavingRef s) (initialSceneAppliedRef s)
    (latestElementsRef s) (latestAppStateRef s) (latestFilesRef s)
    (latestSigRef s) (lastScheduledSigRef s) (idleControllerRef s)
    (intervalControllerRef s) (lastLoadedWaIdRef s) (viewerAppStateRef s)
    (lastSavedViewerSigRef s) (editorAppStateRef s)
    (lastSavedEditorSigRef s) (isDirtyRef s) v
    (docHasLocalEditsDuringSave s) (docIgnoreChangesUntil s)
    (idleControllers s) (intervalControllers s) (persistLog s).

Definition set_docHasLocalEditsDuringSave (v : option bool) (s : Hook) : Hook :=
  Build_Hook (props s) (loading s) (saveState s) (apiReady s)
    (lastSavedSigRef s) (ignoreChangesUntilRef s) (isSavingRef s)
    (hasLocalEditsSinceSavingRef s) (initialSceneAppliedRef s)
    (latestElementsRef s) (latestAppStateRef s) (latestFilesRef s)
    (latestSigRef s) (lastScheduledSigRef s) (idleControllerRef s)
    (intervalControllerRef s) (lastLoadedWaIdRef s) (viewerAppStateRef s)
    (lastSavedViewerSigRef s) (editorAppStateRef s)
    (lastSavedEditorSigRef s) (isDirtyRef s) (docIsSaving s) v
    (docIgnoreChangesUntil s) (idleControllers s) (intervalControllers s)
    (persistLog s).

Definition set_docIgnoreChangesUntil (v : option Z) (s : Hook) : Hook :=
  Build_Hook (props s) (loading s) (saveState s) (apiReady s)
    (lastSavedSigRef s) (ignoreChangesUntilRef s) (isSavingRef s)
    (hasLocalEditsSinceSavingRef s) (initialSceneAppliedRef s)
    (latestElementsRef s) (latestAppStateRef s) (latestFilesRef s)
    (latestSigRef s) (lastScheduledSigRef s) (idleControllerRef s)
    (intervalControllerRef s) (lastLoadedWaIdRef s) (viewerAppStateRef s)
    (lastSavedViewerSigRef s) (editorAppStateRef s)
    (lastSavedEditorSigRef s) (isDirtyRef s) (docIsSaving s)
    (docHasLocalEditsDuringSave s) v (idleControllers s)
    (intervalControllers s) (persistLog s).

Definition set_idleControllers (v : list IdleController) (s : Hook) : Hook :=
  Build_Hook (props s) (loading s) (saveState s) (apiReady s)
    (lastSavedSigRef s) (ignoreChangesUntilRef s) (isSavingRef s)
    (hasLocalEditsSinceSavingRef s) (initialSceneAppliedRef s)
    (latestElementsRef s) (latestAppStateRef s) (latestFilesRef s)
    (latestSigRef s) (lastScheduledSigRef s) (idleControllerRef s)
    (intervalControllerRef s) (lastLoadedWaIdRef s) (viewerAppStateRef s)
    (lastSavedViewerSigRef s) (editorAppStateRef s)
    (lastSavedEditorSigRef s) (isDirtyRef s) (docIsSaving s)
    (docHasLocalEditsDuringSave s) (docIgnoreChangesUntil s) v
    (intervalControllers s) (persistLog s).

Definition set_intervalControllers (v : list IntervalController) (s : Hook) : Hook :=
  Build_Hook (props s) (loading s) (saveState s) (apiReady s)
    (lastSavedSigRef s) (ignoreChangesUntilRef s) (isSavingRef s)
    (hasLocalEditsSinceSavingRef s) (initialSceneAppliedRef s)
    (latestElementsRef s) (latestAppStateRef s) (latestFilesRef s)
    (latestSigRef s) (lastScheduledSigRef s) (idleControllerRef s)
    (intervalControllerRef s) (lastLoadedWaIdRef s) (viewerAppStateRef s)
    (lastSavedViewerSigRef s) (editorAppStateRef s)
    (lastSavedEditorSigRef s) (isDirtyRef s) (docIsSaving s)
    (docHasLocalEditsDuringSave s) (docIgnoreChangesUntil s)
    (idleControllers s) v (persistLog s).

Definition set_persistLog (v : list PersistRequest) (s : Hook) : Hook :=
  Build_Hook (props s) (loading s) (saveState s) (apiReady s)
    (lastSavedSigRef s) (ignoreChangesUntilRef s) (isSavingRef s)
    (hasLocalEditsSinceSavingRef s) (initialSceneAppliedRef s)
    (latestElementsRef s) (latestAppStateRef s) (latestFilesRef s)
    (latestSigRef s) (lastScheduledSigRef s) (idleControllerRef s)
    (intervalControllerRef s) (lastLoadedWaIdRef s) (viewerAppStateRef s)
    (lastSavedViewerSigRef s) (editorAppStateRef s)
    (lastSavedEditorSigRef s) (isDirtyRef s) (docIsSaving s)
    (docHasLocalEditsDuringSave s) (docIgnoreChangesUntil s)
    (idleControllers s) (intervalControllers s) v.

(** The refs and state of a freshly created hook instance, before any effect
    has run. *)
Definition initialHook (p : Props) : Hook :=
  {| props := p; loading := false; saveState := Idle; apiReady := false;
     lastSavedSigRef := None; ignoreChangesUntilRef := 0;
     isSavingRef := false; hasLocalEditsSinceSavingRef := false;
     initialSceneAppliedRef := false; latestElementsRef := None;
     latestAppStateRef := None; latestFilesRef := None; latestSigRef := None;
     lastScheduledSigRef := None; idleControllerRef := None;
     intervalControllerRef := None; lastLoadedWaIdRef := None;
     viewerAppStateRef := emptyAppState; lastSavedViewerSigRef := None;
     editorAppStateRef := emptyAppState; lastSavedEditorSigRef := None;
     isDirtyRef := false; docIsSaving := None;
     docHasLocalEditsDuringSave := None; docIgnoreChangesUntil := None;
     idleControllers := []; intervalControllers := []; persistLog := [] |}.

(** [computeViewerCameraSig]: the JSON text of the camera with the zoom
    rounded to three decimals and the scroll offsets to whole pixels.  The
    [catch] branch of the source is unreachable on an [AppState]. *)
Definition computeViewerCameraSig (viewerState : AppState) : string :=
  let zoomValue := nullish (zoom viewerState) 1%Q in
  let scrollX := nullish (scrollX viewerState) 0%Q in
  let scrollY := nullish (scrollY viewerState) 0%Q in
  "{" +:+ dquote +:+ "zoom" +:+ dquote +:+ ":"
      +:+ show_thousandths (Math_round (zoomValue * 1000)%Q)
  +:+ "," +:+ dquote +:+ "scrollX" +:+ dquote +:+ ":"
      +:+ show_int (Math_round scrollX)
  +:+ "," +:+ dquote +:+ "scrollY" +:+ dquote +:+ ":"
      +:+ show_int (Math_round scrollY)
  +:+ "}".

(** *** Calls on the controller refs *)

(** [idleControllerRef.current?.schedule(payload)] *)
Definition idle_schedule (p : Payload) (s : Hook) : Hook :=
  match idleControllerRef s with
  | Some i => set_idleControllers (alter (schedule p) i (idleControllers s)) s
  | None => s
  end.

(** [idleControllerRef.current?.cancel()] *)
Definition idle_cancel (s : Hook) : Hook :=
  match idleControllerRef s with
  | Some i => set_idleControllers (alter cancel i (idleControllers s)) s
  | None => s
  end.

(** [intervalControllerRef.current?.stop()] *)
Definition interval_stop (s : Hook) : Hook :=
  match intervalControllerRef s with
  | Some i => set_intervalControllers (alter stop i (intervalControllers s)) s
  | None => s
  end.

(** [ctl.start({ getElements, getAppState, getFiles })] on the current
    heartbeat controller. *)
Definition interval_start (s : Hook) : Hook :=
  match intervalControllerRef s with
  | Some i => set_intervalControllers (alter start i (intervalControllers s)) s
  | None => s
  end.

Definition issue (r : PersistRequest) (s : Hook) : Hook :=
  set_persistLog (persistLog s ++ [r]) s.

(** *** Scheduler callbacks *)

(** [onSaving] of the idle controller. *)
Definition idle_onSaving (s : Hook) : Hook :=
  s |> set_isSavingRef true
    |> set_hasLocalEditsSinceSavingRef false
    |> set_docIsSaving (Some true)
    |> set_docHasLocalEditsDuringSave (Some false)
    |> set_saveState Saving.

(** [onSaving] of the heartbeat controller. *)
Definition interval_onSaving (s : Hook) : Hook :=
  s |> set_isSavingRef true
    |> set_hasLocalEditsSinceSavingRef false
    |> set_docIsSaving (Some true)
    |> set_docHasLocalEditsDuringSave (Some false)
    |> set_saveState Saving.

(** The tail shared by both [onSaved] callbacks: the status is [dirty] when
    local edits were recorded during the save and [saved] otherwise. *)
Definition resolveSaved (now : Z) (s : Hook) : Hook :=
  if hasLocalEditsSinceSavingRef s then
    s |> set_isDirtyRef true |> set_saveState Dirty
  else
    s |> set_isDirtyRef false
      |> set_saveState (Saved now)
      |> set_ignoreChangesUntilRef (now + 800).

(** [onError] of the idle controller. *)
Definition idle_onError (message : option string) (s : Hook) : Hook :=
  s |> set_isSavingRef false
    |> set_lastScheduledSigRef None
    |> set_docIsSaving (Some false)
    |> set_saveState (Error message).

(** [onError] of the heartbeat controller. *)
Definition interval_onError (message : option string) (s : Hook) : Hook :=
  s |> set_isSavingRef false
    |> set_lastScheduledSigRef None
    |> set_docIsSaving (Some false)
    |> set_saveState (Error message).

(** [onSaved] of the heartbeat controller. *)
Definition interval_onSaved (now : Z) (s : Hook) : Hook :=
  s |> set_isSavingRef false
    |> set_docIsSaving (Some false)
    |> set_lastScheduledSigRef None
    |> resolveSaved now.

Section WithExternals.
Context `{ext : Externals}.

(** [onSaved] of the idle controller, called with the saved scene. *)
Definition idle_onSaved (scene : Scene) (now : Z) (s : Hook) : Hook :=
  let sig := computeDocumentSignature (elements scene) (appState scene) (files scene) in
  let s := if bool_decide (sig = "") then s else set_lastSavedSigRef (Some sig) s in
  let viewerState := default emptyAppState (viewerAppState scene) in
  let s :=
    if (0 <? keys_length viewerState)%nat
    then set_lastSavedViewerSigRef (Some (computeViewerCameraSig viewerState)) s
    else s in
  let editorState := default emptyAppState (editorAppState scene) in
  let s :=
    if (0 <? keys_length editorState)%nat
    then set_lastSavedEditorSigRef (Some (computeViewerCameraSig editorState)) s
    else s in
  s |> set_isSavingRef false
    |> set_docIsSaving (Some false)
    |> set_lastScheduledSigRef None
    |> resolveSaved now.

(** *** Change intake: [handleCanvasChangeInternal] *)

(** The global guard: [globalIgnoreUntil && Date.now() < globalIgnoreUntil]. *)
Definition globalSuppressed (now : Z) (s : Hook) : bool :=
  match docIgnoreChangesUntil s with
  | Some g => negb (g =? 0) && (now <? g)
  | None => false
  end.

(** None of the early returns of the intake is taken. *)
Definition intakeOpen (now : Z) (s : Hook) : bool :=
  enabled (props s)
  && negb (bool_decide (waId (props s) = ""))
  && isUnlocked (props s)
  && initialSceneAppliedRef s
  && negb (now <? ignoreChangesUntilRef s)
  && negb (globalSuppressed now s).

Definition viewerCameraChanged (viewerAppState : option AppState) (s : Hook) : bool :=
  match viewerAppState with
  | Some v => negb (bool_decide (Some (computeViewerCameraSig v) = lastSavedViewerSigRef s))
  | None => false
  end.

Definition editorCameraChanged (editorAppState : option AppState) (s : Hook) : bool :=
  match editorAppState with
  | Some e => negb (bool_decide (Some (computeViewerCameraSig e) = lastSavedEditorSigRef s))
  | None => false
  end.

(** Content changed: another [elements] object, or another [files] object.
    When [elements] is the object already held by [latestElementsRef], the
    source compares the two lengths, both of which it reads from that one
    object. *)
Definition contentChanged (elements : JsArray) (files : ObjRef) (s : Hook) : bool :=
  let byElements :=
    if bool_decide (Some (arr_ref elements) = latestElementsRef s) then
      let prevLen := arr_length elements in
      let currLen := arr_length elements in
      negb (prevLen =? currLen)%nat
    else true in
  byElements || negb (bool_decide (Some files = latestFilesRef s)).

(** The intake once none of its early returns is taken: classification,
    bookkeeping of the latest snapshot, status and scheduling. *)
Definition intakeBody
    (elements : JsArray) (appState : AppState) (files : ObjRef)
    (viewerAppState editorAppState : option AppState) (s : Hook) : Hook :=
  let viewerChanged := viewerCameraChanged viewerAppState s in
  let editorChanged := editorCameraChanged editorAppState s in
  let content := contentChanged elements files s in
  let s := match viewerAppState with
           | Some v => if viewerChanged then set_viewerAppStateRef v s else s
           | None => s
           end in
  let s := match editorAppState with
           | Some e => if editorChanged then set_editorAppStateRef e s else s
           | None => s
           end in
  let hasChangesForStatus := content || editorChanged in
  let hasAnyChanges := content || viewerChanged || editorChanged in
  let s := s |> set_latestElementsRef (Some (arr_ref elements))
             |> set_latestAppStateRef (Some appState)
             |> set_latestFilesRef (Some files)
             |> set_latestSigRef None in
  let s := if isSavingRef s && (content || editorChanged)
           then s |> set_hasLocalEditsSinceSavingRef true
                  |> set_docHasLocalEditsDuringSave (Some true)
           else s in
  let s := if hasChangesForStatus && negb (isSavingRef s) && negb (isDirtyRef s)
           then s |> set_isDirtyRef true |> set_saveState Dirty
           else s in
  if hasAnyChanges then
    s |> set_lastScheduledSigRef None
      |> idle_schedule {| p_elements := Obj (arr_ref elements);
                          p_appState := appState;
                          p_files := Obj files;
                          p_viewerAppState := viewerAppStateRef s;
                          p_editorAppState := editorAppStateRef s |}
  else s.

Definition handleCanvasChangeInternal
    (elements : JsArray) (appState : AppState) (files : ObjRef)
    (viewerAppState editorAppState : option AppState) (now : Z) (s : Hook) : Hook :=
  if negb (enabled (props s)) || bool_decide (waId (props s) = "")
     || negb (isUnlocked (props s)) then s
  else if negb (initialSceneAppliedRef s) then s
  else if now <? ignoreChangesUntilRef s then s
  else if globalSuppressed now s then s
  else intakeBody elements appState files viewerAppState editorAppState s.

(** *** Effects *)

(** The synchronous part of the load effect (the body of [run] up to its
    first [await]). *)
Definition load_effect (s : Hook) : Hook :=
  if negb (enabled (props s)) then s
  else if negb (autoLoadOnMount (props s)) then s
  else if bool_decide (waId (props s) = "") then s
  else
    let s := s |> set_initialSceneAppliedRef false
               |> set_lastSavedViewerSigRef None
               |> set_viewerAppStateRef emptyAppState
               |> set_lastSavedEditorSigRef None
               |> set_editorAppStateRef emptyAppState in
    if bool_decide (waId (props s) = DEFAULT_DOCUMENT_WA_ID) then
      s |> set_loading false |> set_saveState Idle
    else if bool_decide (lastLoadedWaIdRef s = Some (waId (props s))) then s
    else s |> set_loading true |> set_saveState Idle.

(** The load effect after its polling loop: [requestDocumentLoad] has been
    called. *)
Definition load_requested (now : Z) (s : Hook) : Hook :=
  set_ignoreChangesUntilRef (now + 800) s.

(** The [catch] branch of the load effect, taken while not cancelled. *)
Definition load_failed (message : option string) (s : Hook) : Hook :=
  s |> set_saveState (Error message) |> set_loading false.

(** The effect keyed on [waId] that creates both controllers. *)
Definition controllers_effect (s : Hook) : Hook :=
  if bool_decide (waId (props s) = "") then s
  else
    s |> set_isDirtyRef false
      |> (fun s => s |> set_idleControllerRef (Some (length (idleControllers s)))
                     |> set_idleControllers
                          (idleControllers s ++ [createIdleAutosaveController (waId (props s))]))
      |> (fun s => s |> set_intervalControllerRef (Some (length (intervalControllers s)))
                     |> set_intervalControllers
                          (intervalControllers s
                             ++ [createIntervalAutosaveController (waId (props s))])).

(** Its cleanup, which exists when the effect ran with a non-empty [waId]. *)
Definition controllers_cleanup (s : Hook) : Hook :=
  if bool_decide (waId (props s) = "") then s
  else s |> idle_cancel |> interval_stop.

(** The heartbeat effect. *)
Definition heartbeat_effect (s : Hook) : Hook :=
  if negb (enabled (props s)) then s
  else if bool_decide (waId (props s) = "") then s
  else if negb (isUnlocked (props s)) then s
  else if negb (initialSceneAppliedRef s) then s
  else if negb (bool_decide (is_Some (intervalControllerRef s)) && apiReady s) then s
  else interval_start s.

(** Its cleanup: [ctl.stop()] on the controller the effect started, which
    is still the current one when cleanups run; when the effect started
    nothing that controller is halted already. *)
Definition heartbeat_cleanup (s : Hook) : Hook := interval_stop s.

(** React's effect pass for a render with props [p]: the effects whose
    dependencies changed run their cleanups, in source order, and then
    their bodies, in source order.  [waIdDep], [loadDeps] and
    [heartbeatDeps] tell whether the dependencies of the controllers effect,
    of the load effect and of the heartbeat effect changed. *)
Definition runEffects (waIdDep loadDeps heartbeatDeps : bool)
    (p : Props) (s : Hook) : Hook :=
  let s := if waIdDep then controllers_cleanup s else s in
  let s := if heartbeatDeps then heartbeat_cleanup s else s in
  let s := set_props p s in
  let s := if loadDeps then load_effect s else s in
  let s := if waIdDep then controllers_effect s else s in
  if heartbeatDeps then heartbeat_effect s else s.

(** A render with new props. *)
Definition render (p : Props) (s : Hook) : Hook :=
  let old := props s in
  let waIdDep := negb (bool_decide (waId old = waId p)) in
  let enabledDep := negb (Bool.eqb (enabled old) (enabled p)) in
  let loadDeps :=
    waIdDep || enabledDep
    || negb (Bool.eqb (autoLoadOnMount old) (autoLoadOnMount p)) in
  let heartbeatDeps :=
    waIdDep || enabledDep
    || negb (Bool.eqb (isUnlocked old) (isUnlocked p)) in
  runEffects waIdDep loadDeps heartbeatDeps p s.

(** The first render: every effect runs. *)
Definition mount (p : Props) : Hook :=
  initialHook p |> load_effect |> controllers_effect |> heartbeat_effect.

(** *** Window events *)

(** What the listener of [documents:sceneApplied] does for the bound
    subject. *)
Definition sceneAppliedBody (now : Z) (s : Hook) : Hook :=
  s |> set_initialSceneAppliedRef true
    |> set_ignoreChangesUntilRef (now + 400).

(** The listener of [documents:sceneApplied]; registered while [waId] is
    non-empty. *)
Definition onSceneApplied (wa_id : option string) (now : Z) (s : Hook) : Hook :=
  if bool_decide (waId (props s) = "") then s
  else if negb (bool_decide (default "" wa_id = waId (props s))) then s
  else sceneAppliedBody now s.

(** [ctl.flushImmediate.lastSavedSig = sig] on the current idle controller. *)
Definition idle_setFlushLastSavedSig (sig : string) (s : Hook) : Hook :=
  match idleControllerRef s with
  | Some i => set_idleControllers (alter (setFlushLastSavedSig sig) i (idleControllers s)) s
  | None => s
  end.

(** What the listener of [documents:external-update] does for the bound
    subject.  Its last statement dispatches [documents:sceneApplied] for the
    bound subject, which runs [onSceneApplied] of this same hook before
    [dispatchEvent] returns. *)
Definition externalUpdateBody (document : option Doc) (now : Z) (s : Hook) : Hook :=
  let s := set_lastLoadedWaIdRef (Some (waId (props s))) s in
  let scene := toSceneFromDoc document in
  let sig := computeDocumentSignature (elements scene) (appState scene) (files scene) in
  let s := set_lastSavedSigRef (Some sig) s in
  let s :=
    match viewerAppState scene with
    | Some v =>
        if (0 <? keys_length v)%nat
        then s |> set_lastSavedViewerSigRef (Some (computeViewerCameraSig v))
               |> set_viewerAppStateRef v
        else set_lastSavedViewerSigRef None s
    | None => set_lastSavedViewerSigRef None s
    end in
  let s :=
    match editorAppState scene with
    | Some e =>
        if (0 <? keys_length e)%nat
        then s |> set_lastSavedEditorSigRef (Some (computeViewerCameraSig e))
               |> set_editorAppStateRef e
        else set_lastSavedEditorSigRef None s
    | None => set_lastSavedEditorSigRef None s
    end in
  s |> set_docIsSaving (Some false)
    |> set_docHasLocalEditsDuringSave (Some false)
    |> idle_setFlushLastSavedSig sig
    |> set_saveState (Saved now)
    |> set_loading false
    |> set_ignoreChangesUntilRef (now + 1200)
    |> set_initialSceneAppliedRef true
    |> set_isDirtyRef false
    |> onSceneApplied (Some (waId (props s))) now.

(** The listener of [documents:external-update]; registered while [waId] is
    non-empty. *)
Definition onExternalUpdate
    (wa_id : option string) (document : option Doc) (now : Z) (s : Hook) : Hook :=
  if bool_decide (waId (props s) = "") then s
  else
    let target := default "" wa_id in
    if bool_decide (target = "") || negb (bool_decide (target = waId (props s))) then s
    else externalUpdateBody document now s.

(** *** Flushes *)

(** Modelled from the spec: [flushImmediate(payload)] of the current idle
    controller bypasses the timer and persists at once, unless a save is
    already in flight. *)
Definition idle_flushImmediate (p : Payload) (s : Hook) : Hook :=
  match idleControllerRef s with
  | Some i =>
      match idleControllers s !! i with
      | Some c =>
          if isSavingRef s then s
          else s |> idle_onSaving
                 |> issue {| pr_waId := idle_waId c; pr_trigger := FlushImmediate;
                             pr_payload := p |}
      | None => s
      end
  | None => s
  end.

(** What the Excalidraw API getters return when called. *)
Record Getters := {
  getSceneElementsIncludingDeleted : ObjRef;
  getAppState : AppState;
  getFiles : ObjRef
}.

(** The [flushNow] returned by the hook. *)
Definition flushNow (api : Getters) (s : Hook) : Hook :=
  if negb (enabled (props s)) || bool_decide (waId (props s) = "")
     || negb (isUnlocked (props s)) then s
  else if negb (initialSceneAppliedRef s) then s
  else
    let elements :=
      if apiReady s then Obj (getSceneElementsIncludingDeleted api)
      else orLiteral (latestElementsRef s) in
    let appState :=
      if apiReady s then getAppState api
      else default emptyAppState (latestAppStateRef s) in
    let files :=
      if apiReady s then Obj (getFiles api)
      else orLiteral (latestFilesRef s) in
    idle_flushImmediate
      {| p_elements := elements; p_appState := appState; p_files := files;
         p_viewerAppState := viewerAppStateRef s;
         p_editorAppState := editorAppStateRef s |} s.

(** The [flushNow] local to the effect that listens to [visibilitychange]
    and [pagehide]. *)
Definition flushNow_onHide (s : Hook) : Hook :=
  if negb (isUnlocked (props s)) then s
  else
    idle_flushImmediate
      {| p_elements := orLiteral (latestElementsRef s);
         p_appState := default emptyAppState (latestAppStateRef s);
         p_files := orLiteral (latestFilesRef s);
         p_viewerAppState := viewerAppStateRef s;
         p_editorAppState := editorAppStateRef s |} s.

(** [pagehide]; the listener is registered while the hook is enabled and
    [waId] is non-empty. *)
Definition onPageHide (s : Hook) : Hook :=
  if negb (enabled (props s)) || bool_decide (waId (props s) = "") then s
  else flushNow_onHide s.

(** [visibilitychange], with the value of [document.hidden]. *)
Definition onVisibility (hidden : bool) (s : Hook) : Hook :=
  if negb (enabled (props s)) || bool_decide (waId (props s) = "") then s
  else if hidden then flushNow_onHide s else s.

(** *** Timers of the schedulers *)

(** Modelled from the spec: the timer of idle controller [i] fires; with
    nothing pending this does nothing, otherwise [onSaving] runs and the
    pending payload is persisted once. *)
Definition idle_timer (i : nat) (s : Hook) : Hook :=
  match idleControllers s !! i with
  | Some c =>
      match idle_pending c with
      | Some p =>
          s |> set_idleControllers (alter cancel i (idleControllers s))
            |> idle_onSaving
            |> issue {| pr_waId := idle_waId c; pr_trigger := IdleTimer;
                        pr_payload := p |}
      | None => s
      end
  | None => s
  end.

(** Modelled from the spec: a tick of heartbeat controller [i]; while it is
    running, [onSaving] runs and the state pulled through the getters is
    handed to the persist operation. *)
Definition heartbeat_tick (i : nat) (api : Getters) (s : Hook) : Hook :=
  match intervalControllers s !! i with
  | Some c =>
      if int_running c then
        s |> interval_onSaving
          |> issue {| pr_waId := int_waId c; pr_trigger := Heartbeat;
                      pr_payload :=
                        {| p_elements := Obj (getSceneElementsIncludingDeleted api);
                           p_appState := getAppState api;
                           p_files := Obj (getFiles api);
                           p_viewerAppState := emptyAppState;
                           p_editorAppState := emptyAppState |} |}
      else s
  | None => s
  end.

(** *** Runs of the session controller *)

(** What can happen to a mounted hook instance. *)
Inductive Event :=
| EvRender (p : Props)
| EvExcalidrawAPI
| EvLoadRequested (now : Z)
| EvLoadFailed (message : option string)
| EvGlobalIgnore (until : Z)
| EvCanvasChange (elements : JsArray) (appState : AppState) (files : ObjRef)
    (viewerAppState editorAppState : option AppState) (now : Z)
| EvIdleTimer (i : nat)
| EvHeartbeat (i : nat) (api : Getters)
| EvIdleSaved (scene : Scene) (now : Z)
| EvIdleError (message : option string)
| EvIntervalSaved (now : Z)
| EvIntervalError (message : option string)
| EvExternalUpdate (wa_id : option string) (document : option Doc) (now : Z)
| EvSceneApplied (wa_id : option string) (now : Z)
| EvFlushNow (api : Getters)
| EvPageHide
| EvVisibilityChange (hidden : bool).

Definition step (e : Event) (s : Hook) : Hook :=
  match e with
  | EvRender p => render p s
  | EvExcalidrawAPI => set_apiReady true s
  | EvLoadRequested now => load_requested now s
  | EvLoadFailed message => load_failed message s
  | EvGlobalIgnore until => set_docIgnoreChangesUntil (Some until) s
  | EvCanvasChange elements appState files viewerAppState editorAppState now =>
      handleCanvasChangeInternal elements appState files viewerAppState editorAppState now s
  | EvIdleTimer i => idle_timer i s
  | EvHeartbeat i api => heartbeat_tick i api s
  | EvIdleSaved scene now => idle_onSaved scene now s
  | EvIdleError message => idle_onError message s
  | EvIntervalSaved now => interval_onSaved now s
  | EvIntervalError message => interval_onError message s
  | EvExternalUpdate wa_id document now => onExternalUpdate wa_id document now s
  | EvSceneApplied wa_id now => onSceneApplied wa_id now s
  | EvFlushNow api => flushNow api s
  | EvPageHide => onPageHide s
  | EvVisibilityChange hidden => onVisibility hidden s
  end.

Fixpoint run (evs : list Event) (s : Hook) : Hook :=
  match evs with
  | [] => s
  | e :: evs => run evs (step e s)
  end.

End WithExternals.

End UseDocumentScene.

(** ** The editor-to-viewer mirror: use-dual-canvas.ts *)

Module UseDualCanvas.

(** What a queued mirror update carries: the [elements] and [files] its
    closure captured. *)
Record FrameTask := {
  ft_elements : ObjRef;
  ft_files : ObjRef
}.

(** The argument of [viewerApiRef.current.updateScene]; every call passes
    [captureUpdate: "never"] besides. *)
Record UpdateSceneArgs := {
  u_elements : ObjRef;
  u_appState : option AppState;
  u_files : option ObjRef
}.

(** The argument of [setLiveScene]. *)
Record LiveScene := {
  ls_elements : ObjRef;
  ls_appState : AppState;
  ls_files : ObjRef
}.

(** One call of the session controller's [handleCanvasChange]. *)
Record IntakeCall := {
  ic_elements : ObjRef;
  ic_appState : AppState;
  ic_files : ObjRef;
  ic_viewerAppState : AppState;
  ic_editorAppState : AppState
}.

(** The refs of the mirror, the [__docPointerActive] global, the browser's
    queues of animation-frame callbacks and timeouts registered by the mirror
    (by handle), and the calls made on the viewer API and on the session
    controller. *)
Record Mirror := {
  viewerApiReady : bool;
  viewerCameraRef : AppState;
  lastLiveSceneUpdateRef : Z;
  pendingLiveSceneUpdateRef : option FrameTask;
  liveSceneRafRef : option nat;
  liveSceneTimeoutRef : option nat;
  lastEditorCameraRef : AppState;
  liveScene : option LiveScene;
  docPointerActive : option bool;
  frames : list (nat * FrameTask);
  timeouts : list nat;
  nextHandle : nat;
  viewerCalls : list UpdateSceneArgs;
  intakeCalls : list IntakeCall
}.

Definition set_viewerApiReady (v : bool) (m : Mirror) : Mirror :=
  Build_Mirror v (viewerCameraRef m) (lastLiveSceneUpdateRef m)
    (pendingLiveSceneUpdateRef m) (liveSceneRafRef m)
    (liveSceneTimeoutRef m) (lastEditorCameraRef m) (liveScene m)
    (docPointerActive m) (frames m) (timeouts m) (nextHandle m)
    (viewerCalls m) (intakeCalls m).

Definition set_viewerCameraRef (v : AppState) (m : Mirror) : Mirror :=
  Build_Mirror (viewerApiReady m) v (lastLiveSceneUpdateRef m)
    (pendingLiveSceneUpdateRef m) (liveSceneRafRef m)
    (liveSceneTimeoutRef m) (lastEditorCameraRef m) (liveScene m)
    (docPointerActive m) (frames m) (timeouts m) (nextHandle m)
    (viewerCalls m) (intakeCalls m).

Definition set_lastLiveSceneUpdateRef (v : Z) (m : Mirror) : Mirror :=
  Build_Mirror (viewerApiReady m) (viewerCameraRef m) v
    (pendingLiveSceneUpdateRef m) (liveSceneRafRef m)
    (liveSceneTimeoutRef m) (lastEditorCameraRef m) (liveScene m)
    (docPointerActive m) (frames m) (timeouts m) (nextHandle m)
    (viewerCalls m) (intakeCalls m).

Definition set_pendingLiveSceneUpdateRef (v : option FrameTask) (m : Mirror) : Mirror :=
  Build_Mirror (viewerApiReady m) (viewerCameraRef m)
    (lastLiveSceneUpdateRef m) v (liveSceneRafRef m)
    (liveSceneTimeoutRef m) (lastEditorCameraRef m) (liveScene m)
    (docPointerActive m) (frames m) (timeouts m) (nextHandle m)
    (viewerCalls m) (intakeCalls m).

Definition set_liveSceneRafRef (v : option nat) (m : Mirror) : Mirror :=
  Build_Mirror (viewerApiReady m) (viewerCameraRef m)
    (lastLiveSceneUpdateRef m) (pendingLiveSceneUpdateRef m) v
    (liveSceneTimeoutRef m) (lastEditorCameraRef m) (liveScene m)
    (docPointerActive m) (frames m) (timeouts m) (nextHandle m)
    (viewerCalls m) (intakeCalls m).

Definition set_liveSceneTimeoutRef (v : option nat) (m : Mirror) : Mirror :=
  Build_Mirror (viewerApiReady m) (viewerCameraRef m)
    (lastLiveSceneUpdateRef m) (pendingLiveSceneUpdateRef m)
    (liveSceneRafRef m) v (lastEditorCameraRef m) (liveScene m)
    (docPointerActive m) (frames m) (timeouts m) (nextHandle m)
    (viewerCalls m) (intakeCalls m).

Definition set_lastEditorCameraRef (v : AppState) (m : Mirror) : Mirror :=
  Build_Mirror (viewerApiReady m) (viewerCameraRef m)
    (lastLiveSceneUpdateRef m) (pendingLiveSceneUpdateRef m)
    (liveSceneRafRef m) (liveSceneTimeoutRef m) v (liveScene m)
    (docPointerActive m) (frames m) (timeouts m) (nextHandle m)
    (viewerCalls m) (intakeCalls m).

Definition set_liveScene (v : option LiveScene) (m : Mirror) : Mirror :=
  Build_Mirror (viewerApiReady m) (viewerCameraRef m)
    (lastLiveSceneUpdateRef m) (pendingLiveSceneUpdateRef m)
    (liveSceneRafRef m) (liveSceneTimeoutRef m) (lastEditorCameraRef m) v
    (docPointerActive m) (frames m) (timeouts m) (nextHandle m)
    (viewerCalls m) (intakeCalls m).

Definition set_docPointerActive (v : option bool) (m : Mirror) : Mirror :=
  Build_Mirror (viewerApiReady m) (viewerCameraRef m)
    (lastLiveSceneUpdateRef m) (pendingLiveSceneUpdateRef m)
    (liveSceneRafRef m) (liveSceneTimeoutRef m) (lastEditorCameraRef m)
    (liveScene m) v (frames m) (timeouts m) (nextHandle m) (viewerCalls m)
    (intakeCalls m).

Definition set_frames (v : list (nat * FrameTask)) (m : Mirror) : Mirror :=
  Build_Mirror (viewerApiReady m) (viewerCameraRef m)
    (lastLiveSceneUpdateRef m) (pendingLiveSceneUpdateRef m)
    (liveSceneRafRef m) (liveSceneTimeoutRef m) (lastEditorCameraRef m)
    (liveScene m) (docPointerActive m) v (timeouts m) (nextHandle m)
    (viewerCalls m) (intakeCalls m).

Definition set_timeouts (v : list nat) (m : Mirror) : Mirror :=
  Build_Mirror (viewerApiReady m) (viewerCameraRef m)
    (lastLiveSceneUpdateRef m) (pendingLiveSceneUpdateRef m)
    (liveSceneRafRef m) (liveSceneTimeoutRef m) (lastEditorCameraRef m)
    (liveScene m) (docPointerActive m) (frames m) v (nextHandle m)
    (viewerCalls m) (intakeCalls m).

Definition set_nextHandle (v : nat) (m : Mirror) : Mirror :=
  Build_Mirror (viewerApiReady m) (viewerCameraRef m)
    (lastLiveSceneUpdateRef m) (pendingLiveSceneUpdateRef m)
    (liveSceneRafRef m) (liveSceneTimeoutRef m) (lastEditorCameraRef m)
    (liveScene m) (docPointerActive m) (frames m) (timeouts m) v
    (viewerCalls m) (intakeCalls m).

Definition set_viewerCalls (v : list UpdateSceneArgs) (m : Mirror) : Mirror :=
  Build_Mirror (viewerApiReady m) (viewerCameraRef m)
    (lastLiveSceneUpdateRef m) (pendingLiveSceneUpdateRef m)
    (liveSceneRafRef m) (liveSceneTimeoutRef m) (lastEditorCameraRef m)
    (liveScene m) (docPointerActive m) (frames m) (timeouts m)
    (nextHandle m) v (intakeCalls m).

Definition set_intakeCalls (v : list IntakeCall) (m : Mirror) : Mirror :=
  Build_Mirror (viewerApiReady m) (viewerCameraRef m)
    (lastLiveSceneUpdateRef m) (pendingLiveSceneUpdateRef m)
    (liveSceneRafRef m) (liveSceneTimeoutRef m) (lastEditorCameraRef m)
    (liveScene m) (docPointerActive m) (frames m) (timeouts m)
    (nextHandle m) (viewerCalls m) v.

(** [requestAnimationFrame(cb)], where [cb] mirrors [t]; the handle is kept
    in [liveSceneRafRef]. *)
Definition requestAnimationFrame (t : FrameTask) (m : Mirror) : Mirror :=
  let h := nextHandle m in
  m |> set_frames (frames m ++ [(h, t)])
    |> set_nextHandle (S h)
    |> set_liveSceneRafRef (Some h).

(** [cancelAnimationFrame(h)] *)
Definition cancelAnimationFrame (h : nat) (m : Mirror) : Mirror :=
  set_frames (filter (fun ht => fst ht <> h) (frames m)) m.

(** [window.setTimeout(cb, delay)] for the throttle callback; the handle is
    kept in [liveSceneTimeoutRef]. *)
Definition setTimeout (m : Mirror) : Mirror :=
  let h := nextHandle m in
  m |> set_timeouts (timeouts m ++ [h])
    |> set_nextHandle (S h)
    |> set_liveSceneTimeoutRef (Some h).

(** [clearTimeout(h)] *)
Definition clearTimeout (h : nat) (m : Mirror) : Mirror :=
  set_timeouts (filter (fun k => k <> h) (timeouts m)) m.

(** "Cancel any pending updates": both handles are cancelled and both refs
    reset to [null]. *)
Definition cancelPending (m : Mirror) : Mirror :=
  let m := match liveSceneRafRef m with
           | Some h => m |> cancelAnimationFrame h |> set_liveSceneRafRef None
           | None => m
           end in
  match liveSceneTimeoutRef m with
  | Some h => m |> clearTimeout h |> set_liveSceneTimeoutRef None
  | None => m
  end.

Definition updateScene (u : UpdateSceneArgs) (m : Mirror) : Mirror :=
  set_viewerCalls (viewerCalls m ++ [u]) m.

(** The body of an animation-frame callback: a full update of the viewer
    through its API, or through [liveScene] while the API is missing. *)
Definition frameCallback (t : FrameTask) (m : Mirror) : Mirror :=
  let m := set_liveSceneRafRef None m in
  if viewerApiReady m then
    updateScene {| u_elements := ft_elements t;
                   u_appState := Some (viewerCameraRef m);
                   u_files := Some (ft_files t) |} m
  else
    set_liveScene (Some {| ls_elements := ft_elements t;
                           ls_appState := viewerCameraRef m;
                           ls_files := ft_files t |}) m.

(** The body of the throttle timeout. *)
Definition timeoutCallback (now : Z) (m : Mirror) : Mirror :=
  let m := match pendingLiveSceneUpdateRef m with
           | Some pending =>
               m |> set_lastLiveSceneUpdateRef now
                 |> requestAnimationFrame pending
                 |> set_pendingLiveSceneUpdateRef None
           | None => m
           end in
  set_liveSceneTimeoutRef None m.

(** Two optional numbers are [===]. *)
Definition same_number (a b : option number) : bool :=
  match a, b with
  | Some x, Some y => Qeq_bool x y
  | None, None => true
  | _, _ => false
  end.

(** The editor-canvas [onChange] handler. *)
Definition handleCanvasChange
    (elements : ObjRef) (appState : AppState) (files : ObjRef) (now : Z)
    (m : Mirror) : Mirror :=
  let isPointerActive := default false (docPointerActive m) in
  let m :=
    if isPointerActive then
      let m := cancelPending m in
      if viewerApiReady m then
        updateScene {| u_elements := elements; u_appState := None; u_files := None |} m
      else m
    else
      let timeSinceLastUpdate := now - lastLiveSceneUpdateRef m in
      let shouldUpdate := 16 <=? timeSinceLastUpdate in
      if shouldUpdate then
        m |> set_lastLiveSceneUpdateRef now
          |> cancelPending
          |> requestAnimationFrame {| ft_elements := elements; ft_files := files |}
      else
        let m := set_pendingLiveSceneUpdateRef
                   (Some {| ft_elements := elements; ft_files := files |}) m in
        match liveSceneRafRef m, liveSceneTimeoutRef m with
        | None, None => setTimeout m
        | _, _ => m
        end in
  let lastCamera := lastEditorCameraRef m in
  let m :=
    if negb (same_number (zoom lastCamera) (zoom appState))
       || negb (same_number (scrollX lastCamera) (scrollX appState))
       || negb (same_number (scrollY lastCamera) (scrollY appState))
    then set_lastEditorCameraRef
           {| zoom := zoom appState; scrollX := scrollX appState;
              scrollY := scrollY appState; otherKeys := [] |} m
    else m in
  set_intakeCalls
    (intakeCalls m ++ [{| ic_elements := elements; ic_appState := appState;
                          ic_files := files;
                          ic_viewerAppState := viewerCameraRef m;
                          ic_editorAppState := lastEditorCameraRef m |}]) m.

(** An animation frame: the callback registered under handle [h] runs. *)
Definition onFrame (h : nat) (m : Mirror) : Mirror :=
  match filter (fun ht => fst ht = h) (frames m) with
  | (_, t) :: _ => m |> cancelAnimationFrame h |> frameCallback t
  | [] => m
  end.

(** The timeout registered under handle [h] elapses. *)
Definition onTimeout (h : nat) (now : Z) (m : Mirror) : Mirror :=
  if bool_decide (h ∈ timeouts m)
  then m |> clearTimeout h |> timeoutCallback now
  else m.

End UseDualCanvas.

(** ** The unlock gate: use-document-unlock.ts *)

Module UseDocumentUnlock.

Definition DEFAULT_DOCUMENT_WA_ID : string := "".

(** A column definition; the gate reads its [id] only. *)
Record IColumnDefinition := { id : string }.

(** [columns.findIndex(pred)]: the index of the first match, or [-1]. *)
Fixpoint findIndexFrom (pred : IColumnDefinition -> bool)
    (columns : list IColumnDefinition) (i : Z) : Z :=
  match columns with
  | [] => -1
  | c :: rest => if pred c then i else findIndexFrom pred rest (i + 1)
  end.

Definition findIndex (pred : IColumnDefinition -> bool)
    (columns : list IColumnDefinition) : Z :=
  findIndexFrom pred columns 0.

(** The outcome of awaiting [getCellData(col, row)]: a value, or an
    exception (a synchronous throw or a rejected promise). *)
Inductive CellRead :=
| Returns (v : JsVal)
| Throws.

(** The data source, as far as the gate uses it: [getCellData]. *)
Definition IDataSource := Z -> Z -> CellRead.

(** [typeof v === "string" && v.trim().length > 0] *)
Definition nameOk (nameVal : JsVal) : bool :=
  match nameVal with
  | VString s => (0 <? String.length (trim s))%nat
  | _ => false
  end.

(** [typeof v === "string" && v.trim().startsWith("+")] *)
Definition phoneOk (phoneVal : JsVal) : bool :=
  match phoneVal with
  | VString s => startsWith (trim s) "+"
  | _ => false
  end.

(** [recomputeUnlock]: the value of the [isUnlocked] state once the
    callback has settled, given the value it had.  The callback is re-created
    whenever [isUnlocked] changes, so the value it captured is the current
    one. *)
Definition recomputeUnlock
    (waId : string) (customerColumns : list IColumnDefinition)
    (customerDataSource : IDataSource) (isUnlocked : bool) : bool :=
  if bool_decide (waId = "") || bool_decide (waId = DEFAULT_DOCUMENT_WA_ID) then
    if isUnlocked then false else isUnlocked
  else
    let nameCol := findIndex (fun c => bool_decide (id c = "name")) customerColumns in
    let phoneCol := findIndex (fun c => bool_decide (id c = "phone")) customerColumns in
    match customerDataSource nameCol 0, customerDataSource phoneCol 0 with
    | Returns nameVal, Returns phoneVal =>
        let waIdOk :=
          negb (bool_decide (waId = ""))
          && negb (bool_decide (waId = DEFAULT_DOCUMENT_WA_ID)) in
        nameOk nameVal && phoneOk phoneVal && waIdOk
    | _, _ => false
    end.

(** The listener of [doc:customer-loaded]. *)
Definition onCustomerLoaded
    (eventWaId : option string) (waId : string)
    (customerColumns : list IColumnDefinition)
    (customerDataSource : IDataSource) (isUnlocked : bool) : bool :=
  if bool_decide (default "" eventWaId = waId)
  then recomputeUnlock waId customerColumns customerDataSource isUnlocked
  else isUnlocked.

End UseDocumentUnlock.

(** ** The throttle in front of the change intake: use-document-scene.ts *)

Module SceneThrottle.
Import UseDocumentScene.

(** The arguments of one call of [handleCanvasChange]; this is also what
    [pendingHookCallRef] holds. *)
Record HookCall := {
  hc_elements : JsArray;
  hc_appState : AppState;
  hc_files : ObjRef;
  hc_viewerAppState : option AppState;
  hc_editorAppState : option AppState
}.

(** A hook instance with the refs of its throttle: the window's timeouts
    armed by the throttle (handle, the time from which the browser may run
    the callback, and the props of the render whose
    [handleCanvasChangeInternal] the callback closes over), and the calls of
    [handleCanvasChangeInternal] made so far with the clock they read. *)
Record Throttled := {
  hook : Hook;
  lastHookCallRef : Z;
  pendingHookCallRef : option HookCall;
  hookThrottleTimerRef : option nat;
  throttleTimers : list (nat * (Z * Props));
  nextThrottleTimer : nat;
  internalCalls : list (Z * HookCall)
}.

Definition set_hook (v : Hook) (m : Throttled) : Throttled :=
  Build_Throttled v (lastHookCallRef m) (pendingHookCallRef m)
    (hookThrottleTimerRef m) (throttleTimers m) (nextThrottleTimer m)
    (internalCalls m).

Definition set_lastHookCallRef (v : Z) (m : Throttled) : Throttled :=
  Build_Throttled (hook m) v (pendingHookCallRef m)
    (hookThrottleTimerRef m) (throttleTimers m) (nextThrottleTimer m)
    (internalCalls m).

Definition set_pendingHookCallRef (v : option HookCall) (m : Throttled) : Throttled :=
  Build_Throttled (hook m) (lastHookCallRef m) v
    (hookThrottleTimerRef m) (throttleTimers m) (nextThrottleTimer m)
    (internalCalls m).

Definition set_hookThrottleTimerRef (v : option nat) (m : Throttled) : Throttled :=
  Build_Throttled (hook m) (lastHookCallRef m) (pendingHookCallRef m)
    v (throttleTimers m) (nextThrottleTimer m) (internalCalls m).

Definition set_throttleTimers (v : list (nat * (Z * Props))) (m : Throttled) : Throttled :=
  Build_Throttled (hook m) (lastHookCallRef m) (pendingHookCallRef m)
    (hookThrottleTimerRef m) v (nextThrottleTimer m) (internalCalls m).

Definition set_nextThrottleTimer (v : nat) (m : Throttled) : Throttled :=
  Build_Throttled (hook m) (lastHookCallRef m) (pendingHookCallRef m)
    (hookThrottleTimerRef m) (throttleTimers m) v (internalCalls m).

Definition set_internalCalls (v : list (Z * HookCall)) (m : Throttled) : Throttled :=
  Build_Throttled (hook m) (lastHookCallRef m) (pendingHookCallRef m)
    (hookThrottleTimerRef m) (throttleTimers m) (nextThrottleTimer m) v.

(** [window.setTimeout(cb, delay)] at time [now], where [cb] closes over the
    intake of the render with props [p]; the handle is kept in
    [hookThrottleTimerRef]. *)
Definition throttle_setTimeout (delay now : Z) (p : Props) (m : Throttled) : Throttled :=
  let h := nextThrottleTimer m in
  m |> set_throttleTimers (throttleTimers m ++ [(h, (now + delay, p))])
    |> set_nextThrottleTimer (S h)
    |> set_hookThrottleTimerRef (Some h).

(** [clearTimeout(h)] *)
Definition throttle_clearTimeout (h : nat) (m : Throttled) : Throttled :=
  set_throttleTimers (filter (fun t => fst t <> h) (throttleTimers m)) m.

Section WithExternals.
Context `{ext : Externals}.

(** [handleCanvasChangeInternal] as the render with props [p] created it:
    its guard reads the [enabled], [waId] and [isUnlocked] of that render,
    everything else goes through the refs. *)
Definition internalOf (p : Props) (c : HookCall) (now : Z) (s : Hook) : Hook :=
  set_props (props s)
    (handleCanvasChangeInternal (hc_elements c) (hc_appState c) (hc_files c)
       (hc_viewerAppState c) (hc_editorAppState c) now (set_props p s)).

Definition callInternal (p : Props) (c : HookCall) (now : Z) (m : Throttled) : Throttled :=
  m |> set_hook (internalOf p c now (hook m))
    |> set_internalCalls (internalCalls m ++ [(now, c)]).

(** The throttled [handleCanvasChange] returned by the hook, called at time
    [now] by a caller that holds the callback of the latest render. *)
Definition handleCanvasChange (c : HookCall) (now : Z) (m : Throttled) : Throttled :=
  let timeSinceLastCall := now - lastHookCallRef m in
  let shouldCallImmediately := 50 <=? timeSinceLastCall in
  if shouldCallImmediately then
    let m := set_lastHookCallRef now m in
    let m := match hookThrottleTimerRef m with
             | Some h => m |> throttle_clearTimeout h |> set_hookThrottleTimerRef None
             | None => m
             end in
    callInternal (props (hook m)) c now m
  else
    let m := set_pendingHookCallRef (Some c) m in
    match hookThrottleTimerRef m with
    | None =>
        let delay := 50 - timeSinceLastCall in
        throttle_setTimeout delay now (props (hook m)) m
    | Some _ => m
    end.

(** The body of the throttle timeout, run at time [now]. *)
Definition throttleCallback (p : Props) (now : Z) (m : Throttled) : Throttled :=
  let m := match pendingHookCallRef m with
           | Some pending =>
               m |> set_lastHookCallRef now
                 |> callInternal p pending now
                 |> set_pendingHookCallRef None
           | None => m
           end in
  set_hookThrottleTimerRef None m.

(** The timeout registered under handle [h] runs at time [now]; the browser
    runs no timeout before its delay has passed. *)
Definition onThrottleTimer (h : nat) (now : Z) (m : Throttled) : Throttled :=
  match filter (fun t => fst t = h) (throttleTimers m) with
  | (_, (due, p)) :: _ =>
      if due <=? now then m |> throttle_clearTimeout h |> throttleCallback p now
      else m
  | [] => m
  end.

(** The cleanup of the mount-only effect ([isMountedRef], which it also
    clears, is read nowhere). *)
Definition unmount_cleanup (m : Throttled) : Throttled :=
  let m := set_hook (hook m |> idle_cancel |> interval_stop) m in
  match hookThrottleTimerRef m with
  | Some h => m |> throttle_clearTimeout h |> set_hookThrottleTimerRef None
  | None => m
  end.

(** A hook instance right after its first render. *)
Definition initialThrottled (p : Props) : Throttled :=
  {| hook := mount p; lastHookCallRef := 0; pendingHookCallRef := None;
     hookThrottleTimerRef := None; throttleTimers := [];
     nextThrottleTimer := 1; internalCalls := [] |}.

(** What can happen to a mounted hook instance whose changes arrive through
    the throttle; [ThHook] stands for the events of the session controller
    other than a change. *)
Inductive ThEvent :=
| ThChange (c : HookCall) (now : Z)
| ThTimer (h : nat) (now : Z)
| ThHook (e : Event).

Definition thStep (e : ThEvent) (m : Throttled) : Throttled :=
  match e with
  | ThChange c now => handleCanvasChange c now m
  | ThTimer h now => onThrottleTimer h now m
  | ThHook e => set_hook (step e (hook m)) m
  end.

Fixpoint thRun (evs : list ThEvent) (m : Throttled) : Throttled :=
  match evs with
  | [] => m
  | e :: evs => thRun evs (thStep e m)
  end.

End WithExternals.

End SceneThrottle.

(** ** Runs of the mirror *)

Module MirrorRuns.
Import UseDualCanvas.

(** The refs of the mirror after the first render. *)
Definition initialMirror : Mirror :=
  {| viewerApiReady := false;
     viewerCameraRef := emptyAppState;
     lastLiveSceneUpdateRef := 0;
     pendingLiveSceneUpdateRef := None;
     liveSceneRafRef := None;
     liveSceneTimeoutRef := None;
     lastEditorCameraRef := emptyAppState;
     liveScene := None;
     docPointerActive := None;
     frames := [];
     timeouts := [];
     nextHandle := 1;
     viewerCalls := [];
     intakeCalls := [] |}.

(** What can happen to the mirror: the editor reports a change, the browser
    runs a queued animation frame or timeout, the viewer hands over its API
    ([onViewerApiReady]), the pointer tracker writes [__docPointerActive],
    the viewer's camera is recorded. *)
Inductive MirrorEvent :=
| MvChange (elements : ObjRef) (appState : AppState) (files : ObjRef) (now : Z)
| MvFrame (h : nat)
| MvTimeout (h : nat) (now : Z)
| MvViewerApiReady
| MvPointerActive (active : bool)
| MvViewerCamera (camera : AppState).

Definition mirrorStep (e : MirrorEvent) (m : Mirror) : Mirror :=
  match e with
  | MvChange elements appState files now => handleCanvasChange elements appState files now m
  | MvFrame h => onFrame h m
  | MvTimeout h now => onTimeout h now m
  | MvViewerApiReady => set_viewerApiReady true m
  | MvPointerActive active => set_docPointerActive (Some active) m
  | MvViewerCamera camera => set_viewerCameraRef camera m
  end.

Fixpoint mirrorRun (evs : list MirrorEvent) (m : Mirror) : Mirror :=
  match evs with
  | [] => m
  | e :: evs => mirrorRun evs (mirrorStep e m)
  end.

End MirrorRuns.

(** ** The viewer side of the dual canvas: use-dual-canvas.ts *)

Module UseDualCanvasViewer.

(** A scene as the load listeners receive it in [detail.document] or
    [detail.scene]: each part may be missing. *)
Record LoadedScene := {
  ld_elements : option JsArray;
  ld_appState : option AppState;
  ld_files : option ObjRef;
  ld_viewerAppState : option AppState
}.

(** The argument of [setLiveScene] in the load listeners; [None] stands for
    the literal the source puts in place of a missing part. *)
Record LiveSceneState := {
  lv_elements : option JsArray;
  lv_appState : AppState;
  lv_files : option ObjRef
}.

(** One call of the session controller's [handleCanvasChange] made by the
    viewer handler; a missing [files] is passed as the literal [{}]. *)
Record Forward := {
  fw_elements : JsArray;
  fw_appState : AppState;
  fw_files : option ObjRef;
  fw_viewerAppState : AppState;
  fw_editorAppState : option AppState
}.

(** The options of the hook, its [scene] and [liveScene] state, the refs the
    load listeners and the viewer handler use, and the calls forwarded to the
    session controller.  [sceneRef] follows [scene]: the effect that copies
    it is taken as run at once. *)
Record Viewer := {
  waId : string;
  isUnlocked : bool;
  initialLoadActive : bool;
  scene : option LoadedScene;
  sceneRef : option LoadedScene;
  liveScene : option LiveSceneState;
  viewerCameraRef : AppState;
  lastViewerCameraSigRef : string;
  appliedForWaIdRef : option string;
  lastAppliedSigRef : string;
  forwarded : list Forward
}.

Definition setScene (v : option LoadedScene) (m : Viewer) : Viewer :=
  Build_Viewer (waId m) (isUnlocked m) (initialLoadActive m) v v
    (liveScene m) (viewerCameraRef m) (lastViewerCameraSigRef m)
    (appliedForWaIdRef m) (lastAppliedSigRef m) (forwarded m).

Definition setLiveScene (v : option LiveSceneState) (m : Viewer) : Viewer :=
  Build_Viewer (waId m) (isUnlocked m) (initialLoadActive m) (scene m)
    (sceneRef m) v (viewerCameraRef m) (lastViewerCameraSigRef m)
    (appliedForWaIdRef m) (lastAppliedSigRef m) (forwarded m).

Definition set_viewerCameraRef (v : AppState) (m : Viewer) : Viewer :=
  Build_Viewer (waId m) (isUnlocked m) (initialLoadActive m) (scene m)
    (sceneRef m) (liveScene m) v (lastViewerCameraSigRef m)
    (appliedForWaIdRef m) (lastAppliedSigRef m) (forwarded m).

Definition set_lastViewerCameraSigRef (v : string) (m : Viewer) : Viewer :=
  Build_Viewer (waId m) (isUnlocked m) (initialLoadActive m) (scene m)
    (sceneRef m) (liveScene m) (viewerCameraRef m) v
    (appliedForWaIdRef m) (lastAppliedSigRef m) (forwarded m).

Definition set_appliedForWaIdRef (v : option string) (m : Viewer) : Viewer :=
  Build_Viewer (waId m) (isUnlocked m) (initialLoadActive m) (scene m)
    (sceneRef m) (liveScene m) (viewerCameraRef m) (lastViewerCameraSigRef m)
    v (lastAppliedSigRef m) (forwarded m).

Definition set_lastAppliedSigRef (v : string) (m : Viewer) : Viewer :=
  Build_Viewer (waId m) (isUnlocked m) (initialLoadActive m) (scene m)
    (sceneRef m) (liveScene m) (viewerCameraRef m) (lastViewerCameraSigRef m)
    (appliedForWaIdRef m) v (forwarded m).

Definition originalHandleCanvasChange (c : Forward) (m : Viewer) : Viewer :=
  Build_Viewer (waId m) (isUnlocked m) (initialLoadActive m) (scene m)
    (sceneRef m) (liveScene m) (viewerCameraRef m) (lastViewerCameraSigRef m)
    (appliedForWaIdRef m) (lastAppliedSigRef m) (forwarded m ++ [c]).

(** The hook after its first render with the given options. *)
Definition initialViewer (w : string) (unlocked loadActive : bool) : Viewer :=
  {| waId := w; isUnlocked := unlocked; initialLoadActive := loadActive;
     scene := None; sceneRef := None; liveScene := None;
     viewerCameraRef := emptyAppState; lastViewerCameraSigRef := "";
     appliedForWaIdRef := None; lastAppliedSigRef := "";
     forwarded := [] |}.

(** [handleViewerCanvasChange]: the viewer canvas reports its [appState]. *)
Definition handleViewerCanvasChange (appState : AppState) (m : Viewer) : Viewer :=
  let zoomValue := nullish (zoom appState) 1%Q in
  let scrollX := nullish (scrollX appState) 0%Q in
  let scrollY := nullish (scrollY appState) 0%Q in
  let newSig :=
    "{" +:+ dquote +:+ "zoom" +:+ dquote +:+ ":"
        +:+ show_thousandths (Math_round (zoomValue * 1000)%Q)
    +:+ "," +:+ dquote +:+ "scrollX" +:+ dquote +:+ ":"
        +:+ show_int (Math_round scrollX)
    +:+ "," +:+ dquote +:+ "scrollY" +:+ dquote +:+ ":"
        +:+ show_int (Math_round scrollY)
    +:+ "}" in
  if bool_decide (newSig = lastViewerCameraSigRef m) then m
  else
    let m := m |> set_viewerCameraRef appState
               |> set_lastViewerCameraSigRef newSig in
    match sceneRef m with
    | Some currentScene =>
        match ld_elements currentScene with
        | Some elements =>
            if negb (isUnlocked m) then m
            else
              let editorCamera :=
                match ld_appState currentScene with
                | Some a => Some {| zoom := zoom a; scrollX := Js.scrollX a;
                                    scrollY := Js.scrollY a; otherKeys := [] |}
                | None => None
                end in
              originalHandleCanvasChange
                {| fw_elements := elements;
                   fw_appState := default emptyAppState (ld_appState currentScene);
                   fw_files := ld_files currentScene;
                   fw_viewerAppState := viewerCameraRef m;
                   fw_editorAppState := editorCamera |} m
        | None => m
        end
    | None => m
    end.

(** [computeSceneSignature] is imported from
    [@/shared/libs/documents/scene-utils], which is outside the files
    embedded here; it is a parameter.  A missing part is passed to it as an
    empty literal. *)
Class SceneUtils := {
  computeSceneSignature : option JsArray -> option AppState -> option ObjRef -> string
}.

Section WithSceneUtils.
Context `{utils : SceneUtils}.

(** What both load listeners do once they accept a scene. *)
Definition applyLoaded (s : LoadedScene) (nextSig : string) (m : Viewer) : Viewer :=
  let m := setScene (Some s) m in
  let viewerCamera := default emptyAppState (ld_viewerAppState s) in
  m |> set_viewerCameraRef viewerCamera
    |> setLiveScene (Some {| lv_elements := ld_elements s;
                             lv_appState := viewerCamera;
                             lv_files := ld_files s |})
    |> set_appliedForWaIdRef (Some (waId m))
    |> set_lastAppliedSigRef nextSig.

(** The listener of [documents:external-update]. *)
Definition onExternal (wa_id : option string) (document : option LoadedScene)
    (m : Viewer) : Viewer :=
  if negb (bool_decide (default "" wa_id = waId m)) then m
  else if negb (initialLoadActive m) then m
  else if bool_decide (appliedForWaIdRef m = Some (waId m)) then m
  else
    match document with
    | None => m
    | Some s =>
        let nextSig :=
          computeSceneSignature (ld_elements s) (ld_appState s) (ld_files s) in
        let hasElements :=
          match ld_elements s with
          | Some a => (0 <? arr_length a)%nat
          | None => false
          end in
        if negb (bool_decide (nextSig = "")) && hasElements
           && negb (bool_decide (nextSig = lastAppliedSigRef m))
        then applyLoaded s nextSig m
        else m
    end.

(** The listener of [documents:sceneApplied]. *)
Definition onApplied (wa_id : option string) (scene : option LoadedScene)
    (m : Viewer) : Viewer :=
  if negb (bool_decide (default "" wa_id = waId m)) then m
  else if negb (initialLoadActive m) then m
  else if bool_decide (appliedForWaIdRef m = Some (waId m)) then m
  else
    match scene with
    | None => m
    | Some s =>
        let nextSig :=
          computeSceneSignature (ld_elements s) (ld_appState s) (ld_files s) in
        if negb (bool_decide (nextSig = ""))
           && negb (bool_decide (nextSig = lastAppliedSigRef m))
        then applyLoaded s nextSig m
        else m
    end.

(** The two window events the load listeners react to. *)
Inductive LoadEvent :=
| LdExternalUpdate (wa_id : option string) (document : option LoadedScene)
| LdSceneApplied (wa_id : option string) (scene : option LoadedScene).

Definition loadStep (e : LoadEvent) (m : Viewer) : Viewer :=
  match e with
  | LdExternalUpdate wa_id document => onExternal wa_id document m
  | LdSceneApplied wa_id scene => onApplied wa_id scene m
  end.

Fixpoint loadRun (evs : list LoadEvent) (m : Viewer) : Viewer :=
  match evs with
  | [] => m
  | e :: evs => loadRun evs (loadStep e m)
  end.

End WithSceneUtils.

End UseDualCanvasViewer.

(** ** The canvas component: DocumentCanvas.tsx *)

Module DocumentCanvas.

(** *** The mount gate *)

Inductive Theme := Light | Dark.

(** What one run of [tick] observes: the container's bounding rectangle
    (width and height), when the container is there, and whether the
    document element carries the class [dark]. *)
Record Observation := {
  ob_rect : option (Q * Q);
  ob_hasDark : bool
}.

(** [rect && rect.width > 2 && rect.height > 2 && themeMatches] *)
Definition fits (theme : Theme) (o : Observation) : bool :=
  let themeMatches :=
    Bool.eqb (match theme with Dark => true | Light => false end) (ob_hasDark o) in
  match ob_rect o with
  | Some (width, height) =>
      negb (Qle_bool width 2) && negb (Qle_bool height 2) && themeMatches
  | None => false
  end.

(** The effect that decides when Excalidraw is mounted: its counter, the
    [mountReady] state, and whether a frame is requested for [tick]. *)
Record MountGate := {
  attempts : nat;
  mountReady : bool;
  tickRequested : bool
}.

(** The body of the effect: [raf = requestAnimationFrame(tick)]. *)
Definition mountEffect (ready : bool) : MountGate :=
  {| attempts := 0; mountReady := ready; tickRequested := true |}.

(** An animation frame: [tick] runs when it was requested. *)
Definition tick (theme : Theme) (o : Observation) (g : MountGate) : MountGate :=
  if negb (tickRequested g) then g
  else
    let attempts := S (attempts g) in
    if fits theme o then
      {| attempts := attempts; mountReady := true; tickRequested := false |}
    else if (attempts <? 60)%nat then
      {| attempts := attempts; mountReady := mountReady g; tickRequested := true |}
    else
      {| attempts := attempts; mountReady := true; tickRequested := false |}.

Fixpoint ticks (theme : Theme) (obs : list Observation) (g : MountGate) : MountGate :=
  match obs with
  | [] => g
  | o :: obs => ticks theme obs (tick theme o g)
  end.

(** *** Handing the API to the parent *)

(** The [excalidrawAPI] callback keeps the instance in [apiRef] and starts,
    once, the chain (microtask, animation frame, timeout) that ends in
    [onApiReady(api)]; [announcing] holds the chains under way and
    [announced] the calls of [onApiReady] made. *)
Record ApiHandover := {
  apiRef : option ObjRef;
  didNotifyApiRef : bool;
  announcing : list ObjRef;
  announced : list ObjRef
}.

Definition initialHandover : ApiHandover :=
  {| apiRef := None; didNotifyApiRef := false; announcing := []; announced := [] |}.

(** The [excalidrawAPI] prop is called with [api]. *)
Definition excalidrawAPI (api : ObjRef) (a : ApiHandover) : ApiHandover :=
  if negb (didNotifyApiRef a) then
    {| apiRef := Some api; didNotifyApiRef := true;
       announcing := announcing a ++ [api]; announced := announced a |}
  else
    {| apiRef := Some api; didNotifyApiRef := didNotifyApiRef a;
       announcing := announcing a; announced := announced a |}.

(** The oldest chain under way reaches its end. *)
Definition announce (a : ApiHandover) : ApiHandover :=
  match announcing a with
  | api :: rest =>
      {| apiRef := apiRef a; didNotifyApiRef := didNotifyApiRef a;
         announcing := rest; announced := announced a ++ [api] |}
  | [] => a
  end.

Inductive HandoverEvent :=
| HoExcalidrawAPI (api : ObjRef)
| HoAnnounce.

Definition handoverStep (e : HandoverEvent) (a : ApiHandover) : ApiHandover :=
  match e with
  | HoExcalidrawAPI api => excalidrawAPI api a
  | HoAnnounce => announce a
  end.

Fixpoint handoverRun (evs : list HandoverEvent) (a : ApiHandover) : ApiHandover :=
  match evs with
  | [] => a
  | e :: evs => handoverRun evs (handoverStep e a)
  end.

(** *** The pointer tracker and the scene prop *)

(** The scene the effect applies: the [scene] prop (by identity) with
    [viewModeEnabled] and [zenModeEnabled] forced to the props. *)
Record SceneToApply := {
  sa_scene : ObjRef;
  sa_viewModeEnabled : bool;
  sa_zenModeEnabled : bool
}.

(** The refs of the pointer tracker, the [__docPointerActive] global, the
    queue for scenes that arrive during a gesture, whether [apiRef] is set,
    the release timeouts under way (handle, and whether the callback tests
    [touchCount]), the animation frames requested for a scene, and the calls
    of [updateScene] with a scene. *)
Record Tracker := {
  pointerActiveRef : bool;
  docPointerActive : option bool;
  touchCount : nat;
  pendingSceneRef : option SceneToApply;
  apiReady : bool;
  releaseTimers : list (nat * bool);
  sceneFrames : list (nat * SceneToApply);
  nextHandle : nat;
  updateSceneCalls : list SceneToApply
}.

Definition initialTracker : Tracker :=
  {| pointerActiveRef := false; docPointerActive := None; touchCount := 0;
     pendingSceneRef := None; apiReady := false; releaseTimers := [];
     sceneFrames := []; nextHandle := 1; updateSceneCalls := [] |}.

Definition set_active (t : Tracker) : Tracker :=
  {| pointerActiveRef := true; docPointerActive := Some true;
     touchCount := touchCount t; pendingSceneRef := pendingSceneRef t;
     apiReady := apiReady t; releaseTimers := releaseTimers t;
     sceneFrames := sceneFrames t; nextHandle := nextHandle t;
     updateSceneCalls := updateSceneCalls t |}.

Definition set_touchCount (n : nat) (t : Tracker) : Tracker :=
  {| pointerActiveRef := pointerActiveRef t; docPointerActive := docPointerActive t;
     touchCount := n; pendingSceneRef := pendingSceneRef t;
     apiReady := apiReady t; releaseTimers := releaseTimers t;
     sceneFrames := sceneFrames t; nextHandle := nextHandle t;
     updateSceneCalls := updateSceneCalls t |}.

(** [setTimeout(cb, 120)] for a release callback. *)
Definition armRelease (testsTouchCount : bool) (t : Tracker) : Tracker :=
  {| pointerActiveRef := pointerActiveRef t; docPointerActive := docPointerActive t;
     touchCount := touchCount t; pendingSceneRef := pendingSceneRef t;
     apiReady := apiReady t;
     releaseTimers := releaseTimers t ++ [(nextHandle t, testsTouchCount)];
     sceneFrames := sceneFrames t; nextHandle := S (nextHandle t);
     updateSceneCalls := updateSceneCalls t |}.

(** What the release callbacks do once they go ahead: both flags are
    cleared and a scene queued during the gesture is applied. *)
Definition release (t : Tracker) : Tracker :=
  let flush := match pendingSceneRef t with
               | Some pending => apiReady t
               | None => false
               end in
  {| pointerActiveRef := false; docPointerActive := Some false;
     touchCount := touchCount t;
     pendingSceneRef := if flush then None else pendingSceneRef t;
     apiReady := apiReady t; releaseTimers := releaseTimers t;
     sceneFrames := sceneFrames t; nextHandle := nextHandle t;
     updateSceneCalls :=
       updateSceneCalls t ++ (if flush then option_list (pendingSceneRef t) else []) |}.

(** [pointerdown] *)
Definition onDown (t : Tracker) : Tracker := set_active t.

(** [pointerup] *)
Definition onUp (t : Tracker) : Tracker := armRelease true t.

(** [touchstart] with [e.touches.length] *)
Definition onTouchStart (touches : nat) (t : Tracker) : Tracker :=
  let t := set_touchCount touches t in
  if (0 <? touches)%nat then set_active t else t.

(** [touchend] with [e.touches.length] *)
Definition onTouchEnd (touches : nat) (t : Tracker) : Tracker :=
  armRelease true (set_touchCount touches t).

(** [touchcancel] *)
Definition onTouchCancel (t : Tracker) : Tracker :=
  armRelease false (set_touchCount 0 t).

(** The release timeout registered under handle [h] runs. *)
Definition onReleaseTimer (h : nat) (t : Tracker) : Tracker :=
  match filter (fun x => fst x = h) (releaseTimers t) with
  | (_, testsTouchCount) :: _ =>
      let t :=
        {| pointerActiveRef := pointerActiveRef t;
           docPointerActive := docPointerActive t;
           touchCount := touchCount t; pendingSceneRef := pendingSceneRef t;
           apiReady := apiReady t;
           releaseTimers := filter (fun x => fst x <> h) (releaseTimers t);
           sceneFrames := sceneFrames t; nextHandle := nextHandle t;
           updateSceneCalls := updateSceneCalls t |} in
      if testsTouchCount && negb (touchCount t =? 0)%nat then t else release t
  | [] => t
  end.

(** The effect keyed on the [scene] prop, run with a scene and the
    [viewModeEnabled] and [zenModeEnabled] props. *)
Definition sceneEffect (scene : option ObjRef) (viewModeEnabled zenModeEnabled : bool)
    (t : Tracker) : Tracker :=
  match scene with
  | Some sc =>
      if negb (apiReady t) then t
      else
        let sceneToApply :=
          {| sa_scene := sc; sa_viewModeEnabled := viewModeEnabled;
             sa_zenModeEnabled := zenModeEnabled |} in
        if pointerActiveRef t then
          {| pointerActiveRef := pointerActiveRef t;
             docPointerActive := docPointerActive t;
             touchCount := touchCount t; pendingSceneRef := Some sceneToApply;
             apiReady := apiReady t; releaseTimers := releaseTimers t;
             sceneFrames := sceneFrames t; nextHandle := nextHandle t;
             updateSceneCalls := updateSceneCalls t |}
        else
          {| pointerActiveRef := pointerActiveRef t;
             docPointerActive := docPointerActive t;
             touchCount := touchCount t; pendingSceneRef := pendingSceneRef t;
             apiReady := apiReady t; releaseTimers := releaseTimers t;
             sceneFrames := sceneFrames t ++ [(nextHandle t, sceneToApply)];
             nextHandle := S (nextHandle t);
             updateSceneCalls := updateSceneCalls t |}
  | None => t
  end.

(** The animation frame requested under handle [h] for a scene runs. *)
Definition onSceneFrame (h : nat) (t : Tracker) : Tracker :=
  match filter (fun x => fst x = h) (sceneFrames t) with
  | (_, sceneToApply) :: _ =>
      {| pointerActiveRef := pointerActiveRef t;
         docPointerActive := docPointerActive t;
         touchCount := touchCount t; pendingSceneRef := pendingSceneRef t;
         apiReady := apiReady t; releaseTimers := releaseTimers t;
         sceneFrames := filter (fun x => fst x <> h) (sceneFrames t);
         nextHandle := nextHandle t;
         updateSceneCalls :=
           updateSceneCalls t ++ (if apiReady t then [sceneToApply] else []) |}
  | [] => t
  end.

(** The [excalidrawAPI] callback sets [apiRef]. *)
Definition onApi (t : Tracker) : Tracker :=
  {| pointerActiveRef := pointerActiveRef t; docPointerActive := docPointerActive t;
     touchCount := touchCount t; pendingSceneRef := pendingSceneRef t;
     apiReady := true; releaseTimers := releaseTimers t;
     sceneFrames := sceneFrames t; nextHandle := nextHandle t;
     updateSceneCalls := updateSceneCalls t |}.

Inductive TrackerEvent :=
| TkDown
| TkUp
| TkTouchStart (touches : nat)
| TkTouchEnd (touches : nat)
| TkTouchCancel
| TkReleaseTimer (h : nat)
| TkScene (scene : option ObjRef) (viewModeEnabled zenModeEnabled : bool)
| TkSceneFrame (h : nat)
| TkApi.

Definition trackerStep (e : TrackerEvent) (t : Tracker) : Tracker :=
  match e with
  | TkDown => onDown t
  | TkUp => onUp t
  | TkTouchStart touches => onTouchStart touches t
  | TkTouchEnd touches => onTouchEnd touches t
  | TkTouchCancel => onTouchCancel t
  | TkReleaseTimer h => onReleaseTimer h t
  | TkScene scene viewModeEnabled zenModeEnabled =>
      sceneEffect scene viewModeEnabled zenModeEnabled t
  | TkSceneFrame h => onSceneFrame h t
  | TkApi => onApi t
  end.

Fixpoint trackerRun (evs : list TrackerEvent) (t : Tracker) : Tracker :=
  match evs with
  | [] => t
  | e :: evs => trackerRun evs (trackerStep e t)
  end.

(** The scene effect run for each scene of a list, with the
    [viewModeEnabled] and [zenModeEnabled] of its render. *)
Definition sceneEffects (scenes : list (ObjRef * bool * bool)) (t : Tracker) : Tracker :=
  foldl (fun t s => sceneEffect (Some s.1.1) s.1.2 s.2 t) t scenes.

End DocumentCanvas.

(** ** The fullscreen hook: [useFullscreen] *)

Module UseFullscreen.

(** The [isFullscreen] state, whether [document.fullscreenElement] and
    [containerRef.current] are set, the [__docIgnoreChangesUntil] global, the
    calls of the [onFullscreenChange] option and the requests made to the
    browser ([true]: [requestFullscreen], [false]: [exitFullscreen]). *)
Record Fullscreen := {
  isFullscreen : bool;
  fullscreenElement : bool;
  container : bool;
  docIgnoreChangesUntil : option Z;
  notified : list bool;
  requested : list bool
}.

(** The listener of [fullscreenchange], for a hook called with the
    [suppressChangesMs] option (800 when left out) and with or without an
    [onFullscreenChange] callback. *)
Definition handleFullscreenChange (suppressChangesMs : Z) (hasCallback : bool)
    (now : Z) (f : Fullscreen) : Fullscreen :=
  let fullscreenActive := fullscreenElement f in
  {| isFullscreen := fullscreenActive;
     fullscreenElement := fullscreenElement f;
     container := container f;
     docIgnoreChangesUntil :=
       if 0 <? suppressChangesMs then Some (now + suppressChangesMs)
       else docIgnoreChangesUntil f;
     notified := notified f ++ (if hasCallback then [fullscreenActive] else []);
     requested := requested f |}.

(** [enterFullscreen] *)
Definition enterFullscreen (f : Fullscreen) : Fullscreen :=
  if negb (container f) then f
  else if fullscreenElement f then f
  else
    {| isFullscreen := isFullscreen f; fullscreenElement := fullscreenElement f;
       container := container f; docIgnoreChangesUntil := docIgnoreChangesUntil f;
       notified := notified f; requested := requested f ++ [true] |}.

(** [exitFullscreen] *)
Definition exitFullscreen (f : Fullscreen) : Fullscreen :=
  if negb (fullscreenElement f) then f
  else
    {| isFullscreen := isFullscreen f; fullscreenElement := fullscreenElement f;
       container := container f; docIgnoreChangesUntil := docIgnoreChangesUntil f;
       notified := notified f; requested := requested f ++ [false] |}.

End UseFullscreen.

(** ** Saving the customer row: customer-persist.process.ts *)

Module CustomerPersist.
Import UseDocumentUnlock.

(** JavaScript truthiness of a cell value. *)
Definition truthy (v : JsVal) : bool :=
  match v with
  | VUndefined | VNull => false
  | VBool b => b
  | VNumber x => negb (Qeq_bool x 0)
  | VString s => negb (bool_decide (s = ""))
  | VObject _ => true
  end.

(** [a === b] *)
Definition strictEq (a b : JsVal) : bool :=
  match a, b with
  | VUndefined, VUndefined => true
  | VNull, VNull => true
  | VBool x, VBool y => Bool.eqb x y
  | VNumber x, VNumber y => Qeq_bool x y
  | VString x, VString y => bool_decide (x = y)
  | VObject x, VObject y => bool_decide (x = y)
  | _, _ => false
  end.

(** An entry of [prevByWaRef]: the [{ name, age }] last persisted. *)
Record Snapshot := { sn_name : JsVal; sn_age : JsVal }.

(** The [{ waId, name, age }] of a save: the argument of
    [saveCustomerDocument] and the content of [persistInFlightRef]. *)
Record SavePayload := { sp_waId : string; sp_name : JsVal; sp_age : JsVal }.

(** The two refs the caller hands to [persistCustomerRow]. *)
Record PersistRefs := {
  prevByWaRef : gmap string Snapshot;
  persistInFlightRef : option SavePayload
}.

(** The field whose edit triggered the persist. *)
Inductive Field := FName | FAge | FPhone.

#[global] Instance Field_eq_dec : EqDecision Field.
Proof. solve_decision. Defined.

(** What the user gets to see or the backend to receive: a success toast
    with its message key, or [toastService.promise] around
    [saveCustomerDocument], which sends the PUT. *)
Inductive Effect :=
| ToastSuccess (messageKey : string) (isLocalized : bool)
| ToastPromise (payload : SavePayload) (successKey : string) (isLocalized : bool).

(** [persistCustomerRow] up to its first [await]: the guard on the subject
    and the two cell reads.  [None] when the function ends there: no subject,
    or a read throws and the [catch] swallows it. *)
Definition readRow (waId : string) (customerColumns : list IColumnDefinition)
    (customerDataSource : IDataSource) : option (JsVal * JsVal) :=
  if bool_decide (waId = "") || bool_decide (waId = DEFAULT_DOCUMENT_WA_ID) then None
  else
    let nameCol := findIndex (fun c => bool_decide (id c = "name")) customerColumns in
    let ageCol := findIndex (fun c => bool_decide (id c = "age")) customerColumns in
    match customerDataSource nameCol 0, customerDataSource ageCol 0 with
    | Returns nameVal, Returns ageVal => Some (nameVal, ageVal)
    | _, _ => None
    end.

(** The message key of the success toast. *)
Definition successKey (triggeredBy : option Field) : string :=
  match triggeredBy with
  | Some FAge => "age_recorded"
  | _ => "saved"
  end.

(** [(nameVal as string) || ""] *)
Definition rowName (nameVal : JsVal) : JsVal :=
  if truthy nameVal then nameVal else VString "".

(** [(ageVal as number | null) ?? null] *)
Definition rowAge (ageVal : JsVal) : JsVal :=
  match ageVal with
  | VUndefined | VNull => VNull
  | v => v
  end.

(** [!prev || prev.name !== name || prev.age !== age] *)
Definition changed (prev : option Snapshot) (name age : JsVal) : bool :=
  match prev with
  | None => true
  | Some p => negb (strictEq (sn_name p) name) || negb (strictEq (sn_age p) age)
  end.

(** The in-flight guard: a save with the same [waId], [name] and [age] is
    under way. *)
Definition identicalInFlight (inflight : option SavePayload)
    (currentSig : SavePayload) : bool :=
  match inflight with
  | Some inflight =>
      bool_decide (sp_waId inflight = sp_waId currentSig)
      && strictEq (sp_name inflight) (sp_name currentSig)
      && strictEq (sp_age inflight) (sp_age currentSig)
  | None => false
  end.

(** [persistCustomerRow] from the cell values to its second [await]. *)
Definition afterRead (waId : string) (triggeredBy : option Field) (isLocalized : bool)
    (nameVal ageVal : JsVal) (r : PersistRefs) : PersistRefs * list Effect :=
  let name := rowName nameVal in
  let age := rowAge ageVal in
  if bool_decide (triggeredBy = Some FPhone) then
    (r, [ToastSuccess "saved" isLocalized])
  else
    let prev := prevByWaRef r !! waId in
    if negb (changed prev name age) then
      (r, [ToastSuccess (successKey triggeredBy) isLocalized])
    else
      let currentSig := {| sp_waId := waId; sp_name := name; sp_age := age |} in
      if identicalInFlight (persistInFlightRef r) currentSig then (r, [])
      else
        ({| prevByWaRef := prevByWaRef r;
            persistInFlightRef := Some currentSig |},
         [ToastPromise currentSig (successKey triggeredBy) isLocalized]).

(** [persistCustomerRow] after its second [await]: the save resolved, or it
    rejected and the [catch] swallows the exception. *)
Definition settle (resolved : bool) (p : SavePayload) (r : PersistRefs) : PersistRefs :=
  if resolved then
    {| prevByWaRef := <[sp_waId p := {| sn_name := sp_name p; sn_age := sp_age p |}]>
                        (prevByWaRef r);
       persistInFlightRef := None |}
  else r.

(** [persistCustomerRow] up to its second [await], taken at the moment its
    two cell reads have resolved: the refs are read only after them, and the
    data source is a function, so that the time of the reads makes no
    difference. *)
Definition persistCustomerRow (waId : string)
    (customerColumns : list IColumnDefinition) (customerDataSource : IDataSource)
    (triggeredBy : option Field) (isLocalized : bool) (r : PersistRefs)
    : PersistRefs * list Effect :=
  match readRow waId customerColumns customerDataSource with
  | Some (nameVal, ageVal) => afterRead waId triggeredBy isLocalized nameVal ageVal r
  | None => (r, [])
  end.

End CustomerPersist.

(** ** The documents page: page.tsx with use-document-persist-events.ts and
    use-document-selection.ts *)

Module DocumentsPage.
Import UseDocumentUnlock CustomerPersist.

(** The page calls [useDocumentPersistEvents] twice: first with the subject
    [""], no columns and [{}] as data source, to obtain the [persistTimerRef]
    it hands to [useDocumentSelection]; then with the selected subject and
    the customer row. *)
Inductive HookInstance := First | Second.

#[global] Instance HookInstance_eq_dec : EqDecision HookInstance.
Proof. solve_decision. Defined.

(** What the callback of a debounce timeout closes over: the arguments the
    hook instance had in the render that registered the listener, and the
    field of the event. *)
Record PersistTask := {
  pt_instance : HookInstance;
  pt_waId : string;
  pt_columns : list IColumnDefinition;
  pt_dataSource : IDataSource;
  pt_field : Field;
  pt_isLocalized : bool
}.

(** The state of the page as far as the persist path goes: the selected
    subject, the customer row handed out by [useDocumentCustomerRow], the
    page's [ignorePersistUntilRef] and [pendingInitialLoadWaIdRef], the refs
    of the two [useDocumentPersistEvents] instances, the window's timeouts
    armed by them, the [globalThis] guards, the calls of
    [ensureDocumentInitialized] and the toasts and saves issued. *)
Record Page := {
  waId : string;
  isLocalized : bool;
  customerColumns : list IColumnDefinition;
  customerDataSource : IDataSource;
  ignorePersistUntilRef : Z;
  pendingInitialLoadWaIdRef : option string;
  persistTimerRef1 : option nat;
  persistTimerRef2 : option nat;
  persistRefs1 : PersistRefs;
  persistRefs2 : PersistRefs;
  timeouts : list (nat * PersistTask);
  nextTimeout : nat;
  docIgnoreChangesUntil : option Z;
  docSuppressPersistUntil : option Z;
  initialized : list string;
  effects : list Effect
}.

Definition set_waId (v : string) (pg : Page) : Page :=
  Build_Page v (isLocalized pg) (customerColumns pg) (customerDataSource pg)
    (ignorePersistUntilRef pg) (pendingInitialLoadWaIdRef pg)
    (persistTimerRef1 pg) (persistTimerRef2 pg) (persistRefs1 pg)
    (persistRefs2 pg) (timeouts pg) (nextTimeout pg)
    (docIgnoreChangesUntil pg) (docSuppressPersistUntil pg) (initialized pg)
    (effects pg).

Definition set_isLocalized (v : bool) (pg : Page) : Page :=
  Build_Page (waId pg) v (customerColumns pg) (customerDataSource pg)
    (ignorePersistUntilRef pg) (pendingInitialLoadWaIdRef pg)
    (persistTimerRef1 pg) (persistTimerRef2 pg) (persistRefs1 pg)
    (persistRefs2 pg) (timeouts pg) (nextTimeout pg)
    (docIgnoreChangesUntil pg) (docSuppressPersistUntil pg) (initialized pg)
    (effects pg).

Definition set_customerColumns (v : list IColumnDefinition)
    (pg : Page) : Page :=
  Build_Page (waId pg) (isLocalized pg) v (customerDataSource pg)
    (ignorePersistUntilRef pg) (pendingInitialLoadWaIdRef pg)
    (persistTimerRef1 pg) (persistTimerRef2 pg) (persistRefs1 pg)
    (persistRefs2 pg) (timeouts pg) (nextTimeout pg)
    (docIgnoreChangesUntil pg) (docSuppressPersistUntil pg) (initialized pg)
    (effects pg).

Definition set_customerDataSource (v : IDataSource) (pg : Page) : Page :=
  Build_Page (waId pg) (isLocalized pg) (customerColumns pg) v
    (ignorePersistUntilRef pg) (pendingInitialLoadWaIdRef pg)
    (persistTimerRef1 pg) (persistTimerRef2 pg) (persistRefs1 pg)
    (persistRefs2 pg) (timeouts pg) (nextTimeout pg)
    (docIgnoreChangesUntil pg) (docSuppressPersistUntil pg) (initialized pg)
    (effects pg).

Definition set_ignorePersistUntilRef (v : Z) (pg : Page) : Page :=
  Build_Page (waId pg) (isLocalized pg) (customerColumns pg)
    (customerDataSource pg) v (pendingInitialLoadWaIdRef pg)
    (persistTimerRef1 pg) (persistTimerRef2 pg) (persistRefs1 pg)
    (persistRefs2 pg) (timeouts pg) (nextTimeout pg)
    (docIgnoreChangesUntil pg) (docSuppressPersistUntil pg) (initialized pg)
    (effects pg).

Definition set_pendingInitialLoadWaIdRef (v : option string)
    (pg : Page) : Page :=
  Build_Page (waId pg) (isLocalized pg) (customerColumns pg)
    (customerDataSource pg) (ignorePersistUntilRef pg) v
    (persistTimerRef1 pg) (persistTimerRef2 pg) (persistRefs1 pg)
    (persistRefs2 pg) (timeouts pg) (nextTimeout pg)
    (docIgnoreChangesUntil pg) (docSuppressPersistUntil pg) (initialized pg)
    (effects pg).

Definition set_persistTimerRef1 (v : option nat) (pg : Page) : Page :=
  Build_Page (waId pg) (isLocalized pg) (customerColumns pg)
    (customerDataSource pg) (ignorePersistUntilRef pg)
    (pendingInitialLoadWaIdRef pg) v (persistTimerRef2 pg) (persistRefs1 pg)
    (persistRefs2 pg) (timeouts pg) (nextTimeout pg)
    (docIgnoreChangesUntil pg) (docSuppressPersistUntil pg) (initialized pg)
    (effects pg).

Definition set_persistTimerRef2 (v : option nat) (pg : Page) : Page :=
  Build_Page (waId pg) (isLocalized pg) (customerColumns pg)
    (customerDataSource pg) (ignorePersistUntilRef pg)
    (pendingInitialLoadWaIdRef pg) (persistTimerRef1 pg) v (persistRefs1 pg)
    (persistRefs2 pg) (timeouts pg) (nextTimeout pg)
    (docIgnoreChangesUntil pg) (docSuppressPersistUntil pg) (initialized pg)
    (effects pg).

Definition set_persistRefs1 (v : PersistRefs) (pg : Page) : Page :=
  Build_Page (waId pg) (isLocalized pg) (customerColumns pg)
    (customerDataSource pg) (ignorePersistUntilRef pg)
    (pendingInitialLoadWaIdRef pg) (persistTimerRef1 pg)
    (persistTimerRef2 pg) v (persistRefs2 pg) (timeouts pg) (nextTimeout pg)
    (docIgnoreChangesUntil pg) (docSuppressPersistUntil pg) (initialized pg)
    (effects pg).

Definition set_persistRefs2 (v : PersistRefs) (pg : Page) : Page :=
  Build_Page (waId pg) (isLocalized pg) (customerColumns pg)
    (customerDataSource pg) (ignorePersistUntilRef pg)
    (pendingInitialLoadWaIdRef pg) (persistTimerRef1 pg)
    (persistTimerRef2 pg) (persistRefs1 pg) v (timeouts pg) (nextTimeout pg)
    (docIgnoreChangesUntil pg) (docSuppressPersistUntil pg) (initialized pg)
    (effects pg).

Definition set_timeouts (v : list (nat * PersistTask)) (pg : Page) : Page :=
  Build_Page (waId pg) (isLocalized pg) (customerColumns pg)
    (customerDataSource pg) (ignorePersistUntilRef pg)
    (pendingInitialLoadWaIdRef pg) (persistTimerRef1 pg)
    (persistTimerRef2 pg) (persistRefs1 pg) (persistRefs2 pg) v
    (nextTimeout pg) (docIgnoreChangesUntil pg) (docSuppressPersistUntil pg)
    (initialized pg) (effects pg).

Definition set_nextTimeout (v : nat) (pg : Page) : Page :=
  Build_Page (waId pg) (isLocalized pg) (customerColumns pg)
    (customerDataSource pg) (ignorePersistUntilRef pg)
    (pendingInitialLoadWaIdRef pg) (persistTimerRef1 pg)
    (persistTimerRef2 pg) (persistRefs1 pg) (persistRefs2 pg) (timeouts pg) v
    (docIgnoreChangesUntil pg) (docSuppressPersistUntil pg) (initialized pg)
    (effects pg).

Definition set_docIgnoreChangesUntil (v : option Z) (pg : Page) : Page :=
  Build_Page (waId pg) (isLocalized pg) (customerColumns pg)
    (customerDataSource pg) (ignorePersistUntilRef pg)
    (pendingInitialLoadWaIdRef pg) (persistTimerRef1 pg)
    (persistTimerRef2 pg) (persistRefs1 pg) (persistRefs2 pg) (timeouts pg)
    (nextTimeout pg) v (docSuppressPersistUntil pg) (initialized pg)
    (effects pg).

Definition set_docSuppressPersistUntil (v : option Z) (pg : Page) : Page :=
  Build_Page (waId pg) (isLocalized pg) (customerColumns pg)
    (customerDataSource pg) (ignorePersistUntilRef pg)
    (pendingInitialLoadWaIdRef pg) (persistTimerRef1 pg)
    (persistTimerRef2 pg) (persistRefs1 pg) (persistRefs2 pg) (timeouts pg)
    (nextTimeout pg) (docIgnoreChangesUntil pg) v (initialized pg)
    (effects pg).

Definition set_initialized (v : list string) (pg : Page) : Page :=
  Build_Page (waId pg) (isLocalized pg) (customerColumns pg)
    (customerDataSource pg) (ignorePersistUntilRef pg)
    (pendingInitialLoadWaIdRef pg) (persistTimerRef1 pg)
    (persistTimerRef2 pg) (persistRefs1 pg) (persistRefs2 pg) (timeouts pg)
    (nextTimeout pg) (docIgnoreChangesUntil pg) (docSuppressPersistUntil pg)
    v (effects pg).

Definition set_effects (v : list Effect) (pg : Page) : Page :=
  Build_Page (waId pg) (isLocalized pg) (customerColumns pg)
    (customerDataSource pg) (ignorePersistUntilRef pg)
    (pendingInitialLoadWaIdRef pg) (persistTimerRef1 pg)
    (persistTimerRef2 pg) (persistRefs1 pg) (persistRefs2 pg) (timeouts pg)
    (nextTimeout pg) (docIgnoreChangesUntil pg) (docSuppressPersistUntil pg)
    (initialized pg) v.

(** The refs of an instance. *)
Definition persistTimerRef (i : HookInstance) (pg : Page) : option nat :=
  match i with
  | First => persistTimerRef1 pg
  | Second => persistTimerRef2 pg
  end.

Definition set_persistTimerRef (i : HookInstance) (v : option nat) (pg : Page) : Page :=
  match i with
  | First => set_persistTimerRef1 v pg
  | Second => set_persistTimerRef2 v pg
  end.

Definition persistRefs (i : HookInstance) (pg : Page) : PersistRefs :=
  match i with
  | First => persistRefs1 pg
  | Second => persistRefs2 pg
  end.

Definition set_persistRefs (i : HookInstance) (v : PersistRefs) (pg : Page) : Page :=
  match i with
  | First => set_persistRefs1 v pg
  | Second => set_persistRefs2 v pg
  end.

(** [{} as IDataSource]: it has no [getCellData] to call. *)
Definition emptyDataSource : IDataSource := fun _ _ => Throws.

(** The arguments of an instance in the current render. *)
Definition taskOf (i : HookInstance) (field : Field) (pg : Page) : PersistTask :=
  match i with
  | First =>
      {| pt_instance := First; pt_waId := ""; pt_columns := [];
         pt_dataSource := emptyDataSource; pt_field := field;
         pt_isLocalized := isLocalized pg |}
  | Second =>
      {| pt_instance := Second; pt_waId := waId pg;
         pt_columns := customerColumns pg;
         pt_dataSource := customerDataSource pg; pt_field := field;
         pt_isLocalized := isLocalized pg |}
  end.

(** [window.setTimeout(cb, 280)] for instance [i]; the handle is kept in its
    [persistTimerRef]. *)
Definition setTimeout (i : HookInstance) (t : PersistTask) (pg : Page) : Page :=
  let h := nextTimeout pg in
  pg |> set_timeouts (timeouts pg ++ [(h, t)])
     |> set_nextTimeout (S h)
     |> set_persistTimerRef i (Some h).

(** [clearTimeout(h)] *)
Definition clearTimeout (h : nat) (pg : Page) : Page :=
  set_timeouts (filter (fun t => fst t <> h) (timeouts pg)) pg.

(** [f === "age" || f === "name" || f === "phone"] *)
Definition fieldOf (f : string) : option Field :=
  if bool_decide (f = "age") then Some FAge
  else if bool_decide (f = "name") then Some FName
  else if bool_decide (f = "phone") then Some FPhone
  else None.

(** The [doc:persist] listener of instance [i]. *)
Definition onDocPersist (i : HookInstance) (field : option string) (now : Z)
    (pg : Page) : Page :=
  let f := default "" field in
  if now <? ignorePersistUntilRef pg then pg
  else if match docSuppressPersistUntil pg with
          | Some suppressUntil => now <? suppressUntil
          | None => false
          end then pg
  else
    match fieldOf f with
    | Some fld =>
        let pg := match persistTimerRef i pg with
                  | Some h => if negb (h =? 0)%nat then clearTimeout h pg else pg
                  | None => pg
                  end in
        setTimeout i (taskOf i fld pg) pg
    | None => pg
    end.

(** A [doc:persist] event reaches the listeners of both instances. *)
Definition docPersist (field : option string) (now : Z) (pg : Page) : Page :=
  pg |> onDocPersist First field now |> onDocPersist Second field now.

(** The debounce timeout registered under handle [h] runs:
    [persistCustomerRow] is called with what the callback closed over and
    with the refs of its instance, and runs up to its second [await]. *)
Definition onPersistTimer (h : nat) (pg : Page) : Page :=
  match filter (fun t => fst t = h) (timeouts pg) with
  | (_, t) :: _ =>
      let pg := clearTimeout h pg in
      let '(r, out) :=
        persistCustomerRow (pt_waId t) (pt_columns t) (pt_dataSource t)
          (Some (pt_field t)) (pt_isLocalized t) (persistRefs (pt_instance t) pg) in
      pg |> set_persistRefs (pt_instance t) r
         |> set_effects (effects pg ++ out)
  | [] => pg
  end.

(** The save started by instance [i] for [p] resolves or rejects. *)
Definition onSaveSettled (i : HookInstance) (resolved : bool) (p : SavePayload)
    (pg : Page) : Page :=
  set_persistRefs i (settle resolved p (persistRefs i pg)) pg.

(** The guards both selection paths of [useDocumentSelection] set before
    they switch to [next]; its [persistTimerRef] option is the ref of the
    first instance. *)
Definition switchTo (next : string) (now : Z) (pg : Page) : Page :=
  let pg := set_ignorePersistUntilRef (now + 900) pg in
  let pg := match persistTimerRef1 pg with
            | Some h =>
                if negb (h =? 0)%nat
                then pg |> clearTimeout h |> set_persistTimerRef1 None
                else pg
            | None => pg
            end in
  pg |> set_docIgnoreChangesUntil (Some (now + 1500))
     |> set_pendingInitialLoadWaIdRef (Some next)
     |> set_initialized (initialized pg ++ [next])
     |> set_waId next.

(** The [doc:user-select] listener of [useDocumentSelection]. *)
Definition onUserSelect (detailWaId : option string) (now : Z) (pg : Page) : Page :=
  let next := default "" detailWaId in
  if bool_decide (next = "") then pg else switchTo next now pg.

(** The effect of [useDocumentSelection] that reads [?waId=] from the URL. *)
Definition urlParamEffect (urlWaId : option string) (now : Z) (pg : Page) : Page :=
  match urlWaId with
  | Some w =>
      if negb (bool_decide (w = "")) && negb (bool_decide (w = DEFAULT_DOCUMENT_WA_ID))
      then switchTo w now pg
      else pg
  | None => pg
  end.

(** The page after its first render and the mount effect of
    [useDocumentSelection], with the customer row of the blank subject. *)
Definition initialPage (localized : bool) (columns : list IColumnDefinition)
    (source : IDataSource) : Page :=
  {| waId := DEFAULT_DOCUMENT_WA_ID; isLocalized := localized;
     customerColumns := columns; customerDataSource := source;
     ignorePersistUntilRef := 0;
     pendingInitialLoadWaIdRef := Some DEFAULT_DOCUMENT_WA_ID;
     persistTimerRef1 := None; persistTimerRef2 := None;
     persistRefs1 := {| prevByWaRef := ∅; persistInFlightRef := None |};
     persistRefs2 := {| prevByWaRef := ∅; persistInFlightRef := None |};
     timeouts := []; nextTimeout := 1;
     docIgnoreChangesUntil := None; docSuppressPersistUntil := None;
     initialized := []; effects := [] |}.

(** What can happen to the page. *)
Inductive PageEvent :=
| PgDocPersist (field : option string) (now : Z)
| PgPersistTimer (h : nat)
| PgSaveSettled (i : HookInstance) (resolved : bool) (p : SavePayload)
| PgUserSelect (detailWaId : option string) (now : Z)
| PgUrlParam (urlWaId : option string) (now : Z)
| PgCustomerRow (columns : list IColumnDefinition) (source : IDataSource)
| PgSuppressPersist (until : Z).

Definition pageStep (e : PageEvent) (pg : Page) : Page :=
  match e with
  | PgDocPersist field now => docPersist field now pg
  | PgPersistTimer h => onPersistTimer h pg
  | PgSaveSettled i resolved p => onSaveSettled i resolved p pg
  | PgUserSelect detailWaId now => onUserSelect detailWaId now pg
  | PgUrlParam urlWaId now => urlParamEffect urlWaId now pg
  | PgCustomerRow columns source =>
      pg |> set_customerColumns columns |> set_customerDataSource source
  | PgSuppressPersist until => set_docSuppressPersistUntil (Some until) pg
  end.

Fixpoint pageRun (evs : list PageEvent) (pg : Page) : Page :=
  match evs with
  | [] => pg
  | e :: evs => pageRun evs (pageStep e pg)
  end.

End DocumentsPage.

(** ** The customer fetch: shared/libs/api/index.ts *)

Module CustomerApi.

(** The characters [encodeURIComponent] leaves as they are: the ASCII
    letters and digits and [- _ . ! ~ * ' ( )]. *)
Definition unreserved (c : Ascii.ascii) : bool :=
  let n := Ascii.nat_of_ascii c in
  ((65 <=? n)%nat && (n <=? 90)%nat)
  || ((97 <=? n)%nat && (n <=? 122)%nat)
  || ((48 <=? n)%nat && (n <=? 57)%nat)
  || (n =? 45)%nat || (n =? 95)%nat || (n =? 46)%nat || (n =? 33)%nat
  || (n =? 126)%nat || (n =? 42)%nat || (n =? 39)%nat || (n =? 40)%nat
  || (n =? 41)%nat.

(** The character [%]. *)
Definition percent : Ascii.ascii := Ascii.ascii_of_nat 37.

(** The upper-case hexadecimal digit of a number below 16. *)
Definition hexDigit (n : nat) : Ascii.ascii :=
  Ascii.ascii_of_nat (if (n <? 10)%nat then 48 + n else 55 + n).

(** [encodeURIComponent] of a well-formed string, read as the sequence of
    its UTF-8 bytes: a byte that is not unreserved becomes [%XX]. *)
Fixpoint encodeURIComponent (s : string) : string :=
  match s with
  | EmptyString => EmptyString
  | String c rest =>
      if unreserved c then String c (encodeURIComponent rest)
      else
        let n := Ascii.nat_of_ascii c in
        String percent (String (hexDigit (n / 16)) (String (hexDigit (n mod 16))
          (encodeURIComponent rest)))
  end.

Definition CUSTOMER_FETCH_TTL_MS : Z := 1500.

Section WithJson.

(** The type of the backend's answers. *)
Context {Json : Type}.

(** An entry of [customerFetchCache]. *)
Record CacheEntry := { at_ : Z; data : Json }.

(** The two module-level maps, keyed by the encoded id; the promises of the
    fetch tasks (by identity) that have not settled, each with the id it
    fetches; and the ids for which a fetch task was started (a task sends
    its GET once the backend module is imported). *)
Record ApiState := {
  customerFetchInFlight : gmap string nat;
  customerFetchCache : gmap string CacheEntry;
  unsettled : list (nat * string);
  nextPromise : nat;
  requests : list string
}.

(** What [fetchCustomer] returns: a promise that is already resolved with
    cached data, or one that follows a fetch task. *)
Inductive Fetched :=
| FromCache (d : Json)
| Follows (task : nat).

(** [fetchCustomer(waId)] called at time [now], up to the point where the
    fetch task waits for the backend. *)
Definition fetchCustomer (waId : string) (now : Z) (a : ApiState) : Fetched * ApiState :=
  let id := encodeURIComponent waId in
  let fresh :=
    match customerFetchCache a !! id with
    | Some cached => if now - at_ cached <? CUSTOMER_FETCH_TTL_MS then Some cached else None
    | None => None
    end in
  match fresh with
  | Some cached => (FromCache (data cached), a)
  | None =>
      match customerFetchInFlight a !! id with
      | Some existing => (Follows existing, a)
      | None =>
          let task := nextPromise a in
          (Follows task,
           {| customerFetchInFlight := <[id := task]> (customerFetchInFlight a);
              customerFetchCache := customerFetchCache a;
              unsettled := unsettled a ++ [(task, id)];
              nextPromise := S task;
              requests := requests a ++ [id] |})
      end
  end.

(** The backend answers the GET of fetch task [task] at time [now]: the
    cache is filled and the [finally] block clears the in-flight entry. *)
Definition onResolved (task : nat) (result : Json) (now : Z) (a : ApiState) : ApiState :=
  match filter (fun t => fst t = task) (unsettled a) with
  | (_, id) :: _ =>
      {| customerFetchInFlight := delete id (customerFetchInFlight a);
         customerFetchCache := <[id := {| at_ := now; data := result |}]>
                                 (customerFetchCache a);
         unsettled := filter (fun t => fst t <> task) (unsettled a);
         nextPromise := nextPromise a;
         requests := requests a |}
  | [] => a
  end.

(** The GET of fetch task [task] fails: only the [finally] block runs. *)
Definition onRejected (task : nat) (a : ApiState) : ApiState :=
  match filter (fun t => fst t = task) (unsettled a) with
  | (_, id) :: _ =>
      {| customerFetchInFlight := delete id (customerFetchInFlight a);
         customerFetchCache := customerFetchCache a;
         unsettled := filter (fun t => fst t <> task) (unsettled a);
         nextPromise := nextPromise a;
         requests := requests a |}
  | [] => a
  end.

(** The module right after it is loaded. *)
Definition initialApi : ApiState :=
  {| customerFetchInFlight := ∅; customerFetchCache := ∅; unsettled := [];
     nextPromise := 0; requests := [] |}.

Inductive ApiEvent :=
| ApFetch (waId : string) (now : Z)
| ApResolved (task : nat) (result : Json) (now : Z)
| ApRejected (task : nat).

Definition apiStep (e : ApiEvent) (a : ApiState) : ApiState :=
  match e with
  | ApFetch waId now => snd (fetchCustomer waId now a)
  | ApResolved task result now => onResolved task result now a
  | ApRejected task => onRejected task a
  end.

Fixpoint apiRun (evs : list ApiEvent) (a : ApiState) : ApiState :=
  match evs with
  | [] => a
  | e :: evs => apiRun evs (apiStep e a)
  end.

End WithJson.

Arguments ApiState : clear implicits.
Arguments ApiEvent : clear implicits.
Arguments CacheEntry : clear implicits.
Arguments Fetched : clear implicits.

End CustomerApi.

(** * Vocabulary of the properties *)

(** ** Cameras *)

Section CameraVocabulary.
Import UseDocumentScene.

(** The camera as its signature sees it: the zoom in thousandths and the
    scroll offsets in whole pixels. *)
Definition roundedCamera (c : AppState) : Z * Z * Z :=
  (Math_round (nullish (zoom c) 1 * 1000)%Q,
   Math_round (nullish (scrollX c) 0%Q),
   Math_round (nullish (scrollY c) 0%Q)).

End CameraVocabulary.

(** ** Runs of the session controller *)

Section OnlyAtVocabulary.
Context {A : Type} (P : A -> Prop).

(** The entries of [l] satisfying [P] sit at index [o] at most; with
    [o = None] there is none. *)
Definition only_at (o : option nat) (l : list A) : Prop :=
  forall i c, l !! i = Some c -> P c -> o = Some i.

End OnlyAtVocabulary.

Section SceneVocabulary.
Import UseDocumentScene.
Context `{ext : Externals}.





(** An idle controller with a pending timer; a ticking heartbeat. *)
Definition pending (c : IdleController) : Prop := idle_pending c <> None.
Definition running (c : IntervalController) : Prop := int_running c = true.

(** No controller created so far has a pending timer or is ticking. *)
Definition dormant (s : Hook) : Prop :=
  only_at pending None (idleControllers s)
  /\ only_at running None (intervalControllers s).

(** The controller a ref designates while a subject is bound. *)
Definition bound (s : Hook) (ref : option nat) : option nat :=
  if bool_decide (waId (props s) = "") then None else ref.

(** Only the current controllers can have a pending timer or tick, and only
    while a subject is bound. *)
Definition wf (s : Hook) : Prop :=
  only_at pending (bound s (idleControllerRef s)) (idleControllers s)
  /\ only_at running (bound s (intervalControllerRef s)) (intervalControllers s).

(** What the controllers lemmas track of a state. *)
Definition ctl (s : Hook) :=
  (waId (props s), idleControllerRef s, idleControllers s,
   intervalControllerRef s, intervalControllers s).





End SceneVocabulary.

(** ** The mirror *)

Module MirrorVocabulary.
Import UseDualCanvas.

(** The update pushed while a pointer is active: the elements and nothing
    else. *)
Definition elementsOnly (elements : ObjRef) : UpdateSceneArgs :=
  {| u_elements := elements; u_appState := None; u_files := None |}.

(** The part of [handleCanvasChange] that depends on the regime, for an
    active pointer. *)
Definition activeBranch (elements : ObjRef) (m : Mirror) : Mirror :=
  let m := cancelPending m in
  if viewerApiReady m then updateScene (elementsOnly elements) m else m.

End MirrorVocabulary.

(** ** The throttle *)

Section ThrottleVocabulary.
Import SceneThrottle.

(** Consecutive entries of a list of clock readings lie at least [gap]
    apart. *)
Fixpoint spaced (gap : Z) (ts : list Z) : Prop :=
  match ts with
  | t1 :: rest =>
      match rest with
      | t2 :: _ => t1 + gap <= t2
      | [] => True
      end /\ spaced gap rest
  | [] => True
  end.

(** The throttle's ref and the window agree: no timeout is armed while the
    ref is [null]; otherwise exactly the one the ref names is armed, a call is
    waiting for it, and it is due 50 ms after the last call of the intake. *)
Definition throttle_wf (m : Throttled) : Prop :=
  match hookThrottleTimerRef m with
  | Some h =>
      exists p, throttleTimers m = [(h, (lastHookCallRef m + 50, p))]
                /\ pendingHookCallRef m <> None
  | None => throttleTimers m = []
  end.

(** The calls of the intake so far are spaced, and [lastHookCallRef] holds
    the clock of the last one. *)
Definition paced (m : Throttled) : Prop :=
  spaced 50 (map fst (internalCalls m))
  /\ forall t, last (map fst (internalCalls m)) = Some t -> t = lastHookCallRef m.

End ThrottleVocabulary.

(** ** Runs of the mirror *)

Module MirrorRunVocabulary.
Import UseDualCanvas.

(** The refs of the mirror and the browser's queues agree: a frame is queued
    exactly when [liveSceneRafRef] names it, a timeout exactly when
    [liveSceneTimeoutRef] names it, and never both. *)
Definition mirror_wf (m : Mirror) : Prop :=
  match liveSceneRafRef m, liveSceneTimeoutRef m with
  | None, None => frames m = [] /\ timeouts m = []
  | Some h, None => (exists t, frames m = [(h, t)]) /\ timeouts m = []
  | None, Some h => frames m = [] /\ timeouts m = [h]
  | Some _, Some _ => False
  end.

(** The viewer as the user sees it after a frame that shows [t]: the last
    call on its API, or the [liveScene] state while the API is missing. *)
Definition shows (t : FrameTask) (camera : AppState) (before m : Mirror) : Prop :=
  if viewerApiReady before then
    viewerCalls m
    = (viewerCalls before
         ++ [{| u_elements := ft_elements t; u_appState := Some camera;
                u_files := Some (ft_files t) |}])%list
    /\ liveScene m = liveScene before
  else
    viewerCalls m = viewerCalls before
    /\ liveScene m = Some {| ls_elements := ft_elements t; ls_appState := camera;
                             ls_files := ft_files t |}.

End MirrorRunVocabulary.

(** ** The heartbeat *)

Section HeartbeatVocabulary.
Import UseDocumentScene.
Context `{ext : Externals}.

(** A render that leaves the dependencies of the heartbeat effect
    ([enabled], [waId], [isUnlocked]) as the props [p0] have them; any event
    that is not a render does. *)
Definition keeps_heartbeat_deps (p0 : Props) (e : Event) : bool :=
  match e with
  | EvRender p =>
      Bool.eqb (enabled p0) (enabled p)
      && bool_decide (waId p0 = waId p)
      && Bool.eqb (isUnlocked p0) (isUnlocked p)
  | _ => true
  end.

(** What the heartbeat lemmas track of a state. *)
Definition hbview (s : Hook) :=
  (enabled (props s), waId (props s), isUnlocked (props s), intervalControllers s).

(** From [s] to [s'] the persist log stays as it is or grows by one
    persist that no heartbeat triggered. *)
Definition grows_without_heartbeat (s s' : Hook) : Prop :=
  persistLog s' = persistLog s
  \/ exists r, persistLog s' = (persistLog s ++ [r])%list /\ pr_trigger r <> Heartbeat.

End HeartbeatVocabulary.

(** ** The customer row *)

Section PersistVocabulary.
Import CustomerPersist.

(** The effect is a save request. *)
Definition is_put (e : Effect) : bool :=
  match e with
  | ToastPromise _ _ _ => true
  | ToastSuccess _ _ => false
  end.

End PersistVocabulary.

Section PageVocabulary.
Import CustomerPersist DocumentsPage.

(** The debounce timeouts of instance [i] that the window holds. *)
Definition armed (i : HookInstance) (pg : Page) : list (nat * PersistTask) :=
  filter (fun t => pt_instance (snd t) = i) (timeouts pg).

(** The refs of the two instances and the window agree: an instance has at
    most one debounce timeout armed, the one its ref names; the refs name
    handles the window has given out, never the same one; and the first
    instance arms its timeouts for the blank subject. *)
Definition page_wf (pg : Page) : Prop :=
  (forall i, armed i pg = []
             \/ exists h t, armed i pg = [(h, t)] /\ persistTimerRef i pg = Some h
                             /\ (i = First -> pt_waId t = ""))
  /\ (forall i h, persistTimerRef i pg = Some h -> (0 < h < nextTimeout pg)%nat)
  /\ (forall h, persistTimerRef1 pg = Some h -> persistTimerRef2 pg <> Some h)
  /\ (0 < nextTimeout pg)%nat.

(** The guards of the [doc:persist] listeners let an event at [now]
    through. *)
Definition persist_unguarded (now : Z) (pg : Page) : Prop :=
  ignorePersistUntilRef pg <= now
  /\ forall until, docSuppressPersistUntil pg = Some until -> until <= now.

End PageVocabulary.

(** ** The customer fetch *)

Section ApiVocabulary.
Import CustomerApi.
Context {Json : Type}.

(** The GETs for [id] that are under way. *)
Definition underWay (id : string) (a : ApiState Json) : list (nat * string) :=
  filter (fun t => snd t = id) (unsettled a).

(** The in-flight map and the unsettled fetch tasks agree: an id has a GET
    under way exactly when the map holds its task, and then only that
    one. *)
Definition api_wf (a : ApiState Json) : Prop :=
  (forall id,
     match customerFetchInFlight a !! id with
     | Some task => underWay id a = [(task, id)]
     | None => underWay id a = []
     end)
  /\ (forall task id, (task, id) ∈ unsettled a -> (task < nextPromise a)%nat)
  /\ (forall task id1 id2,
        (task, id1) ∈ unsettled a -> (task, id2) ∈ unsettled a -> id1 = id2).

(** No cache entry for [id] is fresh at time [now]. *)
Definition stale (id : string) (now : Z) (a : ApiState Json) : Prop :=
  forall cached, customerFetchCache a !! id = Some cached ->
                 CUSTOMER_FETCH_TTL_MS <= now - at_ cached.

End ApiVocabulary.

(** * Fixtures *)

Module UnlockFixtures.
Import UseDocumentUnlock.

(** A customer grid with the columns [name], [age] and [phone]. *)
Definition customerColumns : list IColumnDefinition :=
  [ {| id := "name" |}; {| id := "age" |}; {| id := "phone" |} ].

(** A data source whose row 0 holds a name and a phone number. *)
Definition filledSource : IDataSource :=
  fun col row =>
    if (col =? 0) && (row =? 0) then Returns (VString " Ada ")
    else if (col =? 2) && (row =? 0) then Returns (VString " +216 20 000 000")
    else Returns VUndefined.

(** A data source whose phone cell cannot be read. *)
Definition brokenSource : IDataSource :=
  fun col row =>
    if (col =? 0) && (row =? 0) then Returns (VString "Ada")
    else if (col =? 2) && (row =? 0) then Throws
    else Returns VUndefined.

End UnlockFixtures.

Module SceneFixtures.
Import UseDocumentScene.

(** Stand-ins for the imported helpers: a document is a scene already, a
    missing document is an empty scene, and the content signature tells
    element arrays apart by identity. *)
Definition emptyScene : Scene :=
  {| elements := Literal; appState := emptyAppState; files := Literal;
     viewerAppState := None; editorAppState := None |}.

Definition demoSignature (elements : Handle) (appState : AppState) (files : Handle) : string :=
  match elements with
  | Literal => "sig-empty"
  | Obj r => "sig-" +:+ show_int (Z.of_nat r)
  end.

Definition demoExternals : Externals :=
  {| Doc := Scene;
     DEFAULT_DOCUMENT_WA_ID := "";
     toSceneFromDoc := default emptyScene;
     computeDocumentSignature := demoSignature |}.

#[local] Existing Instance demoExternals.

Definition propsFor (w : string) : Props :=
  {| waId := w; enabled := true; isUnlocked := true; autoLoadOnMount := true |}.

Definition camera (z x y : Q) : AppState :=
  {| zoom := Some z; scrollX := Some x; scrollY := Some y; otherKeys := [] |}.

(** A stored document with three elements' array [10] and a viewer camera. *)
Definition doc201 : Scene :=
  {| elements := Obj 10%nat; appState := emptyAppState; files := Obj 11%nat;
     viewerAppState := Some (camera 1 0 0); editorAppState := None |}.

(** Subject 201 is selected and its document arrives at time 1000. *)
Definition loaded201 : Hook :=
  run [EvExcalidrawAPI; EvExternalUpdate (Some "201") (Some doc201) 1000]
      (mount (propsFor "201")).

(** The user then adds an element at time 2000 (array [20]), the idle timer
    fires and the save is in flight. *)
Definition saving201 : Hook :=
  run [EvCanvasChange {| arr_ref := 20%nat; arr_length := 4%nat |} emptyAppState 11%nat None None 2000;
       EvIdleTimer 0%nat]
      loaded201.

Definition arr (r n : nat) : JsArray := {| arr_ref := r; arr_length := n |}.

(** The scene handed to [onSaved] once the save started in [saving201]
    resolves. *)
Definition saved201 : Scene :=
  {| elements := Obj 20%nat; appState := emptyAppState; files := Obj 11%nat;
     viewerAppState := Some (camera 1 0 0); editorAppState := None |}.

(** A run without external updates: the scene is applied, an edit is
    saved. *)
Definition quietRun : list Event :=
  [EvExcalidrawAPI; EvSceneApplied (Some "201") 1000;
   EvCanvasChange (arr 20 4) emptyAppState 11%nat None None 2000;
   EvIdleTimer 0%nat; EvIdleSaved saved201 5000].

(** Subject 201 with an edit waiting for its idle timer. *)
Definition history201 : list Event :=
  [EvExcalidrawAPI;
   EvExternalUpdate (Some "201") (Some doc201) 1000;
   EvCanvasChange (arr 20 4) emptyAppState 11%nat None None 2000].


End SceneFixtures.

Module MirrorFixtures.
Import UseDualCanvas.

(** A mirror in the middle of a drag, with a frame and a timeout queued;
    the viewer API is registered or not. *)
Definition dragging (viewerReady : bool) : Mirror :=
  {| viewerApiReady := viewerReady;
     viewerCameraRef := SceneFixtures.camera 1 0 0;
     lastLiveSceneUpdateRef := 900;
     pendingLiveSceneUpdateRef := Some {| ft_elements := 7%nat; ft_files := 8%nat |};
     liveSceneRafRef := Some 3%nat;
     liveSceneTimeoutRef := Some 4%nat;
     lastEditorCameraRef := emptyAppState;
     liveScene := None;
     docPointerActive := Some true;
     frames := [(3%nat, {| ft_elements := 5%nat; ft_files := 6%nat |})];
     timeouts := [4%nat];
     nextHandle := 5%nat;
     viewerCalls := [];
     intakeCalls := [] |}.

End MirrorFixtures.

Module ThrottleFixtures.
Import UseDocumentScene SceneThrottle.

(** Two strokes of a drawing: the element arrays [20] and [30]. *)
Definition stroke1 : HookCall :=
  {| hc_elements := SceneFixtures.arr 20 4; hc_appState := emptyAppState;
     hc_files := 11%nat; hc_viewerAppState := None; hc_editorAppState := None |}.

Definition stroke2 : HookCall :=
  {| hc_elements := SceneFixtures.arr 30 5; hc_appState := emptyAppState;
     hc_files := 11%nat; hc_viewerAppState := None; hc_editorAppState := None |}.

(** A session in which an edit is saved by the idle timer, the hook renders
    again with the same subject and lock, and a heartbeat timer ticks. *)
Definition steadyRun : list (Event (ext := SceneFixtures.demoExternals)) :=
  (SceneFixtures.quietRun
     ++ [EvRender {| waId := "201"; enabled := true; isUnlocked := true;
                     autoLoadOnMount := false |};
         EvHeartbeat 0%nat {| getSceneElementsIncludingDeleted := 20%nat;
                              getAppState := emptyAppState;
                              getFiles := 11%nat |}])%list.

End ThrottleFixtures.

Module ViewerFixtures.
Import UseDualCanvasViewer.

(** A stand-in for [computeSceneSignature]: it tells element arrays apart by
    identity and is empty for a scene without elements. *)
Definition demoSceneUtils : SceneUtils :=
  {| computeSceneSignature := fun elements _ _ =>
       match elements with
       | Some a => "scene-" +:+ show_int (Z.of_nat (arr_ref a))
       | None => ""
       end |}.

(** The stored document of subject 201 as the load listeners receive it. *)
Definition stored201 : LoadedScene :=
  {| ld_elements := Some (SceneFixtures.arr 10 3);
     ld_appState := Some emptyAppState;
     ld_files := Some 11%nat;
     ld_viewerAppState := Some (SceneFixtures.camera 1 0 0) |}.

(** A later version of it. *)
Definition updated201 : LoadedScene :=
  {| ld_elements := Some (SceneFixtures.arr 12 4);
     ld_appState := Some emptyAppState;
     ld_files := Some 11%nat;
     ld_viewerAppState := Some (SceneFixtures.camera 1 0 0) |}.

(** The hook of subject 201 after its scene was applied. *)
Definition viewing201 : Viewer :=
  loadRun (utils := demoSceneUtils)
    [LdSceneApplied (Some "201") (Some stored201)]
    (initialViewer "201" true true).

End ViewerFixtures.

Module PageFixtures.
Import CustomerPersist DocumentsPage.

(** The user selects subject 201 at time 1000 and the customer row
    arrives. *)
Definition select201 : list PageEvent :=
  [PgUserSelect (Some "201") 1000;
   PgCustomerRow UnlockFixtures.customerColumns UnlockFixtures.filledSource].


End PageFixtures.

(** * Properties *)

(** ** The unlock gate *)

Section UnlockFacts.
Import UseDocumentUnlock UnlockFixtures.




(** The gate never unlocks the blank document, whatever the state was. *)
Lemma recomputeUnlock_blank columns source st :
  recomputeUnlock "" columns source st = false.
Proof. unfold recomputeUnlock. simpl. by destruct st. Qed.


(** C10. The gate fails closed: when reading either validation cell throws,
    the recomputation ends locked. *)
Theorem unlock_fails_closed
    (waId : string) (columns : list IColumnDefinition) (source : IDataSource)
    (st : bool) :
  source (findIndex (fun c => bool_decide (id c = "name")) columns) 0 = Throws
  \/ source (findIndex (fun c => bool_decide (id c = "phone")) columns) 0 = Throws ->
  recomputeUnlock waId columns source st = false.
Proof.
  intros Hthrow. unfold recomputeUnlock.
  destruct (bool_decide (waId = "") || bool_decide (waId = DEFAULT_DOCUMENT_WA_ID)).
  - by destruct st.
  - destruct Hthrow as [-> | ->]; [done|].
    by destruct (source _ 0).
Qed.

Example unlock_filled :
  recomputeUnlock "21620000000" customerColumns filledSource false = true.
Proof. reflexivity. Qed.

Example unlock_phone_without_plus :
  recomputeUnlock "21620000000" customerColumns
    (fun col row => if col =? 0 then Returns (VString "Ada")
                    else Returns (VString "216 20")) true = false.
Proof. reflexivity. Qed.

Lemma unlock_fails_closed_witness :
  brokenSource (findIndex (fun c => bool_decide (id c = "phone")) customerColumns) 0
    = Throws
  /\ recomputeUnlock "21620000000" customerColumns brokenSource true = false.
Proof.
  split; [reflexivity|].
  apply (unlock_fails_closed "21620000000" customerColumns brokenSource true).
  right. reflexivity.
Defined.

End UnlockFacts.

(** ** The session controller *)

Import UseDocumentScene.

Section IntakeFacts.

Implicit Types (s : Hook) (now : Z) (elements : JsArray) (files : ObjRef).
Implicit Types (appState : AppState) (viewer editor : option AppState).

(** The early returns of the intake are exactly the negation of
    [intakeOpen]. *)
Lemma intake_closed s elements appState files viewer editor now :
  intakeOpen now s = false ->
  handleCanvasChangeInternal elements appState files viewer editor now s = s.
Proof.
  unfold intakeOpen, handleCanvasChangeInternal.
  destruct (enabled (props s)), (bool_decide (waId (props s) = "")),
    (isUnlocked (props s)), (initialSceneAppliedRef s),
    (now <? ignoreChangesUntilRef s), (globalSuppressed now s); simpl; done.
Qed.

Lemma intake_open s elements appState files viewer editor now :
  intakeOpen now s = true ->
  handleCanvasChangeInternal elements appState files viewer editor now s
  = intakeBody elements appState files viewer editor s.
Proof.
  unfold intakeOpen, handleCanvasChangeInternal.
  destruct (enabled (props s)), (bool_decide (waId (props s) = "")),
    (isUnlocked (props s)), (initialSceneAppliedRef s),
    (now <? ignoreChangesUntilRef s), (globalSuppressed now s); simpl; done.
Qed.



End IntakeFacts.

Section ClassificationFacts.

Implicit Types (s : Hook) (now : Z) (elements : JsArray) (files : ObjRef).
Implicit Types (appState : AppState) (viewer editor : option AppState).

(** Case analysis over the three classifications and the branches of the
    intake. *)
Ltac intake_cases s viewer editor :=
  unfold intakeBody, idle_schedule; cbv zeta;
  destruct (contentChanged _ _ s), (editorCameraChanged _ s),
    (viewerCameraChanged _ s), viewer, editor;
  destruct s as [? ? ? ? ? ? sv ? ? ? ? ? ? ? ic ? ? ? ? ? ? dy ? ? ? ? ? ?];
  destruct sv, dy, ic;
  try discriminate; try (repeat split; reflexivity).


Lemma intakeBody_isDirty_mono s elements appState files viewer editor :
  isDirtyRef s = true ->
  isDirtyRef (intakeBody elements appState files viewer editor s) = true.
Proof. intake_cases s viewer editor. Qed.



(** The status after an accepted change. *)
Lemma intakeBody_saveState s elements appState files viewer editor :
  saveState (intakeBody elements appState files viewer editor s)
  = if (contentChanged elements files s || editorCameraChanged editor s)
       && negb (isSavingRef s) && negb (isDirtyRef s)
    then Dirty else saveState s.
Proof. intake_cases s viewer editor. Qed.


(** An accepted change with anything classified as changed hands its
    payload to the current idle controller. *)
Lemma intakeBody_schedules s elements appState files viewer editor i c :
  idleControllerRef s = Some i ->
  idleControllers s !! i = Some c ->
  contentChanged elements files s || viewerCameraChanged viewer s
    || editorCameraChanged editor s = true ->
  exists p,
    idleControllers (intakeBody elements appState files viewer editor s) !! i
      = Some (schedule p c)
    /\ p_elements p = Obj (arr_ref elements)
    /\ p_files p = Obj files.
Proof.
  unfold intakeBody, idle_schedule. cbv zeta.
  destruct (contentChanged elements files s), (editorCameraChanged editor s),
    (viewerCameraChanged viewer s), viewer, editor;
    destruct s as [? ? ? ? ? ? sv ? ? ? ? ? ? ? ic ? ? ? ? ? ? dy ? ? ? cs ? ?];
    intros [= ->] Hc Hany; try discriminate;
    destruct sv, dy;
    simpl in Hc |- *;
    (eexists; split;
       [rewrite list_lookup_alter_eq, Hc; reflexivity | split; reflexivity]).
Qed.

(** C5. (amended) An accepted change notification moves the status to
    [dirty] when no save is in flight, the dirty tracker [isDirtyRef] is not
    set, and the content or the editor camera is classified as changed. *)
Theorem accepted_change_marks_dirty s elements appState files viewer editor now :
  intakeOpen now s = true ->
  isSavingRef s = false ->
  isDirtyRef s = false ->
  contentChanged elements files s = true \/ editorCameraChanged editor s = true ->
  saveState (handleCanvasChangeInternal elements appState files viewer editor now s)
  = Dirty.
Proof.
  intros Hopen Hs Hd Hch.
  rewrite intake_open by done. rewrite intakeBody_saveState, Hs, Hd.
  by destruct Hch as [-> | ->]; simpl; rewrite ?orb_true_r.
Qed.

(** A change of the viewer camera alone never touches the status. *)
Lemma viewer_only_change_keeps_status s elements appState files viewer editor now :
  contentChanged elements files s = false ->
  editorCameraChanged editor s = false ->
  saveState (handleCanvasChangeInternal elements appState files viewer editor now s)
  = saveState s.
Proof.
  intros Hc He.
  destruct (intakeOpen now s) eqn:Hopen.
  - rewrite intake_open by done. by rewrite intakeBody_saveState, Hc, He.
  - by rewrite intake_closed.
Qed.





End ClassificationFacts.

Section CallbackFacts.
Context `{ext : Externals}.

Implicit Types (s : Hook) (now : Z).

Ltac hook_cases s :=
  destruct s; repeat (simpl in *; case_match); simpl in *; try done.

(** C7. A persist failure reported to the [onError] callback of either
    scheduler clears the in-flight flag (the ref and its global mirror) and
    turns the status into [error], carrying the failure message when there
    is one. *)
Theorem persist_failure_clears_in_flight s (message : option string) :
  (isSavingRef (idle_onError message s) = false
   /\ docIsSaving (idle_onError message s) = Some false
   /\ saveState (idle_onError message s) = Error message)
  /\ (isSavingRef (interval_onError message s) = false
      /\ docIsSaving (interval_onError message s) = Some false
      /\ saveState (interval_onError message s) = Error message).
Proof. by destruct s. Qed.

(** After a failure the intake is as open as before, and an accepted edit
    of the content is handed to the current idle controller again. *)
Lemma edit_after_failure_is_rescheduled
    s (message : option string) elements appState files viewer editor now i c :
  intakeOpen now s = true ->
  idleControllerRef s = Some i ->
  idleControllers s !! i = Some c ->
  contentChanged elements files s = true ->
  let s' := handleCanvasChangeInternal elements appState files viewer editor now
              (idle_onError message s) in
  exists p, (idleControllers s' !! i = Some (schedule p c))
            /\ p_elements p = Obj (arr_ref elements)
            /\ p_files p = Obj files.
Proof.
  intros Hopen Hi Hc Hch s'. subst s'.
  rewrite intake_open by (by destruct s).
  apply intakeBody_schedules; [by destruct s..|].
  replace (contentChanged elements files (idle_onError message s)) with true
    by (by destruct s).
  done.
Qed.

(** The guards of the two window listeners. *)
Lemma onSceneApplied_bound (wa_id : option string) now s :
  waId (props s) <> "" ->
  default "" wa_id = waId (props s) ->
  onSceneApplied wa_id now s = sceneAppliedBody now s.
Proof.
  intros Hbound Hmatch. unfold onSceneApplied.
  by rewrite (bool_decide_eq_false_2 _ Hbound), (bool_decide_eq_true_2 _ Hmatch).
Qed.


Lemma onExternalUpdate_bound (wa_id : option string) (document : option Doc) now s :
  waId (props s) <> "" ->
  default "" wa_id = waId (props s) ->
  onExternalUpdate wa_id document now s = externalUpdateBody document now s.
Proof.
  intros Hbound Hmatch. unfold onExternalUpdate. cbv zeta.
  rewrite Hmatch.
  by rewrite (bool_decide_eq_false_2 _ Hbound), (bool_decide_eq_true_2 _ eq_refl).
Qed.

Lemma onExternalUpdate_other (wa_id : option string) (document : option Doc) now s :
  default "" wa_id <> waId (props s) ->
  onExternalUpdate wa_id document now s = s.
Proof.
  intros Hne. unfold onExternalUpdate.
  case_bool_decide; [done|].
  rewrite (bool_decide_eq_false_2 _ Hne). simpl. by rewrite orb_true_r.
Qed.

(** The update for the bound subject, with its echo resolved. *)
Lemma externalUpdateBody_state (document : option Doc) now s :
  waId (props s) <> "" ->
  let scene := toSceneFromDoc document in
  let cameraSig (camera : option AppState) :=
    match camera with
    | Some c => if (0 <? keys_length c)%nat
                then Some (computeViewerCameraSig c) else None
    | None => None
    end in
  let s' := externalUpdateBody document now s in
  props s' = props s
  /\ lastSavedSigRef s'
       = Some (computeDocumentSignature (elements scene) (appState scene) (files scene))
  /\ lastSavedViewerSigRef s' = cameraSig (viewerAppState scene)
  /\ lastSavedEditorSigRef s' = cameraSig (editorAppState scene)
  /\ docIsSaving s' = Some false
  /\ docHasLocalEditsDuringSave s' = Some false
  /\ isSavingRef s' = isSavingRef s
  /\ hasLocalEditsSinceSavingRef s' = hasLocalEditsSinceSavingRef s
  /\ saveState s' = Saved now
  /\ loading s' = false
  /\ isDirtyRef s' = false
  /\ ignoreChangesUntilRef s' = now + 400
  /\ initialSceneAppliedRef s' = true.
Proof.
  intros Hbound scene cameraSig s'. subst s' cameraSig scene.
  unfold externalUpdateBody, idle_setFlushLastSavedSig. cbv zeta.
  destruct (toSceneFromDoc document) as [els app fls v e].
  cbn [elements appState files viewerAppState editorAppState].
  destruct v as [v|]; [destruct (0 <? keys_length v)%nat|];
    (destruct e as [e|]; [destruct (0 <? keys_length e)%nat|]);
    destruct s as [p ? ? ? ? ? ? ? ? ? ? ? ? ? ic ? ? ? ? ? ? ? ? ? ? ? ? ?];
    destruct ic;
    (rewrite onSceneApplied_bound; [|exact Hbound|reflexivity]);
    repeat split; reflexivity.
Qed.

(** C2. (amended) An external-update event for another subject than the
    bound one changes nothing.  For the bound subject the handler records the
    content signature of the received scene as the last-saved one; records
    the signature of each camera the scene carries (one with at least one
    key) as the last-saved one of its kind and resets that tracker to [null]
    when the scene carries none; clears the two global flags
    [__docIsSaving] and [__docHasLocalEditsDuringSave] while leaving the refs
    [isSavingRef] and [hasLocalEditsSinceSavingRef] as they were; sets the
    status to [saved] at the time of the event; ends the loading state;
    resets the dirty tracker; opens a suppression window, which the
    [documents:sceneApplied] event it dispatches shortens to 400 ms; and sets
    [initialSceneAppliedRef]. *)
Theorem external_update_reconciles s (wa_id : option string) (document : option Doc) now :
  (default "" wa_id <> waId (props s) ->
   onExternalUpdate wa_id document now s = s)
  /\ (waId (props s) <> "" ->
      default "" wa_id = waId (props s) ->
      let scene := toSceneFromDoc document in
      let cameraSig (camera : option AppState) :=
        match camera with
        | Some c => if (0 <? keys_length c)%nat
                    then Some (computeViewerCameraSig c) else None
        | None => None
        end in
      let s' := onExternalUpdate wa_id document now s in
      lastSavedSigRef s'
        = Some (computeDocumentSignature (elements scene) (appState scene) (files scene))
      /\ lastSavedViewerSigRef s' = cameraSig (viewerAppState scene)
      /\ lastSavedEditorSigRef s' = cameraSig (editorAppState scene)
      /\ docIsSaving s' = Some false
      /\ docHasLocalEditsDuringSave s' = Some false
      /\ isSavingRef s' = isSavingRef s
      /\ hasLocalEditsSinceSavingRef s' = hasLocalEditsSinceSavingRef s
      /\ saveState s' = Saved now
      /\ loading s' = false
      /\ isDirtyRef s' = false
      /\ ignoreChangesUntilRef s' = now + 400
      /\ initialSceneAppliedRef s' = true).
Proof.
  split.
  - apply onExternalUpdate_other.
  - intros Hbound Hmatch scene cameraSig s'. subst s'.
    rewrite onExternalUpdate_bound by done.
    by destruct (externalUpdateBody_state document now s Hbound) as (_ & Hrest).
Qed.

End CallbackFacts.

(** ** Runs: the save status and the edits-during-save flag *)

Section PhaseFacts.
Context `{ext : Externals}.

Implicit Types (s : Hook) (now : Z) (e : Event) (evs : list Event).






























End PhaseFacts.

(** ** Runs: the controllers across a switch of subject *)

Section OnlyAt.
Context {A : Type} (P : A -> Prop).

Lemma only_at_weaken o l : only_at P None l -> only_at P o l.
Proof. intros Hl i c Hi Hc. by specialize (Hl i c Hi Hc). Qed.


Lemma only_at_alter_keep (f : A -> A) o j l :
  (forall c, P (f c) -> P c) -> only_at P o l -> only_at P o (alter f j l).
Proof.
  intros Hf Hl i c. rewrite list_lookup_alter.
  destruct (decide (j = i)) as [->|Hne]; [|apply Hl].
  destruct (l !! i) as [c'|] eqn:Hi; simpl; [|done].
  intros [= <-] Hc. apply (Hl i c' Hi). by apply Hf.
Qed.




End OnlyAt.

Section ControllerFacts.
Context `{ext : Externals}.

Implicit Types (s : Hook) (now : Z) (e : Event) (evs : list Event).



Lemma dormant_wf s : dormant s -> wf s.
Proof. intros [Hi Hn]. split; by apply only_at_weaken. Qed.


Lemma not_pending_cancel c : ~ pending (cancel c).
Proof. unfold pending. simpl. tauto. Qed.





(** *** Handlers that leave the controllers alone *)











(** *** Handlers that act on one controller *)

Lemma wf_idle_act (f : IdleController -> IdleController) i s s' :
  (forall c, pending (f c) -> pending c) ->
  ctl s' = (waId (props s), idleControllerRef s, alter f i (idleControllers s),
            intervalControllerRef s, intervalControllers s) ->
  wf s -> wf s'.
Proof.
  unfold ctl, wf, bound. intros Hf [= Hw Hi Hic Hn Hnc] [Hwi Hwn].
  rewrite Hw, Hi, Hic, Hn, Hnc. split; [|done]. by apply only_at_alter_keep.
Qed.




Lemma wf_idle_cancel s : wf s -> wf (idle_cancel s).
Proof.
  unfold idle_cancel. case_match; [|done].
  apply (wf_idle_act cancel n); [|reflexivity].
  intros c Hc. by destruct (not_pending_cancel c).
Qed.




(** *** The effect pass *)


Lemma ctl_controllers_cleanup s :
  waId (props (controllers_cleanup s)) = waId (props s).
Proof.
  unfold controllers_cleanup, idle_cancel, interval_stop.
  repeat (simpl; case_match); done.
Qed.



(** The heartbeat does not start before the initial scene is applied. *)
Lemma heartbeat_effect_gated s :
  initialSceneAppliedRef s = false -> heartbeat_effect s = s.
Proof. intros Hi. unfold heartbeat_effect. rewrite Hi. by repeat case_match. Qed.


Lemma wf_set_props p s : dormant s -> wf (set_props p s).
Proof. intros Hd. apply dormant_wf. exact Hd. Qed.








(** *** Before the initial scene of the bound subject is applied *)













(** *** The switch *)




End ControllerFacts.

(** ** The mirror while a pointer is active *)

Section MirrorFacts.
Import UseDualCanvas MirrorVocabulary.

Implicit Types (m : Mirror) (elements files : ObjRef) (appState : AppState).

Lemma cancelPending_spec m :
  let m' := cancelPending m in
  liveSceneRafRef m' = None
  /\ liveSceneTimeoutRef m' = None
  /\ (forall h t, liveSceneRafRef m = Some h -> (h, t) ∉ frames m')
  /\ (forall h, liveSceneTimeoutRef m = Some h -> h ∉ timeouts m')
  /\ (forall x, x ∈ frames m' -> x ∈ frames m)
  /\ (forall h, h ∈ timeouts m' -> h ∈ timeouts m)
  /\ nextHandle m' = nextHandle m
  /\ pendingLiveSceneUpdateRef m' = pendingLiveSceneUpdateRef m
  /\ liveScene m' = liveScene m
  /\ viewerApiReady m' = viewerApiReady m
  /\ viewerCalls m' = viewerCalls m.
Proof.
  unfold cancelPending, cancelAnimationFrame, clearTimeout.
  destruct m as [? ? ? ? raf tmo ? ? ? fr tm ? ? ?].
  destruct raf as [hr|], tmo as [ht|]; simpl; repeat split; try done.
  all: try (intros h t [= <-] [Hh _]%list_elem_of_filter; by simpl in Hh).
  all: try (intros h [= <-] [Hh _]%list_elem_of_filter; done).
  all: by intros x [_ Hx]%list_elem_of_filter.
Qed.

(** C8. (amended) For an editor-canvas change received while a pointer is
    active, the mirror cancels the pending batched update (animation frame
    and timeout), queues nothing, and, when the viewer API is available,
    calls [updateScene] on it once before returning, with the new elements
    and neither [appState] nor [files]; without the viewer API nothing is
    pushed. *)
Theorem active_pointer_pushes_elements_only elements appState files now m :
  docPointerActive m = Some true ->
  let m' := handleCanvasChange elements appState files now m in
  liveSceneRafRef m' = None
  /\ liveSceneTimeoutRef m' = None
  /\ (forall h t, liveSceneRafRef m = Some h -> (h, t) ∉ frames m')
  /\ (forall h, liveSceneTimeoutRef m = Some h -> h ∉ timeouts m')
  /\ (forall x, x ∈ frames m' -> x ∈ frames m)
  /\ (forall h, h ∈ timeouts m' -> h ∈ timeouts m)
  /\ nextHandle m' = nextHandle m
  /\ liveScene m' = liveScene m
  /\ viewerCalls m'
     = (viewerCalls m
          ++ (if viewerApiReady m then [elementsOnly elements] else []))%list.
Proof.
  intros Hactive m'.
  assert (exists m1,
    m' = set_intakeCalls (intakeCalls m1 ++
           [{| ic_elements := elements; ic_appState := appState; ic_files := files;
               ic_viewerAppState := viewerCameraRef m1;
               ic_editorAppState := lastEditorCameraRef m1 |}])%list m1
    /\ (m1 = activeBranch elements m
        \/ exists camera, m1 = set_lastEditorCameraRef camera (activeBranch elements m)))
    as (m1 & -> & Hm1).
  { subst m'. unfold handleCanvasChange. cbv zeta. rewrite Hactive. simpl.
    fold (elementsOnly elements). fold (activeBranch elements m).
    case_match; eexists; (split; [reflexivity|]); eauto. }
  pose proof (cancelPending_spec m)
    as (Hr & Ht & Hrc & Htc & Hfr & Htm & Hn & _ & Hls & Hv & Hvc).
  assert (liveSceneRafRef (activeBranch elements m) = None
          /\ liveSceneTimeoutRef (activeBranch elements m) = None
          /\ frames (activeBranch elements m) = frames (cancelPending m)
          /\ timeouts (activeBranch elements m) = timeouts (cancelPending m)
          /\ nextHandle (activeBranch elements m) = nextHandle m
          /\ liveScene (activeBranch elements m) = liveScene m
          /\ viewerCalls (activeBranch elements m)
             = (viewerCalls m
                  ++ (if viewerApiReady m then [elementsOnly elements] else []))%list)
    as (Ar & At & Af & Atm & An & Als & Avc).
  { unfold activeBranch. cbv zeta. rewrite Hv.
    destruct (viewerApiReady m); simpl; rewrite ?Hvc, ?app_nil_r; done. }
  destruct Hm1 as [-> | (camera & ->)]; simpl;
    rewrite ?Af, ?Atm; done.
Qed.

End MirrorFacts.
(** ** The session controller on concrete runs *)

Section SceneExamples.
Import SceneFixtures.

#[local] Existing Instance demoExternals.



(** Counterexample to C2 as stated: with a save in flight and the
    edits-during-save flag set, an external update for the bound subject
    leaves both refs set; and as the received document carries no editor
    camera, the editor tracker is reset to [null] rather than given a
    signature. *)
Lemma external_update_keeps_save_refs :
  let s := run [EvCanvasChange (arr 30 5) emptyAppState 11%nat None None 2500] saving201 in
  let s' := onExternalUpdate (Some "201") (Some doc201) 3000 s in
  waId (props s) = "201"
  /\ isSavingRef s' = true
  /\ hasLocalEditsSinceSavingRef s' = true
  /\ lastSavedEditorSigRef s' = None.
Proof. vm_compute. done. Qed.

Lemma external_update_reconciles_witness :
  let s' := onExternalUpdate (Some "201") (Some doc201) 1000 (mount (propsFor "201")) in
  saveState s' = Saved 1000
  /\ initialSceneAppliedRef s' = true
  /\ ignoreChangesUntilRef s' = 1400
  /\ lastSavedViewerSigRef s' = Some (computeViewerCameraSig (camera 1 0 0)).
Proof.
  intros s'.
  assert (waId (props (mount (propsFor "201"))) <> "") as Hbound by (by vm_compute).
  assert (default "" (Some "201") = waId (props (mount (propsFor "201"))))
    as Hmatch by (by vm_compute).
  destruct (proj2 (external_update_reconciles (ext := demoExternals)
                     (mount (propsFor "201")) (Some "201") (Some doc201) 1000)
              Hbound Hmatch)
    as (_ & Hv & _ & _ & _ & _ & _ & Hst & _ & _ & Hi & Ha).
  split; [exact Hst|]. split; [exact Ha|]. split; [exact Hi | exact Hv].
Defined.

(** Counterexample to C5 as stated: after a completed save, an accepted
    change that only moves the viewer camera is classified as a viewer-camera
    change, no save is in flight, the status is [saved] and not [dirty], and
    yet the status stays [saved]. *)
Lemma viewer_camera_change_leaves_status :
  let s := run [EvIdleSaved saved201 5000] saving201 in
  let s' := handleCanvasChangeInternal
              (arr 20 4) emptyAppState 11%nat (Some (camera 2 0 0)) None 6000 s in
  intakeOpen 6000 s = true
  /\ isSavingRef s = false
  /\ saveState s = Saved 5000
  /\ viewerCameraChanged (Some (camera 2 0 0)) s = true
  /\ saveState s' = Saved 5000.
Proof. vm_compute. done. Qed.

Lemma accepted_change_marks_dirty_witness :
  intakeOpen 2000 loaded201 = true
  /\ saveState
       (handleCanvasChangeInternal
          (arr 20 4) emptyAppState 11%nat None None 2000 loaded201) = Dirty.
Proof.
  split; [by vm_compute|].
  apply accepted_change_marks_dirty; [by vm_compute..|]. left. by vm_compute.
Defined.

(** A viewer camera that rounds to the saved one is no change, however
    often it is observed; one that rounds elsewhere is a change. *)
Example camera_drift_below_rounding :
  let near := camera (10004 # 10000) (4 # 10) (-4 # 10) in
  let far := camera (1001 # 1000) 0 0 in
  roundedCamera near = roundedCamera (camera 1 0 0)
  /\ viewerCameraChanged (Some near) loaded201 = false
  /\ viewerCameraChanged (Some far) loaded201 = true
  /\ computeViewerCameraSig far
     = "{" +:+ dquote +:+ "zoom" +:+ dquote +:+ ":1.001,"
       +:+ dquote +:+ "scrollX" +:+ dquote +:+ ":0,"
       +:+ dquote +:+ "scrollY" +:+ dquote +:+ ":0}".
Proof. vm_compute. done. Qed.




(** The tab-hide flush is not gated by the initial scene: right after the
    switch to 305, hiding the tab makes the controller of 305 persist the
    elements last observed for 201. *)
Example hide_flush_after_switch :
  let s := render (propsFor "305") (run history201 (mount (propsFor "201"))) in
  initialSceneAppliedRef s = false
  /\ latestElementsRef s = Some 20%nat
  /\ persistLog s = []
  /\ exists payload,
       persistLog (step EvPageHide s)
         = [{| pr_waId := "305"; pr_trigger := FlushImmediate; pr_payload := payload |}]
       /\ p_elements payload = Obj 20%nat.
Proof. vm_compute. repeat split. eexists. split; reflexivity. Qed.

End SceneExamples.

(** ** The mirror on concrete states *)

Section MirrorExamples.
Import UseDualCanvas MirrorVocabulary MirrorFixtures.

(** Counterexample to C8 as stated: a change received during a drag while
    the viewer API is not registered yet pushes nothing to the viewer, neither
    through the API nor through [liveScene]. *)
Lemma active_pointer_without_viewer_pushes_nothing :
  let m' := handleCanvasChange 9%nat emptyAppState 8%nat 1000 (dragging false) in
  docPointerActive (dragging false) = Some true
  /\ viewerCalls m' = []
  /\ liveScene m' = None
  /\ frames m' = []
  /\ timeouts m' = [].
Proof. vm_compute. done. Qed.

Lemma active_pointer_pushes_elements_only_witness :
  let m' := handleCanvasChange 9%nat emptyAppState 8%nat 1000 (dragging true) in
  docPointerActive (dragging true) = Some true
  /\ liveSceneRafRef m' = None
  /\ viewerCalls m' = [elementsOnly 9%nat].
Proof.
  intros m'.
  destruct (active_pointer_pushes_elements_only
              9%nat emptyAppState 8%nat 1000 (dragging true) eq_refl)
    as (Hraf & _ & _ & _ & _ & _ & _ & _ & Hcalls).
  split; [reflexivity|]. split; [exact Hraf|exact Hcalls].
Defined.

End MirrorExamples.

(** ** The throttle in front of the change intake *)

Section ThrottleFacts.
Import UseDocumentScene SceneThrottle.
Context `{ext : Externals}.

Lemma throttle_wf_initial p : throttle_wf (initialThrottled p).
Proof. reflexivity. Qed.

Lemma filter_single_ne {A} (h : nat) (x : A) :
  filter (fun t : nat * A => fst t <> h) [(h, x)] = [].
Proof.
  rewrite filter_cons. simpl. case_decide; [done|]. by rewrite filter_nil.
Qed.

Lemma throttle_wf_change c now m :
  throttle_wf m -> throttle_wf (handleCanvasChange c now m).
Proof.
  unfold throttle_wf, handleCanvasChange, callInternal, throttle_setTimeout,
    throttle_clearTimeout. cbv zeta.
  destruct m as [s l pd [h|] ts n cs]; simpl.
  - intros (p & -> & Hp). destruct (50 <=? now - l); simpl.
    + apply filter_single_ne.
    + exists p. done.
  - intros ->. destruct (50 <=? now - l); simpl; [done|].
    eexists. split; [|done]. do 3 f_equal. lia.
Qed.

Lemma throttle_wf_timer h now m :
  throttle_wf m -> throttle_wf (onThrottleTimer h now m).
Proof.
  unfold throttle_wf, onThrottleTimer, throttleCallback, callInternal,
    throttle_clearTimeout.
  destruct m as [s l pd [h'|] ts n cs]; simpl.
  - intros (p & -> & Hp). rewrite filter_cons. simpl.
    case_decide as Hh; [subst h'|]; rewrite ?filter_nil; simpl.
    + destruct (l + 50 <=? now); simpl.
      * destruct pd; simpl; apply filter_single_ne.
      * eauto.
    + eauto.
  - intros ->. by rewrite ?filter_nil.
Qed.

Lemma throttle_wf_step e m : throttle_wf m -> throttle_wf (thStep e m).
Proof.
  destruct e as [c now|h now|e]; simpl.
  - apply throttle_wf_change.
  - apply throttle_wf_timer.
  - done.
Qed.

(** X1. At every point of a run of a mounted hook the throttle has at
    most one timeout armed; an armed timeout is the one
    [hookThrottleTimerRef] names, it is due 50 ms after the last call of the
    intake, and a call is waiting for it in [pendingHookCallRef]. *)
Theorem throttle_arms_one_timeout p evs :
  let m := thRun evs (initialThrottled p) in
  (length (throttleTimers m) <= 1)%nat
  /\ (forall h due q, (h, (due, q)) ∈ throttleTimers m ->
        hookThrottleTimerRef m = Some h
        /\ due = lastHookCallRef m + 50
        /\ pendingHookCallRef m <> None).
Proof.
  cbv zeta.
  assert (throttle_wf (thRun evs (initialThrottled p))) as Hwf.
  { generalize (throttle_wf_initial p). generalize (initialThrottled p).
    induction evs as [|e evs IH]; intros m Hm; simpl; [done|].
    apply IH. by apply throttle_wf_step. }
  revert Hwf. generalize (thRun evs (initialThrottled p)). intros m.
  unfold throttle_wf. destruct (hookThrottleTimerRef m) as [h|].
  - intros (q & -> & Hp). split; [simpl; lia|].
    intros h' due q' [= -> -> ->]%list_elem_of_singleton. done.
  - intros ->. split; [simpl; lia|]. intros h due q Hin. by apply elem_of_nil in Hin.
Qed.

Lemma spaced_snoc gap l t :
  spaced gap l -> (forall t0, last l = Some t0 -> t0 + gap <= t) ->
  spaced gap (l ++ [t]).
Proof.
  induction l as [|t1 [|t2 rest] IH]; simpl; intros Hs Hl.
  - done.
  - split; [|done]. by apply Hl.
  - destruct Hs as [H12 Hs]. split; [done|]. apply IH; [done|].
    intros t0 Ht0. apply Hl. done.
Qed.

Lemma paced_call p c now m :
  paced m -> lastHookCallRef m + 50 <= now ->
  paced (set_hookThrottleTimerRef None
           (callInternal p c now (set_lastHookCallRef now m))).
Proof.
  unfold paced, callInternal. destruct m as [s l pd r ts n cs]; simpl.
  intros [Hs Hl] Hnow. rewrite map_app. simpl. split.
  - apply spaced_snoc; [done|]. intros t0 Ht0. apply Hl in Ht0. lia.
  - intros t. rewrite last_snoc. by intros [= ->].
Qed.

Lemma paced_change c now m :
  paced m -> paced (handleCanvasChange c now m).
Proof.
  intros Hp. unfold handleCanvasChange. cbv zeta.
  destruct (50 <=? now - lastHookCallRef m) eqn:Hnow.
  - apply Z.leb_le in Hnow.
    apply (paced_call (props (hook m)) c now m) in Hp; [|lia].
    revert Hp. unfold paced, callInternal, throttle_clearTimeout.
    destruct m as [s l pd [h|] ts n cs]; simpl; done.
  - revert Hp. unfold paced, throttle_setTimeout.
    destruct m as [s l pd [h|] ts n cs]; simpl; done.
Qed.

Lemma paced_timer h now m :
  throttle_wf m -> paced m -> paced (onThrottleTimer h now m).
Proof.
  unfold throttle_wf, onThrottleTimer, throttleCallback, throttle_clearTimeout.
  destruct m as [s l pd [h'|] ts n cs]; simpl.
  - intros (p & -> & _) Hp. rewrite filter_cons. simpl.
    case_decide as Hh; rewrite ?filter_nil; [|done].
    destruct (l + 50 <=? now) eqn:Hnow; [|done]. apply Z.leb_le in Hnow.
    destruct pd as [c|]; simpl.
    + apply (paced_call p c now) in Hp; [|done]. exact Hp.
    + exact Hp.
  - intros -> Hp. by rewrite ?filter_nil.
Qed.

Lemma reachable_throttle p evs :
  let m := thRun evs (initialThrottled p) in throttle_wf m /\ paced m.
Proof.
  cbv zeta.
  assert (throttle_wf (initialThrottled p) /\ paced (initialThrottled p)) as H0.
  { split; [reflexivity|]. split; simpl; done. }
  revert H0. generalize (initialThrottled p).
  induction evs as [|e evs IH]; intros m [Hwf Hp]; simpl; [done|].
  apply IH. split; [by apply throttle_wf_step|].
  destruct e as [c now|h now|e]; simpl.
  - by apply paced_change.
  - by apply paced_timer.
  - done.
Qed.

(** X2. On every run, two consecutive calls of
    [handleCanvasChangeInternal] made through the throttle read clocks at
    least 50 ms apart. *)
Theorem throttle_spaces_intake_calls p evs :
  spaced 50 (map fst (internalCalls (thRun evs (initialThrottled p)))).
Proof. apply (reachable_throttle p evs). Qed.

(** X3. A change that arrives less than 50 ms after the last call of
    the intake is not handed on: it replaces the waiting call, and exactly one
    timeout stays armed, due 50 ms after that last call.  When the timeout
    runs, the intake is called once, with this latest change and with the
    guard of the render that armed the timeout, and the throttle is idle
    again. *)
Theorem throttle_delivers_latest_call p0 history c now :
  let m := thRun history (initialThrottled p0) in
  now - lastHookCallRef m < 50 ->
  let m' := handleCanvasChange c now m in
  exists h p,
    hookThrottleTimerRef m' = Some h
    /\ throttleTimers m' = [(h, (lastHookCallRef m + 50, p))]
    /\ (hookThrottleTimerRef m = None -> p = props (hook m))
    /\ internalCalls m' = internalCalls m
    /\ forall t, lastHookCallRef m + 50 <= t ->
         let m'' := onThrottleTimer h t m' in
         hook m'' = internalOf p c t (hook m)
         /\ internalCalls m'' = (internalCalls m ++ [(t, c)])%list
         /\ lastHookCallRef m'' = t
         /\ pendingHookCallRef m'' = None
         /\ hookThrottleTimerRef m'' = None
         /\ throttleTimers m'' = [].
Proof.
  cbv zeta. destruct (reachable_throttle p0 history) as [Hwf _].
  revert Hwf. generalize (thRun history (initialThrottled p0)). intros m Hwf Hnow.
  assert ((50 <=? now - lastHookCallRef m) = false) as Hb by (apply Z.leb_gt; lia).
  unfold handleCanvasChange. cbv zeta. rewrite Hb.
  revert Hwf. unfold throttle_wf, throttle_setTimeout, onThrottleTimer,
    throttleCallback, callInternal, throttle_clearTimeout.
  destruct m as [s l pd [h|] ts n cs]; simpl.
  - intros (p & -> & _). exists h, p. repeat (split; [done|]).
    intros t Ht. rewrite filter_cons. simpl. rewrite decide_True by done.
    apply Z.leb_le in Ht. rewrite Ht. simpl. rewrite filter_single_ne. done.
  - intros ->. exists n, (props s). simpl.
    split; [done|]. split; [do 3 f_equal; lia|]. repeat (split; [done|]).
    intros t Ht. rewrite filter_cons. simpl. rewrite decide_True by done.
    assert ((now + (50 - (now - l)) <=? t) = true) as -> by (apply Z.leb_le; lia).
    simpl. rewrite filter_single_ne. done.
Qed.

(** X4. After the cleanup of the mount-only effect no throttle timeout
    is armed, whatever happened before, so that no timeout can call the
    intake of the unmounted hook. *)
Theorem unmount_disarms_throttle p evs :
  let m := unmount_cleanup (thRun evs (initialThrottled p)) in
  throttleTimers m = []
  /\ hookThrottleTimerRef m = None
  /\ forall h t, onThrottleTimer h t m = m.
Proof.
  cbv zeta. destruct (reachable_throttle p evs) as [Hwf _].
  revert Hwf. generalize (thRun evs (initialThrottled p)). intros m.
  unfold throttle_wf, unmount_cleanup, onThrottleTimer, throttle_clearTimeout.
  destruct m as [s l pd [h|] ts n cs]; simpl.
  - intros (q & -> & _). rewrite filter_single_ne. done.
  - intros ->. done.
Qed.

End ThrottleFacts.

(** ** The heartbeat effect *)

Section HeartbeatFacts.
Import UseDocumentScene.
Context `{ext : Externals}.

Lemma hb_idle_flushImmediate payload s :
  hbview (idle_flushImmediate payload s) = hbview s
  /\ grows_without_heartbeat s (idle_flushImmediate payload s).
Proof.
  unfold idle_flushImmediate, grows_without_heartbeat.
  repeat case_match; (split; [reflexivity|]); first [by left | right; eexists; split; [reflexivity|done]].
Qed.

Lemma hb_intake elements appState files viewer editor now s :
  hbview (handleCanvasChangeInternal elements appState files viewer editor now s) = hbview s
  /\ persistLog (handleCanvasChangeInternal elements appState files viewer editor now s)
     = persistLog s.
Proof.
  destruct (intakeOpen now s) eqn:Hopen; [|by rewrite intake_closed].
  rewrite intake_open by done.
  unfold intakeBody, idle_schedule; cbv zeta;
  destruct (contentChanged _ _ s), (editorCameraChanged _ s),
    (viewerCameraChanged _ s), viewer, editor;
  destruct s as [? ? ? ? ? ? sv ? ? ? ? ? ? ? ic ? ? ? ? ? ? dy ? ? ? ? ? ?];
  destruct sv, dy, ic; split; reflexivity.
Qed.

Lemma hb_onExternalUpdate wa_id (document : option Doc) now s :
  hbview (onExternalUpdate wa_id document now s) = hbview s
  /\ persistLog (onExternalUpdate wa_id document now s) = persistLog s.
Proof.
  destruct (decide (default "" wa_id = waId (props s))) as [Hm|Hne];
    [|by rewrite onExternalUpdate_other].
  destruct (decide (waId (props s) = "")) as [Hw|Hbound].
  { unfold onExternalUpdate. by rewrite (bool_decide_eq_true_2 _ Hw). }
  rewrite onExternalUpdate_bound by done.
  unfold externalUpdateBody, onSceneApplied, sceneAppliedBody,
    idle_setFlushLastSavedSig. cbv zeta.
  destruct (viewerAppState (toSceneFromDoc document)) as [v|],
           (editorAppState (toSceneFromDoc document)) as [e|];
    try destruct (0 <? keys_length v)%nat;
    try destruct (0 <? keys_length e)%nat;
    simpl; destruct (idleControllerRef s); simpl;
    rewrite (bool_decide_eq_false_2 _ Hbound); simpl;
    rewrite (bool_decide_eq_true_2 (waId (props s) = waId (props s))) by done;
    split; reflexivity.
Qed.

Lemma hb_step p0 e s :
  keeps_heartbeat_deps p0 e = true ->
  (enabled (props s), waId (props s), isUnlocked (props s))
  = (enabled p0, waId p0, isUnlocked p0) ->
  (forall i c, intervalControllers s !! i = Some c -> int_running c = false) ->
  hbview (step e s) = hbview s /\ grows_without_heartbeat s (step e s).
Proof.
  intros He Hp Hh. unfold grows_without_heartbeat.
  destruct e as [p| |t|m|u|els app fls v ed t|i|i api|scene t|m|t|m|w d t|w t|api| |h];
    cbn [step].
  - simpl in He. apply andb_prop in He as [He Hu]. apply andb_prop in He as [He Hw].
    apply Bool.eqb_prop in He, Hu. apply bool_decide_eq_true in Hw.
    injection Hp as Hpe Hpw Hpu.
    unfold render. cbv zeta.
    rewrite Hpe, Hpw, Hpu, <- He, <- Hw, <- Hu.
    rewrite (bool_decide_eq_true_2 (waId p0 = waId p0)) by done.
    rewrite !Bool.eqb_reflx. simpl.
    unfold runEffects. cbv zeta. unfold hbview.
    assert (hbview (set_props p s) = hbview s) as Hsp.
    { unfold hbview. simpl. by rewrite <- He, <- Hw, <- Hu, Hpe, Hpw, Hpu. }
    destruct (negb (Bool.eqb (autoLoadOnMount (props s)) (autoLoadOnMount p))).
    + split; [|left; unfold load_effect; by repeat case_match].
      transitivity (hbview (set_props p s)); [|done].
      unfold load_effect, hbview. by repeat case_match.
    + split; [done|by left].
  - split; [done|by left].
  - split; [done|by left].
  - split; [done|by left].
  - split; [done|by left].
  - destruct (hb_intake els app fls v ed t s) as [H1 H2]. split; [done|by left].
  - unfold idle_timer. repeat case_match; (split; [reflexivity|]);
      first [by left | right; eexists; split; [reflexivity|done]].
  - unfold heartbeat_tick. destruct (intervalControllers s !! i) as [c|] eqn:Hc;
      [|split; [done|by left]].
    rewrite (Hh i c Hc). split; [done|by left].
  - split; [|left]; unfold idle_onSaved, resolveSaved; cbv zeta; by repeat case_match.
  - split; [done|by left].
  - split; [|left]; unfold interval_onSaved, resolveSaved; by repeat case_match.
  - split; [done|by left].
  - destruct (hb_onExternalUpdate w d t s) as [H1 H2]. split; [done|by left].
  - split; [|left]; unfold onSceneApplied; by repeat case_match.
  - unfold flushNow. repeat case_match; try (split; [done|by left]);
      apply hb_idle_flushImmediate.
  - unfold onPageHide, flushNow_onHide. repeat case_match; try (split; [done|by left]);
      apply hb_idle_flushImmediate.
  - unfold onVisibility, flushNow_onHide. repeat case_match; try (split; [done|by left]);
      apply hb_idle_flushImmediate.
Qed.

Lemma hb_mount p :
  forall i c, intervalControllers (mount p) !! i = Some c -> int_running c = false.
Proof.
  intros i c. unfold mount.
  rewrite heartbeat_effect_gated.
  2:{ unfold controllers_effect, load_effect. by repeat case_match. }
  unfold controllers_effect. case_match.
  - unfold load_effect. repeat case_match; simpl; by rewrite lookup_nil.
  - cbn [intervalControllers set_intervalControllers set_intervalControllerRef
         set_idleControllers set_idleControllerRef set_isDirtyRef].
    assert (intervalControllers (load_effect (initialHook p)) = []) as ->
      by (unfold load_effect; by repeat case_match).
    simpl. by intros [_ <-]%list_lookup_singleton_Some.
Qed.

Lemma props_mount p : props (mount p) = p.
Proof.
  unfold mount, heartbeat_effect, interval_start, controllers_effect, load_effect.
  by repeat case_match.
Qed.

(** X5. As long as no render changes [enabled], [waId] or
    [isUnlocked], the interval controller of a mounted hook is never started
    and no persist is triggered by a heartbeat: the heartbeat effect ran at
    mount, before the initial scene was applied, and runs again only when one
    of its three dependencies changes. *)
Theorem heartbeat_waits_for_rerender p0 evs :
  forallb (keeps_heartbeat_deps p0) evs = true ->
  let s := run evs (mount p0) in
  (forall i c, intervalControllers s !! i = Some c -> int_running c = false)
  /\ (forall r, r ∈ persistLog s -> pr_trigger r <> Heartbeat).
Proof.
  intros Hevs. cbv zeta.
  assert ((enabled (props (mount p0)), waId (props (mount p0)), isUnlocked (props (mount p0)))
          = (enabled p0, waId p0, isUnlocked p0)) as Hp by (by rewrite props_mount).
  assert (forall r, r ∈ persistLog (mount p0) -> pr_trigger r <> Heartbeat) as Hl.
  { assert (persistLog (mount p0) = []) as ->.
    { unfold mount, heartbeat_effect, interval_start, controllers_effect, load_effect.
      by repeat case_match. }
    by intros r ?%elem_of_nil. }
  pose proof (hb_mount p0) as Hh.
  revert Hevs Hp Hh Hl. generalize (mount p0).
  induction evs as [|e evs IH]; intros s Hevs Hp Hh Hl; [done|].
  simpl in Hevs. apply andb_prop in Hevs as [He Hevs]. simpl.
  destruct (hb_step p0 e s He Hp Hh) as [Hv Hg].
  unfold hbview in Hv. injection Hv as Hv1 Hv2 Hv3 Hv4.
  apply IH; [done| | |].
  - by rewrite Hv1, Hv2, Hv3.
  - by rewrite Hv4.
  - destruct Hg as [-> | (r & -> & Hr)]; [done|].
    intros r' [Hin | ->%list_elem_of_singleton]%elem_of_app; [by apply Hl|done].
Qed.

End HeartbeatFacts.

(** ** Runs of the mirror *)

Section MirrorRunFacts.
Import UseDualCanvas MirrorRuns MirrorRunVocabulary.

Implicit Types (m : Mirror) (elements files : ObjRef) (appState : AppState).

Lemma filter_frames_ne (h : nat) (t : FrameTask) :
  filter (fun ht : nat * FrameTask => fst ht <> h) [(h, t)] = [].
Proof. rewrite filter_cons. simpl. by rewrite decide_False by (intros H; by apply H). Qed.

Lemma filter_timeouts_ne (h : nat) :
  filter (fun k : nat => k <> h) [h] = [].
Proof. rewrite filter_cons. by rewrite decide_False by (intros H; by apply H). Qed.

Lemma mirror_wf_cancelPending m :
  mirror_wf m ->
  frames (cancelPending m) = [] /\ timeouts (cancelPending m) = []
  /\ liveSceneRafRef (cancelPending m) = None
  /\ liveSceneTimeoutRef (cancelPending m) = None.
Proof.
  unfold mirror_wf, cancelPending, cancelAnimationFrame, clearTimeout.
  destruct m as [? ? ? ? [hr|] [ht|] ? ? ? fr tm ? ? ?]; simpl.
  - done.
  - intros [(t & ->) ->]. by rewrite filter_frames_ne.
  - intros [-> ->]. by rewrite filter_timeouts_ne.
  - by intros [-> ->].
Qed.

(** Case analysis on the test that decides whether the editor camera
    object is replaced. *)
Ltac camera_cases :=
  match goal with
  | |- context [if ?b then set_lastEditorCameraRef _ _ else _] => destruct b
  end.

Lemma mirror_wf_change elements appState files now m :
  mirror_wf m -> mirror_wf (handleCanvasChange elements appState files now m).
Proof.
  intros Hwf.
  pose proof (mirror_wf_cancelPending m Hwf) as (Hf & Ht & Hr & Hto).
  revert Hwf Hf Ht Hr Hto.
  unfold mirror_wf, handleCanvasChange, cancelPending, cancelAnimationFrame,
    clearTimeout, requestAnimationFrame, setTimeout, updateScene.
  cbv zeta.
  destruct m as [api ? last ? raf tmo cam ? ptr fr tm ? ? ?]; simpl.
  destruct (default false ptr); simpl.
  - destruct raf, tmo, api; simpl; intros _ Hf Ht _ _; camera_cases; done.
  - destruct (16 <=? now - last); simpl.
    + destruct raf, tmo; simpl; intros _ Hf Ht _ _; camera_cases; simpl;
        rewrite ?Hf, ?Ht; eauto.
    + destruct raf, tmo; simpl; intros Hwf _ _ _ _; camera_cases; simpl;
        try done; destruct Hwf as [-> ->]; done.
Qed.

Lemma mirror_wf_frame h m : mirror_wf m -> mirror_wf (onFrame h m).
Proof.
  unfold mirror_wf, onFrame, frameCallback, cancelAnimationFrame, updateScene.
  destruct m as [api ? ? ? [hr|] [ht|] ? ? ? fr tm ? ? ?]; simpl; try done.
  - intros [(t & ->) ->]. rewrite filter_cons. simpl.
    case_decide as Hh; rewrite ?filter_nil; simpl.
    + subst hr. rewrite filter_frames_ne. by destruct api.
    + eauto.
  - intros [-> ->]. by rewrite ?filter_nil.
  - intros [-> ->]. by rewrite ?filter_nil.
Qed.

Lemma mirror_wf_timeout h now m : mirror_wf m -> mirror_wf (onTimeout h now m).
Proof.
  unfold mirror_wf, onTimeout, timeoutCallback, clearTimeout, requestAnimationFrame.
  destruct m as [api ? ? pd [hr|] [ht|] ? ? ? fr tm ? ? ?]; simpl; try done.
  - intros [(t & ->) ->]. rewrite bool_decide_eq_false_2 by (by intros ?%elem_of_nil).
    simpl. eauto.
  - intros [-> ->]. case_bool_decide as Hh; simpl; [|done].
    apply list_elem_of_singleton in Hh. subst ht. rewrite filter_timeouts_ne.
    destruct pd; simpl; eauto.
  - intros [-> ->]. by rewrite bool_decide_eq_false_2 by (by intros ?%elem_of_nil).
Qed.

Lemma mirror_wf_step e m : mirror_wf m -> mirror_wf (mirrorStep e m).
Proof.
  destruct e; simpl.
  - apply mirror_wf_change.
  - apply mirror_wf_frame.
  - apply mirror_wf_timeout.
  - done.
  - done.
  - done.
Qed.

Lemma mirror_wf_run evs m : mirror_wf m -> mirror_wf (mirrorRun evs m).
Proof.
  revert m. induction evs as [|e evs IH]; intros m Hm; simpl; [done|].
  apply IH. by apply mirror_wf_step.
Qed.

(** X6. At every point of a run the mirror has at most one viewer
    update queued, as an animation frame or as a timeout, and a queued one is
    the one its ref names. *)
Theorem mirror_queues_one_update evs :
  let m := mirrorRun evs initialMirror in
  (length (frames m) + length (timeouts m) <= 1)%nat
  /\ (forall h t, (h, t) ∈ frames m -> liveSceneRafRef m = Some h)
  /\ (forall h, h ∈ timeouts m -> liveSceneTimeoutRef m = Some h).
Proof.
  cbv zeta.
  assert (mirror_wf (mirrorRun evs initialMirror)) as Hwf
    by (apply mirror_wf_run; by split).
  revert Hwf. generalize (mirrorRun evs initialMirror). intros m.
  unfold mirror_wf.
  destruct (liveSceneRafRef m) as [hr|], (liveSceneTimeoutRef m) as [ht|];
    try done.
  - intros [(t & ->) ->]. split; [simpl; lia|]. split.
    + by intros h t' [= -> ->]%list_elem_of_singleton.
    + by intros h ?%elem_of_nil.
  - intros [-> ->]. split; [simpl; lia|]. split.
    + by intros h t ?%elem_of_nil.
    + by intros h ->%list_elem_of_singleton.
  - intros [-> ->]. split; [simpl; lia|]. split.
    + by intros h t ?%elem_of_nil.
    + by intros h ?%elem_of_nil.
Qed.

Lemma same_number_refl (a : option number) : same_number a a = true.
Proof. destruct a as [x|]; simpl; [|done]. apply Qeq_bool_iff. reflexivity. Qed.

Ltac camera_cases_eq H :=
  match goal with
  | |- context [if ?b then set_lastEditorCameraRef _ _ else _] => destruct b eqn:H
  end.

(** X7. Every editor change, throttled or not, is handed to the
    session controller exactly once, with the elements, [appState] and files
    as received, with the viewer camera of [viewerCameraRef] and with
    [lastEditorCameraRef], which by then carries the zoom and scroll of the
    change. *)
Theorem editor_change_is_forwarded_once elements appState files now m :
  let m' := handleCanvasChange elements appState files now m in
  exists call,
    intakeCalls m' = (intakeCalls m ++ [call])%list
    /\ ic_elements call = elements
    /\ ic_appState call = appState
    /\ ic_files call = files
    /\ ic_viewerAppState call = viewerCameraRef m
    /\ ic_editorAppState call = lastEditorCameraRef m'
    /\ same_number (zoom (lastEditorCameraRef m')) (zoom appState) = true
    /\ same_number (scrollX (lastEditorCameraRef m')) (scrollX appState) = true
    /\ same_number (scrollY (lastEditorCameraRef m')) (scrollY appState) = true.
Proof.
  unfold handleCanvasChange, cancelPending, cancelAnimationFrame,
    clearTimeout, requestAnimationFrame, setTimeout, updateScene.
  cbv zeta.
  destruct m as [api ? last ? raf tmo cam ? ptr fr tm ? ? ?]; simpl.
  destruct (default false ptr), (16 <=? now - last), raf, tmo, api; simpl;
    camera_cases_eq Hc; simpl;
    (eexists; split; [reflexivity|]; simpl; repeat (split; [reflexivity|]));
    rewrite ?same_number_refl; try done;
    apply orb_false_elim in Hc as [Hc Hy];
    apply orb_false_elim in Hc as [Hz Hx];
    apply negb_false_iff in Hz, Hx, Hy; done.
Qed.

(** X8. A change received without an active pointer, at least 16 ms
    after the last viewer update, cancels what was queued and queues one
    animation frame; nothing reaches the viewer before that frame runs, and
    when it runs the viewer shows the elements and files of the change under
    the viewer's own camera. *)
Theorem passive_change_shows_at_next_frame elements appState files now m :
  mirror_wf m ->
  default false (docPointerActive m) = false ->
  lastLiveSceneUpdateRef m + 16 <= now ->
  let task := {| ft_elements := elements; ft_files := files |} in
  let m' := handleCanvasChange elements appState files now m in
  exists h,
    liveSceneRafRef m' = Some h
    /\ frames m' = [(h, task)]
    /\ timeouts m' = []
    /\ viewerCalls m' = viewerCalls m
    /\ liveScene m' = liveScene m
    /\ shows task (viewerCameraRef m) m' (onFrame h m')
    /\ frames (onFrame h m') = []
    /\ liveSceneRafRef (onFrame h m') = None.
Proof.
  intros Hwf Hptr Hnow.
  pose proof (mirror_wf_cancelPending m Hwf) as (Hf & Ht & _ & _).
  assert ((16 <=? now - lastLiveSceneUpdateRef m) = true) as Hb
    by (apply Z.leb_le; lia).
  revert Hptr Hb Hf Ht. clear Hwf Hnow.
  unfold shows, handleCanvasChange, onFrame, frameCallback, cancelPending,
    cancelAnimationFrame, clearTimeout, requestAnimationFrame, setTimeout,
    updateScene.
  cbv zeta.
  destruct m as [api ? last ? raf tmo cam ? ptr fr tm nh ? ?]; simpl.
  intros -> ->. simpl.
  destruct raf, tmo; simpl; intros Hf Ht; camera_cases; simpl;
    rewrite ?Hf, ?Ht; exists nh; simpl;
    rewrite filter_cons; simpl; rewrite decide_True by done; simpl;
    rewrite filter_frames_ne; destruct api; simpl; done.
Qed.

(** X9. A change received without an active pointer less than 16 ms
    after a change whose animation frame is still queued is only recorded in
    [pendingLiveSceneUpdateRef]: the queued frame stays and shows the earlier
    elements, and after it ran nothing is queued that would show the recorded
    change. *)
Theorem change_behind_queued_frame_waits elements appState files now m h :
  mirror_wf m ->
  default false (docPointerActive m) = false ->
  liveSceneRafRef m = Some h ->
  now < lastLiveSceneUpdateRef m + 16 ->
  let task := {| ft_elements := elements; ft_files := files |} in
  let m' := handleCanvasChange elements appState files now m in
  exists queued,
    frames m = [(h, queued)]
    /\ frames m' = [(h, queued)]
    /\ timeouts m' = []
    /\ pendingLiveSceneUpdateRef m' = Some task
    /\ viewerCalls m' = viewerCalls m
    /\ liveScene m' = liveScene m
    /\ shows queued (viewerCameraRef m) m' (onFrame h m')
    /\ frames (onFrame h m') = []
    /\ timeouts (onFrame h m') = []
    /\ pendingLiveSceneUpdateRef (onFrame h m') = Some task.
Proof.
  intros Hwf Hptr Hraf Hnow.
  assert ((16 <=? now - lastLiveSceneUpdateRef m) = false) as Hb
    by (apply Z.leb_gt; lia).
  revert Hwf Hptr Hraf Hb. clear Hnow.
  unfold mirror_wf, shows, handleCanvasChange, onFrame, frameCallback,
    cancelPending, cancelAnimationFrame, clearTimeout, requestAnimationFrame,
    setTimeout, updateScene.
  cbv zeta.
  destruct m as [api ? last ? raf tmo cam ? ptr fr tm nh ? ?]; simpl.
  intros Hwf -> -> ->. simpl. destruct tmo; [done|].
  destruct Hwf as [(queued & ->) ->]. exists queued. simpl.
  camera_cases; simpl;
    rewrite filter_cons; simpl; rewrite decide_True by done; simpl;
    rewrite filter_frames_ne; destruct api; simpl; done.
Qed.

End MirrorRunFacts.

(** ** The viewer side of the dual canvas *)

Section ViewerFacts.
Import UseDualCanvasViewer.
Context `{utils : SceneUtils}.

(** After an accepted scene the latch names the bound subject. *)
Lemma loadStep_latches e m :
  loadStep e m <> m -> appliedForWaIdRef (loadStep e m) = Some (waId (loadStep e m)).
Proof.
  destruct e as [w d|w d]; simpl; unfold onExternal, onApplied, applyLoaded;
    cbv zeta; repeat case_match; try done.
Qed.

Lemma loadStep_latched e m :
  appliedForWaIdRef m = Some (waId m) -> loadStep e m = m.
Proof.
  intros Hl. destruct e as [w d|w d]; simpl; unfold onExternal, onApplied;
    rewrite Hl; rewrite (bool_decide_eq_true_2 (Some (waId m) = Some (waId m))) by done;
    repeat case_match; done.
Qed.

(** X10. Once one of the two load listeners has accepted a scene, no
    further [documents:external-update] or [documents:sceneApplied] event
    changes anything. *)
Theorem load_listeners_apply_once e evs m :
  loadStep e m <> m ->
  loadRun evs (loadStep e m) = loadStep e m.
Proof.
  intros He. apply loadStep_latches in He. revert He.
  generalize (loadStep e m). clear m. intros m Hm.
  induction evs as [|e' evs IH]; simpl; [done|].
  by rewrite loadStep_latched.
Qed.

End ViewerFacts.

Section ViewerCameraFacts.
Import UseDocumentScene UseDualCanvasViewer.




End ViewerCameraFacts.

Section ViewerIntakeFacts.
Import UseDocumentScene.
Context `{ext : Externals}.

(** X12. A viewer-canvas change with a new camera, on an unlocked
    document with a loaded scene, forwards to the session controller the
    elements and files of the scene as it was loaded, not what the editor
    holds.  When that call reaches an open intake whose latest elements are
    another array, the idle save is scheduled with the elements as loaded,
    and a clean session turns dirty. *)
Theorem viewer_change_saves_loaded_elements
    (m : UseDualCanvasViewer.Viewer) camera sc els fls (s : Hook) now i c :
  UseDualCanvasViewer.sceneRef m = Some sc ->
  UseDualCanvasViewer.ld_elements sc = Some els ->
  UseDualCanvasViewer.ld_files sc = Some fls ->
  UseDualCanvasViewer.isUnlocked m = true ->
  computeViewerCameraSig camera <> UseDualCanvasViewer.lastViewerCameraSigRef m ->
  intakeOpen now s = true ->
  idleControllerRef s = Some i ->
  idleControllers s !! i = Some c ->
  latestElementsRef s <> Some (arr_ref els) ->
  let m' := UseDualCanvasViewer.handleViewerCanvasChange camera m in
  exists fw,
    UseDualCanvasViewer.forwarded m' = (UseDualCanvasViewer.forwarded m ++ [fw])%list
    /\ UseDualCanvasViewer.fw_elements fw = els
    /\ UseDualCanvasViewer.fw_files fw = Some fls
    /\ UseDualCanvasViewer.fw_viewerAppState fw = camera
    /\ let s' := handleCanvasChangeInternal els (UseDualCanvasViewer.fw_appState fw) fls
                   (Some camera) (UseDualCanvasViewer.fw_editorAppState fw) now s in
       (exists p, idleControllers s' !! i = Some (schedule p c)
                  /\ p_elements p = Obj (arr_ref els))
       /\ (isSavingRef s = false -> isDirtyRef s = false -> saveState s' = Dirty).
Proof.
  intros Hsc Hels Hfls Hun Hsig Hopen Hi Hc Hlatest. cbv zeta.
  unfold UseDualCanvasViewer.handleViewerCanvasChange. cbv zeta.
  unfold computeViewerCameraSig in Hsig. cbv zeta in Hsig.
  rewrite bool_decide_eq_false_2 by exact Hsig.
  cbn [UseDualCanvasViewer.sceneRef UseDualCanvasViewer.set_viewerCameraRef
       UseDualCanvasViewer.set_lastViewerCameraSigRef].
  rewrite Hsc, Hels.
  cbn [UseDualCanvasViewer.isUnlocked UseDualCanvasViewer.set_viewerCameraRef
       UseDualCanvasViewer.set_lastViewerCameraSigRef].
  rewrite Hun. simpl.
  eexists. split; [reflexivity|]. simpl. rewrite Hfls.
  repeat (split; [reflexivity|]).
  assert (contentChanged els fls s = true) as Hcontent.
  { unfold contentChanged. by rewrite bool_decide_eq_false_2 by (intros H; by apply Hlatest). }
  rewrite intake_open by done. split.
  - destruct (intakeBody_schedules s els
                (default emptyAppState (UseDualCanvasViewer.ld_appState sc)) fls
                (Some camera)
                (match UseDualCanvasViewer.ld_appState sc with
                 | Some a => Some {| zoom := zoom a; scrollX := scrollX a;
                                     scrollY := scrollY a; otherKeys := [] |}
                 | None => None
                 end) i c Hi Hc) as (p & Hp & He & _).
    { by rewrite Hcontent. }
    exists p. done.
  - intros Hsv Hd. rewrite intakeBody_saveState, Hcontent, Hsv, Hd. done.
Qed.

End ViewerIntakeFacts.

(** ** The canvas component and the fullscreen hook *)

Section CanvasFacts.
Import DocumentCanvas.

Lemma ticks_settled theme obs g :
  tickRequested g = false -> ticks theme obs g = g.
Proof.
  intros Hg. induction obs as [|o obs IH]; simpl; [done|].
  unfold tick. by rewrite Hg.
Qed.

Lemma ticks_waiting theme obs g :
  tickRequested g = true -> mountReady g = false -> (attempts g < 60)%nat ->
  mountReady (ticks theme obs g) = true
  <-> (exists o, o ∈ obs /\ fits theme o = true)
      \/ (60 <= attempts g + length obs)%nat.
Proof.
  revert g. induction obs as [|o obs IH]; intros g Hq Hr Ha; simpl.
  - rewrite Hr. split; [done|]. intros [(o & Ho & _) | Hl]; [|lia].
    by apply elem_of_nil in Ho.
  - unfold tick at 1. rewrite Hq. simpl. destruct (fits theme o) eqn:Hf.
    + rewrite ticks_settled by done. simpl. split; [|done].
      intros _. left. exists o. split; [left|done].
    + destruct (S (attempts g) <? 60)%nat eqn:Hlt.
      * apply Nat.ltb_lt in Hlt. rewrite IH by done. simpl.
        split; intros [(o' & Ho' & Hf') | Hl].
        -- left. exists o'. split; [by right|done].
        -- right. lia.
        -- apply elem_of_cons in Ho' as [-> | Ho']; [congruence|].
           left. by exists o'.
        -- right. lia.
      * apply Nat.ltb_ge in Hlt. rewrite ticks_settled by done. simpl.
        split; [|done]. intros _. right. lia.
Qed.

(** X13. The mount gate opens exactly when some animation frame
    finds the container larger than 2 by 2 with the theme class in place, or
    when sixty frames have passed. *)
Theorem mount_gate_opens_within_sixty_frames theme obs :
  mountReady (ticks theme obs (mountEffect false)) = true
  <-> (exists o, o ∈ obs /\ fits theme o = true) \/ (60 <= length obs)%nat.
Proof. rewrite ticks_waiting; simpl; [done|done|done|lia]. Qed.

Lemma handover_invariant evs a0 a :
  didNotifyApiRef a = true -> (announced a ++ announcing a)%list = [a0] ->
  (announced (handoverRun evs a) ++ announcing (handoverRun evs a))%list = [a0]
  /\ didNotifyApiRef (handoverRun evs a) = true.
Proof.
  revert a. induction evs as [|e evs IH]; intros a Hd Hl; simpl; [done|].
  apply IH.
  - destruct e; simpl; [unfold excalidrawAPI; by rewrite Hd|].
    unfold announce. by destruct (announcing a).
  - destruct e; simpl; [unfold excalidrawAPI; by rewrite Hd|].
    unfold announce. destruct (announcing a) as [|x rest] eqn:Hx;
      simpl; rewrite ?Hx; [done|].
    by rewrite <- app_assoc.
Qed.

(** X14. [onApiReady] is announced for the first API instance the
    canvas is handed, and only for it: a later instance replaces [apiRef] but
    the parent is not told. *)
Theorem parent_hears_of_first_api_only api evs :
  let a := handoverRun (HoExcalidrawAPI api :: evs) initialHandover in
  (announced a ++ announcing a)%list = [api]
  /\ forall later, apiRef (excalidrawAPI later a) = Some later
                   /\ announced (excalidrawAPI later a) = announced a
                   /\ announcing (excalidrawAPI later a) = announcing a.
Proof.
  cbv zeta. simpl.
  destruct (handover_invariant evs api (excalidrawAPI api initialHandover))
    as [Hl Hd]; [done|done|].
  split; [done|]. intros later.
  revert Hd. generalize (handoverRun evs (excalidrawAPI api initialHandover)).
  intros a Hd. unfold excalidrawAPI. by rewrite Hd.
Qed.

(** X15. On every run of the pointer tracker the [__docPointerActive]
    global, once written, equals [pointerActiveRef]. *)
Theorem pointer_flags_agree evs :
  let t := trackerRun evs initialTracker in
  pointerActiveRef t = default false (docPointerActive t).
Proof.
  cbv zeta.
  assert (pointerActiveRef initialTracker
          = default false (docPointerActive initialTracker)) as H0 by done.
  revert H0. generalize initialTracker.
  induction evs as [|e evs IH]; intros t Ht; simpl; [done|].
  apply IH. destruct e; simpl; try done.
  - unfold onTouchStart. by case_match.
  - unfold onReleaseTimer. repeat case_match; done.
  - unfold sceneEffect. repeat case_match; done.
  - unfold onSceneFrame. repeat case_match; done.
Qed.

Lemma sceneEffect_queues sc v z t :
  pointerActiveRef t = true -> apiReady t = true ->
  let t' := sceneEffect (Some sc) v z t in
  pointerActiveRef t' = true /\ apiReady t' = true
  /\ updateSceneCalls t' = updateSceneCalls t
  /\ sceneFrames t' = sceneFrames t
  /\ pendingSceneRef t'
     = Some {| sa_scene := sc; sa_viewModeEnabled := v; sa_zenModeEnabled := z |}.
Proof. intros Hp Ha. unfold sceneEffect. by rewrite Ha, Hp. Qed.

Lemma sceneEffects_active scenes t :
  pointerActiveRef t = true -> apiReady t = true ->
  let t' := sceneEffects scenes t in
  pointerActiveRef t' = true /\ apiReady t' = true
  /\ updateSceneCalls t' = updateSceneCalls t
  /\ sceneFrames t' = sceneFrames t.
Proof.
  intros Hp Ha. induction scenes as [|s scenes IH] using rev_ind; [done|].
  unfold sceneEffects in *. rewrite foldl_snoc. cbv zeta in *.
  destruct IH as (H1 & H2 & H3 & H4).
  destruct (sceneEffect_queues s.1.1 s.1.2 s.2 _ H1 H2) as (G1 & G2 & G3 & G4 & _).
  rewrite G3, G4. done.
Qed.

(** X16. Scenes that arrive while a gesture is active request no
    animation frame and reach [updateScene] only when the gesture is
    released, and then only the last of them, once. *)
Theorem gesture_coalesces_scene_updates scenes s t :
  pointerActiveRef t = true ->
  apiReady t = true ->
  let t' := sceneEffects (scenes ++ [s]) t in
  updateSceneCalls t' = updateSceneCalls t
  /\ sceneFrames t' = sceneFrames t
  /\ updateSceneCalls (release t')
     = (updateSceneCalls t
          ++ [{| sa_scene := s.1.1; sa_viewModeEnabled := s.1.2;
                 sa_zenModeEnabled := s.2 |}])%list
  /\ pendingSceneRef (release t') = None
  /\ pointerActiveRef (release t') = false
  /\ docPointerActive (release t') = Some false.
Proof.
  intros Hp Ha. cbv zeta.
  destruct (sceneEffects_active scenes t Hp Ha) as (H1 & H2 & H3 & H4).
  unfold sceneEffects in *. rewrite foldl_snoc.
  destruct (sceneEffect_queues s.1.1 s.1.2 s.2 _ H1 H2) as (G1 & G2 & G3 & G4 & G5).
  unfold release. cbv zeta. rewrite G5, G2, G3, G4, H3, H4. done.
Qed.

End CanvasFacts.

Section FullscreenFacts.
Import UseDocumentScene.
Context `{ext : Externals}.

(** X17. A [fullscreenchange] event, for a positive
    [suppressChangesMs], closes the change intake of a session controller on
    the same page until that many milliseconds have passed. *)
Theorem fullscreen_change_suppresses_intake
    (f : UseFullscreen.Fullscreen) suppressChangesMs hasCallback now
    (s : Hook) elements appState files viewer editor t :
  0 < suppressChangesMs ->
  let f' := UseFullscreen.handleFullscreenChange suppressChangesMs hasCallback now f in
  docIgnoreChangesUntil s = UseFullscreen.docIgnoreChangesUntil f' ->
  0 <= t ->
  t < now + suppressChangesMs ->
  handleCanvasChangeInternal elements appState files viewer editor t s = s.
Proof.
  intros Hms. cbv zeta. unfold UseFullscreen.handleFullscreenChange. simpl.
  assert ((0 <? suppressChangesMs) = true) as -> by (apply Z.ltb_lt; lia).
  intros Hg H0 Ht. apply intake_closed. unfold intakeOpen, globalSuppressed.
  rewrite Hg.
  assert ((now + suppressChangesMs =? 0) = false) as -> by (apply Z.eqb_neq; lia).
  assert ((t <? now + suppressChangesMs) = true) as -> by (apply Z.ltb_lt; lia).
  simpl. by rewrite andb_false_r.
Qed.

End FullscreenFacts.

(** ** The customer row and the documents page *)

Section PersistFacts.
Import UseDocumentUnlock CustomerPersist.





End PersistFacts.

Section PageFacts.
Import UseDocumentUnlock CustomerPersist DocumentsPage.

Implicit Types (pg : Page) (i j : HookInstance) (l : list (nat * PersistTask)).

Lemma page_wf_initial localized columns source :
  page_wf (initialPage localized columns source).
Proof.
  split; [by left|]. split; [by intros [|] h|]. split; [done|simpl; lia].
Qed.

Lemma filter_comm {A} (P Q : A -> Prop)
    `{!forall x, Decision (P x), !forall x, Decision (Q x)} (l : list A) :
  filter P (filter Q l) = filter Q (filter P l).
Proof.
  rewrite !list_filter_filter. apply list_filter_iff. intros x. tauto.
Qed.

(** In a well-formed page the handle of an armed timeout tells its
    instance. *)
Lemma armed_handle pg h t :
  page_wf pg -> (h, t) ∈ timeouts pg ->
  persistTimerRef (pt_instance t) pg = Some h /\ (h < nextTimeout pg)%nat
  /\ (pt_instance t = First -> pt_waId t = "").
Proof.
  intros (Ha & Hr & _ & _) Hin.
  assert ((h, t) ∈ armed (pt_instance t) pg) as Hin'
    by (by apply list_elem_of_filter).
  destruct (Ha (pt_instance t)) as [Hnil | (h' & t' & Heq & Href & Hw)].
  - rewrite Hnil in Hin'. by apply elem_of_nil in Hin'.
  - rewrite Heq in Hin'. apply list_elem_of_singleton in Hin'.
    injection Hin' as -> ->. split; [done|]. split; [|done].
    by apply (Hr _ _ Href).
Qed.

(** Clearing the timeout an instance's ref names removes its armed
    timeout and no other. *)
Lemma armed_clear pg i j h :
  page_wf pg -> persistTimerRef i pg = Some h ->
  armed j (clearTimeout h pg) = if decide (j = i) then [] else armed j pg.
Proof.
  intros Hwf Hi. pose proof Hwf as (Ha & Hr & Hd & _).
  unfold armed, clearTimeout. simpl. rewrite filter_comm.
  fold (armed j pg).
  destruct (Ha j) as [-> | (h' & t' & -> & Hj & _)]; [by case_decide|].
  rewrite filter_cons, filter_nil. simpl.
  destruct (decide (j = i)) as [->|Hne].
  - rewrite Hi in Hj. injection Hj as ->. by rewrite decide_False by (intros H; by apply H).
  - rewrite decide_True; [done|]. intros ->. apply Hne.
    destruct i, j; try done; simpl in *.
    + by destruct (Hd h Hi).
    + by destruct (Hd h Hj).
Qed.

Lemma armed_snoc i j l h t pg :
  timeouts pg = (l ++ [(h, t)])%list -> pt_instance t = j ->
  armed i pg
  = (filter (fun x => pt_instance (snd x) = i) l
       ++ if decide (j = i) then [(h, t)] else [])%list.
Proof.
  intros Hl Hj. unfold armed. rewrite Hl, filter_app, filter_cons, filter_nil.
  simpl. rewrite Hj. by case_decide.
Qed.

(** The listener of instance [i] with its guards open: the timeout its ref
    names is cleared and a new one armed. *)
Lemma onDocPersist_accepted i field fld now pg :
  page_wf pg -> persist_unguarded now pg ->
  fieldOf (default "" field) = Some fld ->
  let pg' := onDocPersist i field now pg in
  (forall j, armed j pg'
             = if decide (i = j) then [(nextTimeout pg, taskOf i fld pg)]
               else armed j pg)
  /\ persistTimerRef i pg' = Some (nextTimeout pg)
  /\ (forall j, j <> i -> persistTimerRef j pg' = persistTimerRef j pg)
  /\ nextTimeout pg' = S (nextTimeout pg)
  /\ (forall j fld', taskOf j fld' pg' = taskOf j fld' pg)
  /\ (forall now', persist_unguarded now' pg -> persist_unguarded now' pg')
  /\ effects pg' = effects pg
  /\ (forall j, persistRefs j pg' = persistRefs j pg).
Proof.
  intros Hwf [Hg Hs] Hf. cbv zeta. unfold onDocPersist. cbv zeta. rewrite Hf.
  assert ((now <? ignorePersistUntilRef pg) = false) as -> by (apply Z.ltb_ge; lia).
  assert (match docSuppressPersistUntil pg with
          | Some suppressUntil => now <? suppressUntil
          | None => false
          end = false) as ->.
  { destruct (docSuppressPersistUntil pg) as [u|] eqn:Hu; [|done].
    apply Z.ltb_ge. by apply Hs. }
  pose proof Hwf as (Ha & Hr & Hd & Hpos0).
  set (pg1 := match persistTimerRef i pg with
              | Some h => if negb (h =? 0)%nat then clearTimeout h pg else pg
              | None => pg
              end).
  assert ((forall j, armed j pg1 = if decide (j = i) then [] else armed j pg)
          /\ (forall j, persistTimerRef j pg1 = persistTimerRef j pg)
          /\ nextTimeout pg1 = nextTimeout pg
          /\ (forall j fld, taskOf j fld pg1 = taskOf j fld pg)
          /\ ignorePersistUntilRef pg1 = ignorePersistUntilRef pg
          /\ docSuppressPersistUntil pg1 = docSuppressPersistUntil pg
          /\ effects pg1 = effects pg
          /\ (forall j, persistRefs j pg1 = persistRefs j pg))
    as (Ha1 & Hr1 & Hn1 & Ht1 & Hg1 & Hs1 & He1 & Hp1).
  { subst pg1. destruct (persistTimerRef i pg) as [h|] eqn:Hi.
    - destruct (Hr i h Hi) as [Hpos _].
      assert (negb (h =? 0)%nat = true) as ->
        by (apply negb_true_iff, Nat.eqb_neq; lia).
      split; [intros j; by apply armed_clear|].
      split; [by intros [|]|]. split; [done|]. split; [by intros [|]|].
      split; [done|]. split; [done|]. split; [done|]. by intros [|].
    - split; [|by repeat split].
      intros j. case_decide as Hj; [subst j|done].
      destruct (Ha i) as [-> | (h' & t' & _ & Href & _)]; [done|congruence]. }
  clearbody pg1. unfold setTimeout.
  split.
  { intros j. rewrite (armed_snoc j i (timeouts pg1) (nextTimeout pg1)
                         (taskOf i fld pg1));
      [|by destruct i|by destruct i].
    fold (armed j pg1). rewrite Ha1, Hn1, Ht1.
    destruct (decide (j = i)) as [->|Hne].
    - by rewrite !decide_True by done.
    - rewrite decide_False by done. rewrite decide_False by done.
      by rewrite app_nil_r. }
  split; [destruct i; simpl; by rewrite Hn1|].
  split; [intros j Hj; rewrite <- Hr1; by destruct i, j|].
  split; [destruct i; simpl; by rewrite Hn1|].
  split; [intros j fld'; rewrite <- (Ht1 j fld'); by destruct i, j|].
  split.
  { intros now' [Hg' Hs']. split; destruct i; simpl; by rewrite ?Hg1, ?Hs1. }
  split; [destruct i; simpl; by rewrite He1|].
  intros j. rewrite <- Hp1. by destruct i, j.
Qed.

Lemma fieldOf_guarded i field now pg :
  onDocPersist i field now pg = pg
  \/ exists fld, fieldOf (default "" field) = Some fld /\ persist_unguarded now pg.
Proof.
  unfold onDocPersist, persist_unguarded. cbv zeta.
  destruct (now <? ignorePersistUntilRef pg) eqn:Hg; [by left|].
  apply Z.ltb_ge in Hg.
  destruct (docSuppressPersistUntil pg) as [u|] eqn:Hu.
  - destruct (now <? u) eqn:Hs; [by left|]. apply Z.ltb_ge in Hs.
    destruct (fieldOf (default "" field)) as [fld|]; [|by left].
    right. exists fld. split; [done|]. split; [lia|]. by intros ? [= <-].
  - destruct (fieldOf (default "" field)) as [fld|]; [|by left].
    right. exists fld. split; [done|]. split; [lia|]. done.
Qed.

Lemma page_wf_onDocPersist i field now pg :
  page_wf pg -> page_wf (onDocPersist i field now pg).
Proof.
  intros Hwf.
  destruct (fieldOf_guarded i field now pg) as [-> | (fld & Hf & Hg)]; [done|].
  destruct (onDocPersist_accepted i field fld now pg Hwf Hg Hf)
    as (Ha' & Hi' & Hj' & Hn' & _).
  destruct Hwf as (Ha & Hr & Hd & Hpos).
  split; [|split; [|split]].
  - intros j. rewrite Ha'. destruct (decide (i = j)) as [<-|Hne].
    + right. eexists _, _. split; [done|]. split; [done|]. by intros ->.
    + rewrite (Hj' j) by done. apply Ha.
  - intros j h. rewrite Hn'. destruct (decide (j = i)) as [->|Hne].
    + rewrite Hi'. intros [= <-]. lia.
    + rewrite (Hj' j Hne). intros Hh. apply Hr in Hh. lia.
  - intros h. destruct i.
    + change (persistTimerRef1 (onDocPersist First field now pg))
        with (persistTimerRef First (onDocPersist First field now pg)).
      change (persistTimerRef2 (onDocPersist First field now pg))
        with (persistTimerRef Second (onDocPersist First field now pg)).
      rewrite Hi', (Hj' Second) by done. intros [= <-] Hh.
      apply (Hr Second) in Hh. lia.
    + change (persistTimerRef1 (onDocPersist Second field now pg))
        with (persistTimerRef First (onDocPersist Second field now pg)).
      change (persistTimerRef2 (onDocPersist Second field now pg))
        with (persistTimerRef Second (onDocPersist Second field now pg)).
      rewrite Hi', (Hj' First) by done. intros Hh [= <-].
      apply (Hr First) in Hh. lia.
  - rewrite Hn'. lia.
Qed.

Lemma armed_clearTimeout j h pg :
  armed j (clearTimeout h pg) = filter (fun t => fst t <> h) (armed j pg).
Proof. unfold armed, clearTimeout. simpl. apply filter_comm. Qed.

Lemma page_wf_clearTimeout h pg : page_wf pg -> page_wf (clearTimeout h pg).
Proof.
  intros (Ha & Hr & Hd & Hpos). split; [|done].
  intros j. rewrite armed_clearTimeout.
  destruct (Ha j) as [-> | (h' & t' & -> & Hj & Hw)]; [by left|].
  rewrite filter_cons, filter_nil. simpl. case_decide; [|by left].
  right. by exists h', t'.
Qed.

Lemma page_wf_onPersistTimer h pg : page_wf pg -> page_wf (onPersistTimer h pg).
Proof.
  intros Hwf. unfold onPersistTimer.
  destruct (filter _ (timeouts pg)) as [|[h' t] rest]; [done|].
  apply (page_wf_clearTimeout h) in Hwf. revert Hwf.
  generalize (clearTimeout h pg). intros pg1 Hwf.
  destruct (persistCustomerRow _ _ _ _ _ _) as [r out].
  destruct (pt_instance t); exact Hwf.
Qed.

Lemma switchTo_armed next now pg :
  page_wf pg ->
  armed First (switchTo next now pg) = []
  /\ armed Second (switchTo next now pg) = armed Second pg
  /\ persistTimerRef1 (switchTo next now pg) = None
  /\ persistTimerRef2 (switchTo next now pg) = persistTimerRef2 pg
  /\ nextTimeout (switchTo next now pg) = nextTimeout pg.
Proof.
  intros Hwf. pose proof Hwf as (Ha & Hr & Hd & Hpos).
  unfold switchTo. cbv zeta.
  cbn [persistTimerRef1 set_ignorePersistUntilRef].
  destruct (persistTimerRef1 pg) as [h|] eqn:H1.
  - destruct (Hr First h H1) as [Hh _].
    assert (negb (h =? 0)%nat = true) as ->
      by (apply negb_true_iff, Nat.eqb_neq; lia).
    pose proof (armed_clear pg First First h Hwf H1) as HF.
    pose proof (armed_clear pg First Second h Hwf H1) as HS.
    rewrite decide_True in HF by done. rewrite decide_False in HS by done.
    done.
  - destruct (Ha First) as [HF | (h' & t' & _ & Href & _)];
      [|simpl in Href; congruence].
    done.
Qed.

Lemma page_wf_switchTo next now pg : page_wf pg -> page_wf (switchTo next now pg).
Proof.
  intros Hwf. destruct (switchTo_armed next now pg Hwf) as (HF & HS & H1 & H2 & Hn).
  destruct Hwf as (Ha & Hr & Hd & Hpos).
  split; [|split; [|split]].
  - intros [|]; [by left|]. rewrite HS. cbn [persistTimerRef]. rewrite H2.
    apply (Ha Second).
  - intros [|] h; cbn [persistTimerRef]; rewrite Hn, ?H1, ?H2; [done|].
    apply (Hr Second).
  - by rewrite H1.
  - by rewrite Hn.
Qed.

Lemma page_wf_step e pg : page_wf pg -> page_wf (pageStep e pg).
Proof.
  intros Hwf. destruct e as [f now|h|i ok p|d now|u now|c ds|until]; simpl.
  - unfold docPersist. by apply page_wf_onDocPersist, page_wf_onDocPersist.
  - by apply page_wf_onPersistTimer.
  - unfold onSaveSettled. by destruct i.
  - unfold onUserSelect. case_bool_decide; [done|]. by apply page_wf_switchTo.
  - unfold urlParamEffect. repeat case_match; try done. by apply page_wf_switchTo.
  - done.
  - done.
Qed.

Lemma page_wf_run evs pg : page_wf pg -> page_wf (pageRun evs pg).
Proof.
  revert pg. induction evs as [|e evs IH]; intros pg Hwf; simpl; [done|].
  by apply IH, page_wf_step.
Qed.

(** X20. At every point of a run of the page each instance of
    [useDocumentPersistEvents] has at most one debounce timeout armed, the one
    its [persistTimerRef] names. *)
Theorem persist_debounce_arms_one_timeout localized columns source evs i :
  let pg := pageRun evs (initialPage localized columns source) in
  armed i pg = []
  \/ exists h t, armed i pg = [(h, t)] /\ persistTimerRef i pg = Some h.
Proof.
  cbv zeta.
  destruct (page_wf_run evs _ (page_wf_initial localized columns source))
    as (Ha & _).
  destruct (Ha i) as [-> | (h & t & -> & Hr & _)]; [by left|].
  right. by exists h, t.
Qed.

(** A timeout that is armed runs the persist with what it closed over. *)
Lemma onPersistTimer_fires pg h t :
  page_wf pg -> (h, t) ∈ timeouts pg ->
  onPersistTimer h pg
  = let pg1 := clearTimeout h pg in
    let '(r, out) :=
      persistCustomerRow (pt_waId t) (pt_columns t) (pt_dataSource t)
        (Some (pt_field t)) (pt_isLocalized t) (persistRefs (pt_instance t) pg1) in
    pg1 |> set_persistRefs (pt_instance t) r |> set_effects (effects pg1 ++ out).
Proof.
  intros Hwf Hin. unfold onPersistTimer.
  assert ((h, t) ∈ filter (fun x : nat * PersistTask => fst x = h) (timeouts pg))
    as Hf by (by apply list_elem_of_filter).
  destruct (filter _ (timeouts pg)) as [|[h' t'] rest] eqn:Hl;
    [by apply elem_of_nil in Hf|].
  assert ((h', t') ∈ filter (fun x : nat * PersistTask => fst x = h) (timeouts pg))
    as [Hh Hin']%list_elem_of_filter by (rewrite Hl; left).
  simpl in Hh. subst h'.
  destruct (armed_handle pg h t Hwf Hin) as (Hr & _).
  destruct (armed_handle pg h t' Hwf Hin') as (Hr' & _).
  assert (pt_instance t' = pt_instance t) as Hi.
  { destruct Hwf as (_ & _ & Hd & _).
    destruct (pt_instance t), (pt_instance t'); try done; simpl in *.
    - by destruct (Hd h Hr).
    - by destruct (Hd h Hr'). }
  assert (t' = t) as ->; [|done].
  destruct Hwf as (Ha & _).
  assert ((h, t) ∈ armed (pt_instance t) pg) as H1 by (by apply list_elem_of_filter).
  assert ((h, t') ∈ armed (pt_instance t) pg) as H2 by (by apply list_elem_of_filter).
  destruct (Ha (pt_instance t)) as [Hnil | (h0 & t0 & Heq & _)].
  - rewrite Hnil in H1. by apply elem_of_nil in H1.
  - rewrite Heq in H1, H2. apply list_elem_of_singleton in H1, H2. congruence.
Qed.

Lemma docPersist_accepted field fld now pg :
  page_wf pg -> persist_unguarded now pg ->
  fieldOf (default "" field) = Some fld ->
  let pg' := docPersist field now pg in
  page_wf pg'
  /\ (forall i, exists h, armed i pg' = [(h, taskOf i fld pg)]
                           /\ persistTimerRef i pg' = Some h)
  /\ (forall i fld', taskOf i fld' pg' = taskOf i fld' pg)
  /\ (forall now', persist_unguarded now' pg -> persist_unguarded now' pg')
  /\ effects pg' = effects pg
  /\ (forall i, persistRefs i pg' = persistRefs i pg).
Proof.
  intros Hwf Hg Hf. cbv zeta. unfold docPersist.
  destruct (onDocPersist_accepted First field fld now pg Hwf Hg Hf)
    as (Ha1 & Hi1 & Hj1 & Hn1 & Ht1 & Hg1 & He1 & Hp1).
  pose proof (page_wf_onDocPersist First field now pg Hwf) as Hwf1.
  revert Ha1 Hi1 Hj1 Hn1 Ht1 Hg1 He1 Hp1 Hwf1.
  generalize (onDocPersist First field now pg). intros pg1.
  intros Ha1 Hi1 Hj1 Hn1 Ht1 Hg1 He1 Hp1 Hwf1.
  destruct (onDocPersist_accepted Second field fld now pg1 Hwf1 (Hg1 _ Hg) Hf)
    as (Ha2 & Hi2 & Hj2 & Hn2 & Ht2 & Hg2 & He2 & Hp2).
  split; [by apply page_wf_onDocPersist|].
  split.
  { intros [|].
    - exists (nextTimeout pg). rewrite Ha2, decide_False by done.
      rewrite Ha1, decide_True by done. rewrite (Hj2 First) by done. done.
    - exists (nextTimeout pg1). rewrite Ha2, decide_True by done.
      by rewrite Ht1. }
  split; [intros i fld'; by rewrite Ht2, Ht1|].
  split; [intros now' Hnow'; by apply Hg2, Hg1|].
  split; [congruence|].
  intros i. by rewrite Hp2, Hp1.
Qed.

(** X21. Of two [doc:persist] events that pass the guards with no
    timer run in between, only the second keeps a timeout, and the persist
    that follows is triggered by the field of the second. *)
Theorem persist_debounce_keeps_last_field
    localized columns source evs f1 f2 fld1 fld2 t1 t2 i :
  let pg := pageRun evs (initialPage localized columns source) in
  fieldOf (default "" f1) = Some fld1 ->
  fieldOf (default "" f2) = Some fld2 ->
  persist_unguarded t1 pg ->
  persist_unguarded t2 pg ->
  let pg' := docPersist f2 t2 (docPersist f1 t1 pg) in
  exists h, armed i pg' = [(h, taskOf i fld2 pg)]
            /\ persistTimerRef i pg' = Some h.
Proof.
  cbv zeta. intros H1 H2 Hg1 Hg2.
  pose proof (page_wf_run evs _ (page_wf_initial localized columns source)) as Hwf.
  destruct (docPersist_accepted f1 fld1 t1 _ Hwf Hg1 H1)
    as (Hwf1 & _ & Htask & Hg & _).
  destruct (docPersist_accepted f2 fld2 t2 _ Hwf1 (Hg _ Hg2) H2)
    as (_ & Ha & _).
  destruct (Ha i) as (h & Hh & Hr). exists h. by rewrite <- (Htask i).
Qed.

(** X22. A phone edit committed right after a name edit, before the
    debounce timeout has run, replaces it: when the timeout runs nothing is
    saved, since a persist triggered by the phone shows at most the success
    toast. *)
Theorem phone_edit_supersedes_name_save localized columns source evs t1 t2 :
  let pg := pageRun evs (initialPage localized columns source) in
  persist_unguarded t1 pg ->
  persist_unguarded t2 pg ->
  let pg' := docPersist (Some "phone") t2 (docPersist (Some "name") t1 pg) in
  exists h,
    armed Second pg' = [(h, taskOf Second FPhone pg)]
    /\ let pg'' := onPersistTimer h pg' in
       armed Second pg'' = []
       /\ persistRefs2 pg'' = persistRefs2 pg
       /\ (effects pg'' = effects pg
           \/ effects pg'' = (effects pg ++ [ToastSuccess "saved" (isLocalized pg)])%list).
Proof.
  cbv zeta. intros Hg1 Hg2.
  pose proof (page_wf_run evs _ (page_wf_initial localized columns source)) as Hwf.
  revert Hwf Hg1 Hg2. generalize (pageRun evs (initialPage localized columns source)).
  intros pg Hwf Hg1 Hg2.
  destruct (docPersist_accepted (Some "name") FName t1 pg Hwf Hg1 eq_refl)
    as (Hwf1 & _ & Htask & Hg & He1 & Hp1).
  destruct (docPersist_accepted (Some "phone") FPhone t2 _ Hwf1 (Hg _ Hg2) eq_refl)
    as (Hwf2 & Ha & _ & _ & He2 & Hp2).
  destruct (Ha Second) as (h & Hh & Hr). rewrite (Htask Second) in Hh.
  exists h. split; [done|].
  assert ((h, taskOf Second FPhone pg)
            ∈ timeouts (docPersist (Some "phone") t2 (docPersist (Some "name") t1 pg)))
    as Hin.
  { assert ((h, taskOf Second FPhone pg)
              ∈ armed Second (docPersist (Some "phone") t2
                                (docPersist (Some "name") t1 pg))) as Hin
      by (rewrite Hh; left).
    by apply list_elem_of_filter in Hin as [_ Hin]. }
  rewrite (onPersistTimer_fires _ h _ Hwf2 Hin).
  cbv zeta. cbn [pt_instance pt_waId pt_columns pt_dataSource pt_field
                 pt_isLocalized taskOf].
  assert (persistRefs Second (clearTimeout h (docPersist (Some "phone") t2
            (docPersist (Some "name") t1 pg))) = persistRefs2 pg) as ->.
  { change (persistRefs Second (clearTimeout h ?x)) with (persistRefs Second x).
    by rewrite (Hp2 Second), (Hp1 Second). }
  assert (forall out,
    persistCustomerRow (waId pg) (customerColumns pg) (customerDataSource pg)
      (Some FPhone) (isLocalized pg) (persistRefs2 pg) = (persistRefs2 pg, out) ->
    out = [] \/ out = [ToastSuccess "saved" (isLocalized pg)]) as Hout.
  { intros out. unfold persistCustomerRow.
    destruct (readRow _ _ _) as [[nameVal ageVal]|]; [|intros [= <-]; by left].
    unfold afterRead. cbv zeta. rewrite bool_decide_eq_true_2 by done.
    intros [= <-]. by right. }
  assert (exists out,
    persistCustomerRow (waId pg) (customerColumns pg) (customerDataSource pg)
      (Some FPhone) (isLocalized pg) (persistRefs2 pg) = (persistRefs2 pg, out))
    as (out & Hrun).
  { unfold persistCustomerRow.
    destruct (readRow _ _ _) as [[nameVal ageVal]|]; [|by eexists].
    unfold afterRead. cbv zeta. rewrite bool_decide_eq_true_2 by done. by eexists. }
  rewrite Hrun. specialize (Hout out Hrun).
  split.
  { change (armed Second (set_effects ?e (set_persistRefs Second ?r ?x)))
      with (armed Second x).
    rewrite armed_clearTimeout, Hh, filter_cons, filter_nil. simpl.
    by rewrite decide_False by (intros H; by apply H). }
  split; [done|].
  cbn [effects set_effects set_persistRefs set_persistRefs2 clearTimeout set_timeouts].
  rewrite He2, He1. destruct Hout as [-> | ->]; [left; by rewrite app_nil_r|by right].
Qed.

(** X23. A [doc:user-select] event leaves the debounce timeout of the
    instance wired to the customer row armed; with a subject to switch to, it
    clears the timeout of the first instance, whose ref is the one handed to
    [useDocumentSelection]. *)
Theorem customer_switch_keeps_wired_timeout
    localized columns source evs detailWaId now :
  let pg := pageRun evs (initialPage localized columns source) in
  let pg' := onUserSelect detailWaId now pg in
  armed Second pg' = armed Second pg
  /\ persistTimerRef2 pg' = persistTimerRef2 pg
  /\ (default "" detailWaId <> "" ->
      waId pg' = default "" detailWaId
      /\ armed First pg' = []
      /\ persistTimerRef1 pg' = None).
Proof.
  cbv zeta.
  pose proof (page_wf_run evs _ (page_wf_initial localized columns source)) as Hwf.
  revert Hwf. generalize (pageRun evs (initialPage localized columns source)).
  intros pg Hwf. unfold onUserSelect. cbv zeta.
  case_bool_decide as Hd; [done|].
  destruct (switchTo_armed (default "" detailWaId) now pg Hwf)
    as (HF & HS & H1 & H2 & _).
  repeat split; done.
Qed.

(** X24. A debounce timeout of the first instance, which the page
    calls with the blank subject, saves nothing and shows nothing when it
    runs. *)
Theorem first_instance_persist_is_silent localized columns source evs h t :
  let pg := pageRun evs (initialPage localized columns source) in
  (h, t) ∈ armed First pg ->
  let pg' := onPersistTimer h pg in
  effects pg' = effects pg
  /\ persistRefs1 pg' = persistRefs1 pg
  /\ persistRefs2 pg' = persistRefs2 pg
  /\ armed First pg' = [].
Proof.
  cbv zeta.
  pose proof (page_wf_run evs _ (page_wf_initial localized columns source)) as Hwf.
  revert Hwf. generalize (pageRun evs (initialPage localized columns source)).
  intros pg Hwf [Hi Hin]%list_elem_of_filter. simpl in Hi.
  destruct (armed_handle pg h t Hwf Hin) as (Hr & _ & Hw).
  rewrite (onPersistTimer_fires _ h _ Hwf Hin). cbv zeta.
  rewrite (Hw Hi), Hi. unfold persistCustomerRow, readRow. simpl.
  rewrite app_nil_r. repeat split; try done.
  change (armed First (set_effects ?e (set_persistRefs1 ?r ?x))) with (armed First x).
  rewrite (armed_clear pg First First h Hwf); [by rewrite decide_True|].
  by rewrite <- Hi.
Qed.

End PageFacts.

Section PageGuardFacts.
Import UseDocumentScene.
Context `{ext : Externals}.

(** X25. After a [doc:user-select] event that names a subject,
    [doc:persist] events are ignored for 900 ms and the change intake of a
    session controller on the same page is closed for 1500 ms. *)
Theorem customer_switch_opens_guards
    (pg : DocumentsPage.Page) detailWaId now field t
    (s : Hook) elements appState files viewer editor t' :
  default "" detailWaId <> "" ->
  let pg' := DocumentsPage.onUserSelect detailWaId now pg in
  (t < now + 900 -> DocumentsPage.docPersist field t pg' = pg')
  /\ (docIgnoreChangesUntil s = DocumentsPage.docIgnoreChangesUntil pg' ->
      (0 <= t') /\ (t' < now + 1500) ->
      handleCanvasChangeInternal elements appState files viewer editor t' s = s).
Proof.
  intros Hd. cbv zeta. unfold DocumentsPage.onUserSelect. cbv zeta.
  rewrite bool_decide_eq_false_2 by done.
  split.
  - intros Ht. unfold DocumentsPage.docPersist, DocumentsPage.onDocPersist.
    cbv zeta.
    assert (DocumentsPage.ignorePersistUntilRef
              (DocumentsPage.switchTo (default "" detailWaId) now pg) = now + 900) as ->.
    { unfold DocumentsPage.switchTo. cbv zeta. by repeat case_match. }
    assert ((t <? now + 900) = true) as -> by (apply Z.ltb_lt; lia).
    assert (DocumentsPage.ignorePersistUntilRef
              (DocumentsPage.switchTo (default "" detailWaId) now pg) = now + 900) as ->.
    { unfold DocumentsPage.switchTo. cbv zeta. by repeat case_match. }
    by assert ((t <? now + 900) = true) as -> by (apply Z.ltb_lt; lia).
  - assert (DocumentsPage.docIgnoreChangesUntil
              (DocumentsPage.switchTo (default "" detailWaId) now pg)
            = Some (now + 1500)) as ->.
    { unfold DocumentsPage.switchTo. cbv zeta. by repeat case_match. }
    intros Hg [H0 Ht']. apply intake_closed. unfold intakeOpen, globalSuppressed.
    rewrite Hg.
    assert ((now + 1500 =? 0) = false) as -> by (apply Z.eqb_neq; lia).
    assert ((t' <? now + 1500) = true) as -> by (apply Z.ltb_lt; lia).
    simpl. by rewrite andb_false_r.
Qed.

End PageGuardFacts.

(** ** The customer fetch *)

Section EncodeFacts.
Import CustomerApi.

Lemma hexDigit_inj (a b : nat) :
  (a < 16)%nat -> (b < 16)%nat -> hexDigit a = hexDigit b -> a = b.
Proof.
  intros Ha Hb. unfold hexDigit. intros H.
  apply (f_equal Ascii.nat_of_ascii) in H.
  rewrite !Ascii.nat_ascii_embedding in H by (repeat case_match; lia).
  destruct (a <? 10)%nat eqn:Ea, (b <? 10)%nat eqn:Eb;
    try apply Nat.ltb_lt in Ea; try apply Nat.ltb_lt in Eb;
    try apply Nat.ltb_ge in Ea; try apply Nat.ltb_ge in Eb; lia.
Qed.

Lemma nat_of_ascii_lt c : (Ascii.nat_of_ascii c < 256)%nat.
Proof. apply Ascii.nat_ascii_bounded. Qed.

Lemma percent_reserved : unreserved percent = false.
Proof. reflexivity. Qed.

(** X26. The key under which [fetchCustomer] caches and deduplicates
    determines the subject: two ids with the same encoding are the same
    id. *)
Theorem encodeURIComponent_injective (s1 s2 : string) :
  encodeURIComponent s1 = encodeURIComponent s2 <-> s1 = s2.
Proof.
  split; [|by intros ->].
  revert s2. induction s1 as [|c1 r1 IH]; intros [|c2 r2];
    cbn [encodeURIComponent]; cbv zeta.
  - done.
  - by case_match.
  - by case_match.
  - destruct (unreserved c1) eqn:U1, (unreserved c2) eqn:U2.
    + intros [= -> H]. by rewrite (IH _ H).
    + intros [= -> _]. by rewrite percent_reserved in U1.
    + intros [= <- _]. by rewrite percent_reserved in U2.
    + intros [= Hhi Hlo H]. rewrite (IH _ H). f_equal.
      pose proof (nat_of_ascii_lt c1) as B1. pose proof (nat_of_ascii_lt c2) as B2.
      change (hexDigit (Ascii.nat_of_ascii c1 / 16)
              = hexDigit (Ascii.nat_of_ascii c2 / 16))%nat in Hhi.
      change (hexDigit (Ascii.nat_of_ascii c1 mod 16)
              = hexDigit (Ascii.nat_of_ascii c2 mod 16))%nat in Hlo.
      apply hexDigit_inj in Hhi;
        [|apply Nat.Div0.div_lt_upper_bound; lia
         |apply Nat.Div0.div_lt_upper_bound; lia].
      apply hexDigit_inj in Hlo;
        [|apply Nat.mod_upper_bound; lia|apply Nat.mod_upper_bound; lia].
      rewrite <- (Ascii.ascii_nat_embedding c1), <- (Ascii.ascii_nat_embedding c2).
      f_equal.
      rewrite (Nat.div_mod_eq (Ascii.nat_of_ascii c1) 16),
              (Nat.div_mod_eq (Ascii.nat_of_ascii c2) 16).
      by rewrite Hhi, Hlo.
Qed.

End EncodeFacts.

Section ApiFacts.
Import CustomerApi.
Context {Json : Type}.

Implicit Types (a : ApiState Json) (id : string).

Lemma api_wf_initial : api_wf (initialApi (Json := Json)).
Proof.
  split; [|split].
  - intros id. simpl. by rewrite lookup_empty.
  - by intros task id ?%elem_of_nil.
  - by intros task id1 id2 ?%elem_of_nil.
Qed.

(** An unsettled task is the one the in-flight map holds for its id. *)
Lemma unsettled_in_flight a task id :
  api_wf a -> (task, id) ∈ unsettled a ->
  customerFetchInFlight a !! id = Some task /\ underWay id a = [(task, id)].
Proof.
  intros (Hs & _) Hin.
  assert ((task, id) ∈ underWay id a) as Hu by (by apply list_elem_of_filter).
  specialize (Hs id). destruct (customerFetchInFlight a !! id) as [t|].
  - rewrite Hs in Hu. apply list_elem_of_singleton in Hu. injection Hu as ->. done.
  - rewrite Hs in Hu. by apply elem_of_nil in Hu.
Qed.

Lemma settle_finds a task id :
  api_wf a -> (task, id) ∈ unsettled a ->
  exists rest, filter (fun t : nat * string => fst t = task) (unsettled a)
               = (task, id) :: rest.
Proof.
  intros Hwf Hin.
  assert ((task, id) ∈ filter (fun t : nat * string => fst t = task) (unsettled a))
    as Hf by (by apply list_elem_of_filter).
  destruct (filter _ (unsettled a)) as [|[t' id'] rest] eqn:Hl;
    [by apply elem_of_nil in Hf|].
  assert ((t', id') ∈ filter (fun t : nat * string => fst t = task) (unsettled a))
    as [Ht Hin']%list_elem_of_filter by (rewrite Hl; left).
  simpl in Ht. subst t'. destruct Hwf as (_ & _ & Hu).
  rewrite (Hu task id' id Hin' Hin). by exists rest.
Qed.

Lemma underWay_filter id task (l : list (nat * string)) :
  filter (fun t : nat * string => snd t = id)
    (filter (fun t : nat * string => fst t <> task) l)
  = filter (fun t : nat * string => fst t <> task)
      (filter (fun t : nat * string => snd t = id) l).
Proof.
  rewrite !list_filter_filter. apply list_filter_iff. intros x. tauto.
Qed.

(** What settling a task leaves of the bookkeeping, whatever its outcome. *)
Lemma settled_wf a task id (cache : gmap string (CacheEntry Json)) :
  api_wf a -> (task, id) ∈ unsettled a ->
  api_wf {| customerFetchInFlight := delete id (customerFetchInFlight a);
            customerFetchCache := cache;
            unsettled := filter (fun t => fst t <> task) (unsettled a);
            nextPromise := nextPromise a;
            requests := requests a |}.
Proof.
  intros Hwf Hin. destruct (unsettled_in_flight a task id Hwf Hin) as [Hf Hu].
  pose proof Hwf as (Hs & Hb & Hi).
  split; [|split].
  - intros id'. unfold underWay. simpl. rewrite underWay_filter.
    fold (underWay id' a).
    destruct (decide (id' = id)) as [->|Hne].
    + rewrite lookup_delete_eq, Hu, filter_cons, filter_nil. simpl.
      by rewrite decide_False by (intros H; by apply H).
    + rewrite lookup_delete_ne by done. specialize (Hs id').
      destruct (customerFetchInFlight a !! id') as [t'|] eqn:Hf'.
      * rewrite Hs, filter_cons, filter_nil. simpl.
        rewrite decide_True; [done|]. intros ->. apply Hne.
        apply (Hi task id' id); [|done].
        assert ((task, id') ∈ underWay id' a) as Hx by (rewrite Hs; left).
        by apply list_elem_of_filter in Hx as [_ Hx].
      * by rewrite Hs.
  - simpl. intros t' id' [_ Hx]%list_elem_of_filter. by apply (Hb t' id').
  - simpl. intros t' id1 id2 [_ H1]%list_elem_of_filter [_ H2]%list_elem_of_filter.
    by apply (Hi t' id1 id2).
Qed.

Lemma api_wf_fetch waId now a : api_wf a -> api_wf (snd (fetchCustomer waId now a)).
Proof.
  intros Hwf. unfold fetchCustomer. cbv zeta.
  destruct (match customerFetchCache a !! encodeURIComponent waId with
            | Some cached => _
            | None => None
            end); [done|].
  destruct (customerFetchInFlight a !! encodeURIComponent waId) as [t|] eqn:Hf;
    [done|].
  simpl. destruct Hwf as (Hs & Hb & Hi). split; [|split].
  - intros id'. unfold underWay. simpl. rewrite filter_app, filter_cons, filter_nil.
    simpl. fold (underWay id' a). specialize (Hs id').
    destruct (decide (id' = encodeURIComponent waId)) as [->|Hne].
    + rewrite lookup_insert_eq, decide_True by done. rewrite Hf in Hs. by rewrite Hs.
    + rewrite lookup_insert_ne, decide_False by done. rewrite app_nil_r. exact Hs.
  - simpl. intros t' id' [Hx | [= -> ->]%list_elem_of_singleton]%elem_of_app.
    + apply Hb in Hx. lia.
    + lia.
  - simpl. intros t' id1 id2
      [H1 | H1%list_elem_of_singleton]%elem_of_app
      [H2 | H2%list_elem_of_singleton]%elem_of_app.
    + by apply (Hi t' id1 id2).
    + injection H2 as -> ->. apply Hb in H1. lia.
    + injection H1 as -> ->. apply Hb in H2. lia.
    + congruence.
Qed.

Lemma api_wf_step e a : api_wf a -> api_wf (apiStep e a).
Proof.
  intros Hwf. destruct e as [waId now|task result now|task]; simpl.
  - by apply api_wf_fetch.
  - unfold onResolved.
    destruct (filter _ (unsettled a)) as [|[t' id] rest] eqn:Hl; [done|].
    assert ((t', id) ∈ filter (fun t : nat * string => fst t = task) (unsettled a))
      as [Ht Hin]%list_elem_of_filter by (rewrite Hl; left).
    simpl in Ht. subst t'. by apply settled_wf.
  - unfold onRejected.
    destruct (filter _ (unsettled a)) as [|[t' id] rest] eqn:Hl; [done|].
    assert ((t', id) ∈ filter (fun t : nat * string => fst t = task) (unsettled a))
      as [Ht Hin]%list_elem_of_filter by (rewrite Hl; left).
    simpl in Ht. subst t'. by apply settled_wf.
Qed.

Lemma api_wf_run evs a : api_wf a -> api_wf (apiRun evs a).
Proof.
  revert a. induction evs as [|e evs IH]; intros a Hwf; simpl; [done|].
  by apply IH, api_wf_step.
Qed.

(** X27. At every point of a run at most one GET is under way for a
    subject; a call made while one is under way, with no fresh cache entry,
    follows that task and starts none. *)
Theorem fetch_customer_deduplicates (evs : list (ApiEvent Json)) waId now :
  let a := apiRun evs initialApi in
  let id := encodeURIComponent waId in
  (length (underWay id a) <= 1)%nat
  /\ (length (underWay id (snd (fetchCustomer waId now a))) <= 1)%nat
  /\ (underWay id a <> [] -> requests (snd (fetchCustomer waId now a)) = requests a).
Proof.
  cbv zeta. pose proof (api_wf_run evs _ api_wf_initial) as Hwf.
  pose proof (api_wf_fetch waId now _ Hwf) as Hwf'.
  revert Hwf Hwf'. generalize (apiRun evs (initialApi (Json := Json))).
  intros a Hwf Hwf'.
  assert (forall b : ApiState Json,
            api_wf b -> (length (underWay (encodeURIComponent waId) b) <= 1)%nat)
    as Hlen.
  { intros b (Hs & _). specialize (Hs (encodeURIComponent waId)).
    destruct (customerFetchInFlight b !! encodeURIComponent waId);
      rewrite Hs; simpl; lia. }
  split; [by apply Hlen|]. split; [by apply Hlen|].
  intros Hne. unfold fetchCustomer. cbv zeta.
  destruct (match customerFetchCache a !! encodeURIComponent waId with
            | Some cached => _
            | None => None
            end); [done|].
  destruct Hwf as (Hs & _). specialize (Hs (encodeURIComponent waId)).
  destruct (customerFetchInFlight a !! encodeURIComponent waId); [done|].
  by destruct Hne.
Qed.

(** X28. A call made less than 1500 ms after the answer for the
    subject arrived returns that answer and starts no task; from 1500 ms on it
    starts a new one. *)
Theorem fetch_customer_served_from_cache
    (evs : list (ApiEvent Json)) waId task result answered now :
  let a := apiRun evs initialApi in
  (task, encodeURIComponent waId) ∈ unsettled a ->
  now - answered < CUSTOMER_FETCH_TTL_MS ->
  let a' := onResolved task result answered a in
  fetchCustomer waId now a' = (FromCache result, a')
  /\ underWay (encodeURIComponent waId) a' = [].
Proof.
  cbv zeta. pose proof (api_wf_run evs _ api_wf_initial) as Hwf.
  revert Hwf. generalize (apiRun evs (initialApi (Json := Json))).
  intros a Hwf Hin Hnow.
  destruct (settle_finds a task _ Hwf Hin) as (rest & Hl).
  pose proof (settled_wf a task _
                (<[encodeURIComponent waId := {| at_ := answered; data := result |}]>
                   (customerFetchCache a)) Hwf Hin) as (Hs & _).
  unfold onResolved. rewrite Hl. split.
  - unfold fetchCustomer. cbv zeta. simpl. rewrite lookup_insert_eq. simpl.
    by assert ((now - answered <? CUSTOMER_FETCH_TTL_MS) = true) as ->
      by (apply Z.ltb_lt; lia).
  - specialize (Hs (encodeURIComponent waId)). simpl in Hs.
    by rewrite lookup_delete_eq in Hs.
Qed.

(** X29. A failed GET leaves no trace: the cache is as it was and
    the in-flight entry is gone, so that the next call for the subject, with
    no fresh cache entry, starts a new task. *)
Theorem fetch_customer_retries_after_failure
    (evs : list (ApiEvent Json)) waId task now :
  let a := apiRun evs initialApi in
  let id := encodeURIComponent waId in
  (task, id) ∈ unsettled a ->
  stale id now a ->
  let a' := onRejected task a in
  customerFetchCache a' = customerFetchCache a
  /\ customerFetchInFlight a' !! id = None
  /\ fst (fetchCustomer waId now a) = Follows task
  /\ requests (snd (fetchCustomer waId now a)) = requests a
  /\ fst (fetchCustomer waId now a') = Follows (nextPromise a)
  /\ requests (snd (fetchCustomer waId now a')) = (requests a ++ [id])%list.
Proof.
  cbv zeta. pose proof (api_wf_run evs _ api_wf_initial) as Hwf.
  revert Hwf. generalize (apiRun evs (initialApi (Json := Json))).
  intros a Hwf Hin Hstale.
  destruct (settle_finds a task _ Hwf Hin) as (rest & Hl).
  destruct (unsettled_in_flight a task _ Hwf Hin) as [Hf _].
  assert (match customerFetchCache a !! encodeURIComponent waId with
          | Some cached =>
              if now - at_ cached <? CUSTOMER_FETCH_TTL_MS then Some cached else None
          | None => None
          end = None) as Hfresh.
  { destruct (customerFetchCache a !! encodeURIComponent waId) as [c|] eqn:Hc; [|done].
    specialize (Hstale c Hc).
    by assert ((now - at_ c <? CUSTOMER_FETCH_TTL_MS) = false) as ->
      by (apply Z.ltb_ge; lia). }
  unfold onRejected. rewrite Hl. simpl.
  split; [done|]. split; [by rewrite lookup_delete_eq|].
  unfold fetchCustomer. cbv zeta. simpl.
  rewrite Hfresh, Hf, lookup_delete_eq. done.
Qed.

End ApiFacts.

(** ** The throttle and the heartbeat on concrete runs *)

Section ThrottleExamples.
Import SceneThrottle SceneFixtures ThrottleFixtures.

#[local] Existing Instance demoExternals.

Lemma throttle_delivers_latest_call_witness :
  let m := thRun [ThChange stroke1 1000] (initialThrottled (propsFor "201")) in
  let m' := handleCanvasChange stroke2 1020 m in
  1020 - lastHookCallRef m < 50
  /\ internalCalls m' = [(1000, stroke1)]
  /\ exists h, hookThrottleTimerRef m' = Some h
               /\ internalCalls (onThrottleTimer h 1050 m')
                  = [(1000, stroke1); (1050, stroke2)].
Proof.
  intros m m'.
  destruct (throttle_delivers_latest_call (propsFor "201")
              [ThChange stroke1 1000] stroke2 1020)
    as (h & p & Hh & _ & _ & Hcalls & Hrun); [by vm_compute|].
  split; [by vm_compute|]. split; [exact Hcalls|].
  exists h. split; [exact Hh|].
  destruct (Hrun 1050) as (_ & Hc & _); [by vm_compute|]. exact Hc.
Defined.

Lemma heartbeat_waits_for_rerender_witness :
  let s := run steadyRun (mount (propsFor "201")) in
  forallb (keeps_heartbeat_deps (propsFor "201")) steadyRun = true
  /\ persistLog s <> []
  /\ forall r, r ∈ persistLog s -> pr_trigger r <> Heartbeat.
Proof.
  intros s. split; [by vm_compute|]. split; [by vm_compute|].
  apply (heartbeat_waits_for_rerender (propsFor "201") steadyRun).
  by vm_compute.
Defined.

End ThrottleExamples.

(** ** Runs of the mirror on concrete states *)

Section MirrorRunExamples.
Import UseDualCanvas MirrorRuns MirrorRunVocabulary.

Lemma passive_change_shows_at_next_frame_witness :
  let m := mirrorRun [MvViewerApiReady; MvViewerCamera (SceneFixtures.camera 1 0 0)]
             initialMirror in
  let m' := handleCanvasChange 9%nat emptyAppState 8%nat 1000 m in
  mirror_wf m
  /\ lastLiveSceneUpdateRef m + 16 <= 1000
  /\ viewerCalls m' = []
  /\ exists h, frames m' = [(h, {| ft_elements := 9%nat; ft_files := 8%nat |})]
               /\ viewerCalls (onFrame h m')
                  = [{| u_elements := 9%nat;
                        u_appState := Some (SceneFixtures.camera 1 0 0);
                        u_files := Some 8%nat |}].
Proof.
  intros m m'.
  assert (mirror_wf m) as Hwf by (by vm_compute).
  assert (lastLiveSceneUpdateRef m + 16 <= 1000) as Hnow by (by vm_compute).
  destruct (passive_change_shows_at_next_frame 9%nat emptyAppState 8%nat 1000 m
              Hwf eq_refl Hnow)
    as (h & _ & Hf & _ & Hcalls & _ & Hshows & _).
  split; [exact Hwf|]. split; [exact Hnow|]. split; [exact Hcalls|].
  exists h. split; [exact Hf|]. exact (proj1 Hshows).
Defined.

Lemma change_behind_queued_frame_waits_witness :
  let m := mirrorRun [MvViewerApiReady; MvChange 5%nat emptyAppState 6%nat 1000]
             initialMirror in
  let m' := handleCanvasChange 7%nat emptyAppState 6%nat 1010 m in
  mirror_wf m
  /\ liveSceneRafRef m = Some 1%nat
  /\ 1010 < lastLiveSceneUpdateRef m + 16
  /\ frames m' = [(1%nat, {| ft_elements := 5%nat; ft_files := 6%nat |})]
  /\ pendingLiveSceneUpdateRef (onFrame 1 m')
     = Some {| ft_elements := 7%nat; ft_files := 6%nat |}
  /\ frames (onFrame 1 m') = []
  /\ timeouts (onFrame 1 m') = [].
Proof.
  intros m m'.
  assert (mirror_wf m) as Hwf by (split; [by eexists|done]).
  assert (1010 < lastLiveSceneUpdateRef m + 16) as Hnow by (by vm_compute).
  destruct (change_behind_queued_frame_waits 7%nat emptyAppState 6%nat 1010 m 1%nat
              Hwf eq_refl eq_refl Hnow)
    as (queued & Hq & Hf & _ & _ & _ & _ & _ & Hf' & Ht' & Hp').
  injection Hq as <-.
  split; [exact Hwf|]. split; [reflexivity|]. split; [exact Hnow|].
  split; [exact Hf|]. split; [exact Hp'|]. split; [exact Hf'|exact Ht'].
Defined.

End MirrorRunExamples.

(** ** The viewer side on concrete states *)

Section ViewerExamples.
Import UseDualCanvasViewer SceneFixtures ViewerFixtures.

#[local] Existing Instance demoExternals.

Lemma load_listeners_apply_once_witness :
  let m := initialViewer "201" true true in
  let m' := loadStep (utils := demoSceneUtils)
              (LdSceneApplied (Some "201") (Some stored201)) m in
  m' <> m
  /\ loadRun (utils := demoSceneUtils)
       [LdExternalUpdate (Some "201") (Some updated201);
        LdSceneApplied (Some "201") (Some updated201)] m'
     = m'.
Proof.
  intros m m'.
  assert (m' <> m) as Hne by (intros H; vm_compute in H; discriminate H).
  split; [exact Hne|].
  exact (load_listeners_apply_once (utils := demoSceneUtils)
           (LdSceneApplied (Some "201") (Some stored201))
           [LdExternalUpdate (Some "201") (Some updated201);
            LdSceneApplied (Some "201") (Some updated201)] m Hne).
Defined.


Lemma viewer_change_saves_loaded_elements_witness :
  let s := run history201 (mount (propsFor "201")) in
  let m' := handleViewerCanvasChange (camera 2 0 0) viewing201 in
  latestElementsRef s = Some 20%nat
  /\ intakeOpen 2500 s = true
  /\ exists fw, forwarded m' = (forwarded viewing201 ++ [fw])%list
                /\ fw_elements fw = arr 10 3
                /\ fw_files fw = Some 11%nat
                /\ fw_viewerAppState fw = camera 2 0 0.
Proof.
  intros s m'.
  assert (exists c, idleControllers s !! 0%nat = Some c) as (c & Hc)
    by (vm_compute; by eexists).
  destruct (viewer_change_saves_loaded_elements
              viewing201 (camera 2 0 0) stored201 (arr 10 3) 11%nat s 2500 0%nat c)
    as (fw & Hfw & He & Hf & Hv & _).
  - by vm_compute.
  - by vm_compute.
  - by vm_compute.
  - by vm_compute.
  - intros H. vm_compute in H. discriminate H.
  - by vm_compute.
  - by vm_compute.
  - exact Hc.
  - intros H. vm_compute in H. discriminate H.
  - split; [by vm_compute|]. split; [by vm_compute|].
    exists fw. split; [exact Hfw|]. split; [exact He|]. split; [exact Hf|exact Hv].
Defined.

End ViewerExamples.

(** ** The canvas component and the fullscreen hook on concrete states *)

Section CanvasExamples.
Import SceneFixtures.

#[local] Existing Instance demoExternals.

Lemma gesture_coalesces_scene_updates_witness :
  let t := DocumentCanvas.trackerRun [DocumentCanvas.TkApi; DocumentCanvas.TkDown]
             DocumentCanvas.initialTracker in
  let t' := DocumentCanvas.sceneEffects
              [(5%nat, false, false); (6%nat, false, false); (7%nat, true, false)] t in
  DocumentCanvas.pointerActiveRef t = true
  /\ DocumentCanvas.updateSceneCalls t' = []
  /\ DocumentCanvas.sceneFrames t' = []
  /\ DocumentCanvas.updateSceneCalls (DocumentCanvas.release t')
     = [{| DocumentCanvas.sa_scene := 7%nat;
           DocumentCanvas.sa_viewModeEnabled := true;
           DocumentCanvas.sa_zenModeEnabled := false |}].
Proof.
  intros t t'.
  destruct (gesture_coalesces_scene_updates
              [(5%nat, false, false); (6%nat, false, false)] (7%nat, true, false) t
              eq_refl eq_refl)
    as (Hcalls & Hframes & Hrelease & _).
  split; [reflexivity|]. split; [exact Hcalls|]. split; [exact Hframes|].
  exact Hrelease.
Defined.

Lemma fullscreen_change_suppresses_intake_witness :
  let f := {| UseFullscreen.isFullscreen := false;
              UseFullscreen.fullscreenElement := true;
              UseFullscreen.container := true;
              UseFullscreen.docIgnoreChangesUntil := None;
              UseFullscreen.notified := [];
              UseFullscreen.requested := [true] |} in
  let f' := UseFullscreen.handleFullscreenChange 800 false 1000 f in
  let s := run [EvGlobalIgnore 1800] loaded201 in
  UseFullscreen.docIgnoreChangesUntil f' = Some 1800
  /\ intakeOpen 1500 loaded201 = true
  /\ handleCanvasChangeInternal (arr 20 4) emptyAppState 11%nat None None 1500 s = s.
Proof.
  intros f f' s. split; [reflexivity|]. split; [by vm_compute|].
  apply (fullscreen_change_suppresses_intake
           f 800 false 1000 s (arr 20 4) emptyAppState 11%nat None None 1500).
  - by vm_compute.
  - reflexivity.
  - by vm_compute.
  - by vm_compute.
Defined.

End CanvasExamples.

(** ** The customer row and the documents page on concrete states *)

Section PageExamples.
Import UseDocumentUnlock CustomerPersist DocumentsPage UnlockFixtures PageFixtures.



Lemma persist_debounce_keeps_last_field_witness :
  let pg := pageRun select201 (initialPage true [] emptyDataSource) in
  let pg' := docPersist (Some "age") 2100 (docPersist (Some "name") 2000 pg) in
  persist_unguarded 2000 pg
  /\ persist_unguarded 2100 pg
  /\ exists h, armed Second pg' = [(h, taskOf Second FAge pg)].
Proof.
  intros pg pg'.
  assert (forall t, 1900 <= t -> persist_unguarded t pg) as Hg.
  { intros t Ht. split; [exact Ht|]. intros u Hu. discriminate Hu. }
  assert (persist_unguarded 2000 pg) as H1 by (apply Hg; lia).
  assert (persist_unguarded 2100 pg) as H2 by (apply Hg; lia).
  destruct (persist_debounce_keeps_last_field true [] emptyDataSource select201
              (Some "name") (Some "age") FName FAge 2000 2100 Second
              eq_refl eq_refl H1 H2)
    as (h & Ha & _).
  split; [exact H1|]. split; [exact H2|]. exists h. exact Ha.
Defined.

Lemma phone_edit_supersedes_name_save_witness :
  let pg := pageRun select201 (initialPage true [] emptyDataSource) in
  let pg' := docPersist (Some "phone") 2100 (docPersist (Some "name") 2000 pg) in
  persist_unguarded 2000 pg
  /\ persist_unguarded 2100 pg
  /\ exists h, armed Second pg' = [(h, taskOf Second FPhone pg)]
               /\ filter (fun e => is_put e = true) (effects (onPersistTimer h pg')) = [].
Proof.
  intros pg pg'.
  assert (forall t, 1900 <= t -> persist_unguarded t pg) as Hg.
  { intros t Ht. split; [exact Ht|]. intros u Hu. discriminate Hu. }
  assert (persist_unguarded 2000 pg) as H1 by (apply Hg; lia).
  assert (persist_unguarded 2100 pg) as H2 by (apply Hg; lia).
  destruct (phone_edit_supersedes_name_save true [] emptyDataSource select201
              2000 2100 H1 H2)
    as (h & Ha & _ & _ & He).
  split; [exact H1|]. split; [exact H2|]. exists h. split; [exact Ha|].
  unfold pg', pg. destruct He as [-> | ->]; by vm_compute.
Defined.

Lemma first_instance_persist_is_silent_witness :
  let pg := pageRun [PgDocPersist (Some "name") 100] (initialPage true [] emptyDataSource) in
  armed First pg = [(1%nat, taskOf First FName pg)]
  /\ effects (onPersistTimer 1 pg) = []
  /\ armed First (onPersistTimer 1 pg) = [].
Proof.
  intros pg.
  assert (armed First pg = [(1%nat, taskOf First FName pg)]) as Ha by reflexivity.
  destruct (first_instance_persist_is_silent true [] emptyDataSource
              [PgDocPersist (Some "name") 100] 1%nat (taskOf First FName pg))
    as (He & _ & _ & Hf).
  - unfold pg in Ha |- *. rewrite Ha. left.
  - split; [exact Ha|]. split; [exact He|exact Hf].
Defined.

End PageExamples.

Section PageGuardExamples.
Import SceneFixtures PageFixtures.

#[local] Existing Instance demoExternals.

Lemma customer_switch_opens_guards_witness :
  let pg := DocumentsPage.initialPage true [] DocumentsPage.emptyDataSource in
  let pg' := DocumentsPage.onUserSelect (Some "201") 1000 pg in
  let s := run [EvGlobalIgnore 2500] loaded201 in
  DocumentsPage.docIgnoreChangesUntil pg' = Some 2500
  /\ DocumentsPage.docPersist (Some "name") 1500 pg' = pg'
  /\ handleCanvasChangeInternal (arr 20 4) emptyAppState 11%nat None None 2000 s = s.
Proof.
  intros pg pg' s.
  destruct (customer_switch_opens_guards
              pg (Some "201") 1000 (Some "name") 1500 s
              (arr 20 4) emptyAppState 11%nat None None 2000)
    as (Hpersist & Hintake); [discriminate|].
  split; [reflexivity|]. split.
  - apply Hpersist. by vm_compute.
  - apply Hintake; [reflexivity|]. split; by vm_compute.
Defined.

End PageGuardExamples.

(** ** The customer fetch on concrete runs *)

Section ApiExamples.
Import CustomerApi.

Lemma fetch_customer_served_from_cache_witness :
  let a := apiRun [ApFetch "+216 20" 1000] (initialApi (Json := string)) in
  let a' := onResolved 0%nat "ada" 1200 a in
  unsettled a = [(0%nat, "%2B216%2020")]
  /\ fetchCustomer "+216 20" 2000 a' = (FromCache "ada", a').
Proof.
  intros a a'. split; [reflexivity|].
  refine (proj1 (fetch_customer_served_from_cache
                   [ApFetch "+216 20" 1000] "+216 20" 0%nat "ada" 1200 2000 _ _)).
  - left.
  - by vm_compute.
Defined.

Lemma fetch_customer_retries_after_failure_witness :
  let a := apiRun [ApFetch "201" 1000] (initialApi (Json := string)) in
  let a' := onRejected 0%nat a in
  unsettled a = [(0%nat, "201")]
  /\ fst (fetchCustomer "201" 1100 a) = Follows 0%nat
  /\ fst (fetchCustomer "201" 1100 a') = Follows 1%nat
  /\ requests (snd (fetchCustomer "201" 1100 a')) = ["201"; "201"].
Proof.
  intros a a'.
  destruct (fetch_customer_retries_after_failure (Json := string)
              [ApFetch "201" 1000] "201" 0%nat 1100)
    as (_ & _ & Hjoin & _ & Hnew & Hreq).
  - left.
  - intros cached Hc. discriminate Hc.
  - split; [reflexivity|]. split; [exact Hjoin|]. split; [exact Hnew|exact Hreq].
Defined.

End ApiExamples.
